(** * MG EV battery-management poll decoder (mg_poll_bms.cpp)

    A shallow embedding of [OvmsVehicleMgEv::ProcessBatteryStats],
    [OvmsVehicleMgEv::IncomingBmsPoll], [OvmsVehicleMgEv::SetBmsStatus] and
    [OvmsVehicleMgEv::calculateSoc], with the properties of the frame
    decoder and of the charge-state machine, the invariants the decoder
    keeps over sequences of frames, and the accuracy of the decoded values
    against the exact rational formulas.

    The C++ code computes in IEEE-754 binary32 ([float]) and binary64
    ([double]).  Both formats are modelled bit for bit with the executable
    specification [SpecFloat] of the standard library (round to nearest,
    ties to even), so that every conversion and every rounding of the
    source appears in the model. *)

From Stdlib Require Import ZArith List Bool String Lia QArith.
From Stdlib Require Import Qabs Qpower Lqa Morphisms.
From Stdlib Require Import Floats.SpecFloat.
Import ListNotations.

Local Open Scope Z_scope.

(** ** IEEE-754 arithmetic *)

(** [float]: 24 bits of precision, infinities at exponent 128. *)
Module F32.
Definition prec : Z := 24.
Definition emax : Z := 128.
Definition t := spec_float.

Definition add : t -> t -> t := SFadd prec emax.
Definition sub : t -> t -> t := SFsub prec emax.
Definition mul : t -> t -> t := SFmul prec emax.
Definition div : t -> t -> t := SFdiv prec emax.
Definition opp : t -> t := SFopp.
Definition ltb : t -> t -> bool := SFltb.
Definition leb : t -> t -> bool := SFleb.
Definition eqb : t -> t -> bool := SFeqb.

(** Conversion of a C integer to [float]. *)
Definition of_Z (n : Z) : t := binary_normalize prec emax n 0 false.

(** The dyadic literal [m * 2^e]. *)
Definition lit (m e : Z) : t := binary_normalize prec emax m e false.

Definition zero : t := S754_zero false.
End F32.

(** [double]: 53 bits of precision, infinities at exponent 1024. *)
Module F64.
Definition prec : Z := 53.
Definition emax : Z := 1024.
Definition t := spec_float.

Definition add : t -> t -> t := SFadd prec emax.
Definition sub : t -> t -> t := SFsub prec emax.
Definition mul : t -> t -> t := SFmul prec emax.
Definition div : t -> t -> t := SFdiv prec emax.
Definition opp : t -> t := SFopp.
Definition ltb : t -> t -> bool := SFltb.
Definition leb : t -> t -> bool := SFleb.
Definition eqb : t -> t -> bool := SFeqb.

(** Conversion of a C integer to [double]. *)
Definition of_Z (n : Z) : t := binary_normalize prec emax n 0 false.

(** The dyadic literal [m * 2^e]. *)
Definition lit (m e : Z) : t := binary_normalize prec emax m e false.

Definition zero : t := S754_zero false.
End F64.

(** Re-rounding of a value into another format; zeros, infinities and NaN
    keep their class and sign. *)
Definition convert (prec emax : Z) (x : spec_float) : spec_float :=
  match x with
  | S754_finite s m e => binary_normalize prec emax (cond_Zopp s (Zpos m)) e s
  | _ => x
  end.

(** The implicit promotion [float -> double] (always exact). *)
Definition double_of_float (x : F32.t) : F64.t := convert F64.prec F64.emax x.

(** The implicit conversion [double -> float] (rounds). *)
Definition float_of_double (x : F64.t) : F32.t := convert F32.prec F32.emax x.

(** The rational denoted by a float; [None] for infinities and NaN. *)
Definition SF2Q (x : spec_float) : option Q :=
  match x with
  | S754_zero _ => Some 0%Q
  | S754_finite s m e => Some (inject_Z (cond_Zopp s (Zpos m)) * Qpower 2 e)%Q
  | _ => None
  end.

(** [x] is a number, and that number is [q]. *)
Definition denotes (x : spec_float) (q : Q) : Prop :=
  exists v, SF2Q x = Some v /\ (v == q)%Q.

Definition denotesb (x : spec_float) (q : Q) : bool :=
  match SF2Q x with
  | Some v => Qeq_bool v q
  | None => false
  end.

Definition is_finite (x : spec_float) : bool :=
  match x with
  | S754_zero _ | S754_finite _ _ _ => true
  | _ => false
  end.

Definition is_nan (x : spec_float) : bool :=
  match x with S754_nan => true | _ => false end.

Definition is_zero (x : spec_float) : bool :=
  match x with S754_zero _ => true | _ => false end.

(** Well-formed binary32 values: canonical mantissa, exponent in range. *)
Definition valid_float (x : F32.t) : bool := valid_binary F32.prec F32.emax x.

(** ** Machine integers and the frame buffer *)

Definition uint8_range (x : Z) : Prop := 0 <= x < 256.
Definition uint16_range (x : Z) : Prop := 0 <= x < 65536.

(** Conversion to [uint16_t]. *)
Definition to_uint16 (x : Z) : Z := x mod 65536.

(** [data[i]] on the payload [uint8_t* data]. *)
Definition byte_at (data : list Z) (i : nat) : Z := nth i data 0.

(** [(hi << 8 | lo)] stored into a [uint16_t]. *)
Definition be16 (hi lo : Z) : Z := to_uint16 (Z.lor (Z.shiftl hi 8) lo).

(** A payload of at least [n] bytes. *)
Definition frame_ok (n : nat) (data : list Z) : Prop :=
  (n <= List.length data)%nat /\ Forall uint8_range data.

(** ** Decoder state *)

(** Modelled from the spec: the metric objects are declared in
    vehicle_mgev.h and metrics_standard.h, which are not part of this file.
    The state holds the object member [m_bmsCache] (one byte), the two
    vehicle-specific metrics [m_bat_pack_voltage] and [m_soc_raw], the
    fields of [StandardMetrics] that the decoder touches, and the
    configuration parameter it reads.  A scalar metric holds a [float], the
    in-progress flag a [bool], the two charge labels a string, and each of
    the four cell metrics a vector of [float]; a metric that was never set
    reads as its default (0.0, false, the empty string, the empty vector). *)

Record State : Type := mkState {
  m_bmsCache : Z;  (* the one-byte cross-frame cache of the decoder *)
  m_bat_pack_voltage : F32.t;  (* vehicle-specific metric: pack voltage *)
  m_soc_raw : F32.t;  (* vehicle-specific metric: raw state of charge *)
  ms_v_bat_cell_vmin : list F32.t;
  ms_v_bat_cell_vmax : list F32.t;
  ms_v_bat_cell_tmin : list F32.t;
  ms_v_bat_cell_tmax : list F32.t;
  ms_v_bat_pack_vmin : F32.t;
  ms_v_bat_pack_vmax : F32.t;
  ms_v_bat_pack_tmin : F32.t;
  ms_v_bat_pack_tmax : F32.t;
  ms_v_bat_voltage : F32.t;
  ms_v_bat_current : F32.t;
  ms_v_bat_power : F32.t;
  ms_v_bat_soc : F32.t;
  ms_v_bat_range_ideal : F32.t;
  ms_v_bat_temp : F32.t;
  ms_v_bat_soh : F32.t;
  ms_v_bat_range_est : F32.t;
  ms_v_charge_inprogress : bool;
  ms_v_charge_state : string;
  ms_v_charge_type : string;
  ms_v_charge_current : F32.t;
  ms_v_charge_power : F32.t;
  ms_v_charge_climit : F32.t;
  ms_v_charge_voltage : F32.t;
  xmg_updatedbmu : option bool  (* parameter (xmg, updatedbmu); None: unset *)
}.

Definition set_m_bmsCache (v : Z) (st : State) : State :=
  mkState v (st.(m_bat_pack_voltage)) (st.(m_soc_raw))
    (st.(ms_v_bat_cell_vmin)) (st.(ms_v_bat_cell_vmax))
    (st.(ms_v_bat_cell_tmin)) (st.(ms_v_bat_cell_tmax))
    (st.(ms_v_bat_pack_vmin)) (st.(ms_v_bat_pack_vmax))
    (st.(ms_v_bat_pack_tmin)) (st.(ms_v_bat_pack_tmax))
    (st.(ms_v_bat_voltage)) (st.(ms_v_bat_current)) (st.(ms_v_bat_power))
    (st.(ms_v_bat_soc)) (st.(ms_v_bat_range_ideal)) (st.(ms_v_bat_temp))
    (st.(ms_v_bat_soh)) (st.(ms_v_bat_range_est))
    (st.(ms_v_charge_inprogress)) (st.(ms_v_charge_state))
    (st.(ms_v_charge_type)) (st.(ms_v_charge_current))
    (st.(ms_v_charge_power)) (st.(ms_v_charge_climit))
    (st.(ms_v_charge_voltage)) (st.(xmg_updatedbmu)).

Definition set_m_bat_pack_voltage (v : F32.t) (st : State) : State :=
  mkState (st.(m_bmsCache)) v (st.(m_soc_raw)) (st.(ms_v_bat_cell_vmin))
    (st.(ms_v_bat_cell_vmax)) (st.(ms_v_bat_cell_tmin))
    (st.(ms_v_bat_cell_tmax)) (st.(ms_v_bat_pack_vmin))
    (st.(ms_v_bat_pack_vmax)) (st.(ms_v_bat_pack_tmin))
    (st.(ms_v_bat_pack_tmax)) (st.(ms_v_bat_voltage))
    (st.(ms_v_bat_current)) (st.(ms_v_bat_power)) (st.(ms_v_bat_soc))
    (st.(ms_v_bat_range_ideal)) (st.(ms_v_bat_temp)) (st.(ms_v_bat_soh))
    (st.(ms_v_bat_range_est)) (st.(ms_v_charge_inprogress))
    (st.(ms_v_charge_state)) (st.(ms_v_charge_type))
    (st.(ms_v_charge_current)) (st.(ms_v_charge_power))
    (st.(ms_v_charge_climit)) (st.(ms_v_charge_voltage))
    (st.(xmg_updatedbmu)).

Definition set_m_soc_raw (v : F32.t) (st : State) : State :=
  mkState (st.(m_bmsCache)) (st.(m_bat_pack_voltage)) v
    (st.(ms_v_bat_cell_vmin)) (st.(ms_v_bat_cell_vmax))
    (st.(ms_v_bat_cell_tmin)) (st.(ms_v_bat_cell_tmax))
    (st.(ms_v_bat_pack_vmin)) (st.(ms_v_bat_pack_vmax))
    (st.(ms_v_bat_pack_tmin)) (st.(ms_v_bat_pack_tmax))
    (st.(ms_v_bat_voltage)) (st.(ms_v_bat_current)) (st.(ms_v_bat_power))
    (st.(ms_v_bat_soc)) (st.(ms_v_bat_range_ideal)) (st.(ms_v_bat_temp))
    (st.(ms_v_bat_soh)) (st.(ms_v_bat_range_est))
    (st.(ms_v_charge_inprogress)) (st.(ms_v_charge_state))
    (st.(ms_v_charge_type)) (st.(ms_v_charge_current))
    (st.(ms_v_charge_power)) (st.(ms_v_charge_climit))
    (st.(ms_v_charge_voltage)) (st.(xmg_updatedbmu)).

Definition set_ms_v_bat_cell_vmin (v : list F32.t) (st : State) : State :=
  mkState (st.(m_bmsCache)) (st.(m_bat_pack_voltage)) (st.(m_soc_raw)) v
    (st.(ms_v_bat_cell_vmax)) (st.(ms_v_bat_cell_tmin))
    (st.(ms_v_bat_cell_tmax)) (st.(ms_v_bat_pack_vmin))
    (st.(ms_v_bat_pack_vmax)) (st.(ms_v_bat_pack_tmin))
    (st.(ms_v_bat_pack_tmax)) (st.(ms_v_bat_voltage))
    (st.(ms_v_bat_current)) (st.(ms_v_bat_power)) (st.(ms_v_bat_soc))
    (st.(ms_v_bat_range_ideal)) (st.(ms_v_bat_temp)) (st.(ms_v_bat_soh))
    (st.(ms_v_bat_range_est)) (st.(ms_v_charge_inprogress))
    (st.(ms_v_charge_state)) (st.(ms_v_charge_type))
    (st.(ms_v_charge_current)) (st.(ms_v_charge_power))
    (st.(ms_v_charge_climit)) (st.(ms_v_charge_voltage))
    (st.(xmg_updatedbmu)).

Definition set_ms_v_bat_cell_vmax (v : list F32.t) (st : State) : State :=
  mkState (st.(m_bmsCache)) (st.(m_bat_pack_voltage)) (st.(m_soc_raw))
    (st.(ms_v_bat_cell_vmin)) v (st.(ms_v_bat_cell_tmin))
    (st.(ms_v_bat_cell_tmax)) (st.(ms_v_bat_pack_vmin))
    (st.(ms_v_bat_pack_vmax)) (st.(ms_v_bat_pack_tmin))
    (st.(ms_v_bat_pack_tmax)) (st.(ms_v_bat_voltage))
    (st.(ms_v_bat_current)) (st.(ms_v_bat_power)) (st.(ms_v_bat_soc))
    (st.(ms_v_bat_range_ideal)) (st.(ms_v_bat_temp)) (st.(ms_v_bat_soh))
    (st.(ms_v_bat_range_est)) (st.(ms_v_charge_inprogress))
    (st.(ms_v_charge_state)) (st.(ms_v_charge_type))
    (st.(ms_v_charge_current)) (st.(ms_v_charge_power))
    (st.(ms_v_charge_climit)) (st.(ms_v_charge_voltage))
    (st.(xmg_updatedbmu)).

Definition set_ms_v_bat_cell_tmin (v : list F32.t) (st : State) : State :=
  mkState (st.(m_bmsCache)) (st.(m_bat_pack_voltage)) (st.(m_soc_raw))
    (st.(ms_v_bat_cell_vmin)) (st.(ms_v_bat_cell_vmax)) v
    (st.(ms_v_bat_cell_tmax)) (st.(ms_v_bat_pack_vmin))
    (st.(ms_v_bat_pack_vmax)) (st.(ms_v_bat_pack_tmin))
    (st.(ms_v_bat_pack_tmax)) (st.(ms_v_bat_voltage))
    (st.(ms_v_bat_current)) (st.(ms_v_bat_power)) (st.(ms_v_bat_soc))
    (st.(ms_v_bat_range_ideal)) (st.(ms_v_bat_temp)) (st.(ms_v_bat_soh))
    (st.(ms_v_bat_range_est)) (st.(ms_v_charge_inprogress))
    (st.(ms_v_charge_state)) (st.(ms_v_charge_type))
    (st.(ms_v_charge_current)) (st.(ms_v_charge_power))
    (st.(ms_v_charge_climit)) (st.(ms_v_charge_voltage))
    (st.(xmg_updatedbmu)).

Definition set_ms_v_bat_cell_tmax (v : list F32.t) (st : State) : State :=
  mkState (st.(m_bmsCache)) (st.(m_bat_pack_voltage)) (st.(m_soc_raw))
    (st.(ms_v_bat_cell_vmin)) (st.(ms_v_bat_cell_vmax))
    (st.(ms_v_bat_cell_tmin)) v (st.(ms_v_bat_pack_vmin))
    (st.(ms_v_bat_pack_vmax)) (st.(ms_v_bat_pack_tmin))
    (st.(ms_v_bat_pack_tmax)) (st.(ms_v_bat_voltage))
    (st.(ms_v_bat_current)) (st.(ms_v_bat_power)) (st.(ms_v_bat_soc))
    (st.(ms_v_bat_range_ideal)) (st.(ms_v_bat_temp)) (st.(ms_v_bat_soh))
    (st.(ms_v_bat_range_est)) (st.(ms_v_charge_inprogress))
    (st.(ms_v_charge_state)) (st.(ms_v_charge_type))
    (st.(ms_v_charge_current)) (st.(ms_v_charge_power))
    (st.(ms_v_charge_climit)) (st.(ms_v_charge_voltage))
    (st.(xmg_updatedbmu)).

Definition set_ms_v_bat_pack_vmin (v : F32.t) (st : State) : State :=
  mkState (st.(m_bmsCache)) (st.(m_bat_pack_voltage)) (st.(m_soc_raw))
    (st.(ms_v_bat_cell_vmin)) (st.(ms_v_bat_cell_vmax))
    (st.(ms_v_bat_cell_tmin)) (st.(ms_v_bat_cell_tmax)) v
    (st.(ms_v_bat_pack_vmax)) (st.(ms_v_bat_pack_tmin))
    (st.(ms_v_bat_pack_tmax)) (st.(ms_v_bat_voltage))
    (st.(ms_v_bat_current)) (st.(ms_v_bat_power)) (st.(ms_v_bat_soc))
    (st.(ms_v_bat_range_ideal)) (st.(ms_v_bat_temp)) (st.(ms_v_bat_soh))
    (st.(ms_v_bat_range_est)) (st.(ms_v_charge_inprogress))
    (st.(ms_v_charge_state)) (st.(ms_v_charge_type))
    (st.(ms_v_charge_current)) (st.(ms_v_charge_power))
    (st.(ms_v_charge_climit)) (st.(ms_v_charge_voltage))
    (st.(xmg_updatedbmu)).

Definition set_ms_v_bat_pack_vmax (v : F32.t) (st : State) : State :=
  mkState (st.(m_bmsCache)) (st.(m_bat_pack_voltage)) (st.(m_soc_raw))
    (st.(ms_v_bat_cell_vmin)) (st.(ms_v_bat_cell_vmax))
    (st.(ms_v_bat_cell_tmin)) (st.(ms_v_bat_cell_tmax))
    (st.(ms_v_bat_pack_vmin)) v (st.(ms_v_bat_pack_tmin))
    (st.(ms_v_bat_pack_tmax)) (st.(ms_v_bat_voltage))
    (st.(ms_v_bat_current)) (st.(ms_v_bat_power)) (st.(ms_v_bat_soc))
    (st.(ms_v_bat_range_ideal)) (st.(ms_v_bat_temp)) (st.(ms_v_bat_soh))
    (st.(ms_v_bat_range_est)) (st.(ms_v_charge_inprogress))
    (st.(ms_v_charge_state)) (st.(ms_v_charge_type))
    (st.(ms_v_charge_current)) (st.(ms_v_charge_power))
    (st.(ms_v_charge_climit)) (st.(ms_v_charge_voltage))
    (st.(xmg_updatedbmu)).

Definition set_ms_v_bat_pack_tmin (v : F32.t) (st : State) : State :=
  mkState (st.(m_bmsCache)) (st.(m_bat_pack_voltage)) (st.(m_soc_raw))
    (st.(ms_v_bat_cell_vmin)) (st.(ms_v_bat_cell_vmax))
    (st.(ms_v_bat_cell_tmin)) (st.(ms_v_bat_cell_tmax))
    (st.(ms_v_bat_pack_vmin)) (st.(ms_v_bat_pack_vmax)) v
    (st.(ms_v_bat_pack_tmax)) (st.(ms_v_bat_voltage))
    (st.(ms_v_bat_current)) (st.(ms_v_bat_power)) (st.(ms_v_bat_soc))
    (st.(ms_v_bat_range_ideal)) (st.(ms_v_bat_temp)) (st.(ms_v_bat_soh))
    (st.(ms_v_bat_range_est)) (st.(ms_v_charge_inprogress))
    (st.(ms_v_charge_state)) (st.(ms_v_charge_type))
    (st.(ms_v_charge_current)) (st.(ms_v_charge_power))
    (st.(ms_v_charge_climit)) (st.(ms_v_charge_voltage))
    (st.(xmg_updatedbmu)).

Definition set_ms_v_bat_pack_tmax (v : F32.t) (st : State) : State :=
  mkState (st.(m_bmsCache)) (st.(m_bat_pack_voltage)) (st.(m_soc_raw))
    (st.(ms_v_bat_cell_vmin)) (st.(ms_v_bat_cell_vmax))
    (st.(ms_v_bat_cell_tmin)) (st.(ms_v_bat_cell_tmax))
    (st.(ms_v_bat_pack_vmin)) (st.(ms_v_bat_pack_vmax))
    (st.(ms_v_bat_pack_tmin)) v (st.(ms_v_bat_voltage))
    (st.(ms_v_bat_current)) (st.(ms_v_bat_power)) (st.(ms_v_bat_soc))
    (st.(ms_v_bat_range_ideal)) (st.(ms_v_bat_temp)) (st.(ms_v_bat_soh))
    (st.(ms_v_bat_range_est)) (st.(ms_v_charge_inprogress))
    (st.(ms_v_charge_state)) (st.(ms_v_charge_type))
    (st.(ms_v_charge_current)) (st.(ms_v_charge_power))
    (st.(ms_v_charge_climit)) (st.(ms_v_charge_voltage))
    (st.(xmg_updatedbmu)).

Definition set_ms_v_bat_voltage (v : F32.t) (st : State) : State :=
  mkState (st.(m_bmsCache)) (st.(m_bat_pack_voltage)) (st.(m_soc_raw))
    (st.(ms_v_bat_cell_vmin)) (st.(ms_v_bat_cell_vmax))
    (st.(ms_v_bat_cell_tmin)) (st.(ms_v_bat_cell_tmax))
    (st.(ms_v_bat_pack_vmin)) (st.(ms_v_bat_pack_vmax))
    (st.(ms_v_bat_pack_tmin)) (st.(ms_v_bat_pack_tmax)) v
    (st.(ms_v_bat_current)) (st.(ms_v_bat_power)) (st.(ms_v_bat_soc))
    (st.(ms_v_bat_range_ideal)) (st.(ms_v_bat_temp)) (st.(ms_v_bat_soh))
    (st.(ms_v_bat_range_est)) (st.(ms_v_charge_inprogress))
    (st.(ms_v_charge_state)) (st.(ms_v_charge_type))
    (st.(ms_v_charge_current)) (st.(ms_v_charge_power))
    (st.(ms_v_charge_climit)) (st.(ms_v_charge_voltage))
    (st.(xmg_updatedbmu)).

Definition set_ms_v_bat_current (v : F32.t) (st : State) : State :=
  mkState (st.(m_bmsCache)) (st.(m_bat_pack_voltage)) (st.(m_soc_raw))
    (st.(ms_v_bat_cell_vmin)) (st.(ms_v_bat_cell_vmax))
    (st.(ms_v_bat_cell_tmin)) (st.(ms_v_bat_cell_tmax))
    (st.(ms_v_bat_pack_vmin)) (st.(ms_v_bat_pack_vmax))
    (st.(ms_v_bat_pack_tmin)) (st.(ms_v_bat_pack_tmax))
    (st.(ms_v_bat_voltage)) v (st.(ms_v_bat_power)) (st.(ms_v_bat_soc))
    (st.(ms_v_bat_range_ideal)) (st.(ms_v_bat_temp)) (st.(ms_v_bat_soh))
    (st.(ms_v_bat_range_est)) (st.(ms_v_charge_inprogress))
    (st.(ms_v_charge_state)) (st.(ms_v_charge_type))
    (st.(ms_v_charge_current)) (st.(ms_v_charge_power))
    (st.(ms_v_charge_climit)) (st.(ms_v_charge_voltage))
    (st.(xmg_updatedbmu)).

Definition set_ms_v_bat_power (v : F32.t) (st : State) : State :=
  mkState (st.(m_bmsCache)) (st.(m_bat_pack_voltage)) (st.(m_soc_raw))
    (st.(ms_v_bat_cell_vmin)) (st.(ms_v_bat_cell_vmax))
    (st.(ms_v_bat_cell_tmin)) (st.(ms_v_bat_cell_tmax))
    (st.(ms_v_bat_pack_vmin)) (st.(ms_v_bat_pack_vmax))
    (st.(ms_v_bat_pack_tmin)) (st.(ms_v_bat_pack_tmax))
    (st.(ms_v_bat_voltage)) (st.(ms_v_bat_current)) v (st.(ms_v_bat_soc))
    (st.(ms_v_bat_range_ideal)) (st.(ms_v_bat_temp)) (st.(ms_v_bat_soh))
    (st.(ms_v_bat_range_est)) (st.(ms_v_charge_inprogress))
    (st.(ms_v_charge_state)) (st.(ms_v_charge_type))
    (st.(ms_v_charge_current)) (st.(ms_v_charge_power))
    (st.(ms_v_charge_climit)) (st.(ms_v_charge_voltage))
    (st.(xmg_updatedbmu)).

Definition set_ms_v_bat_soc (v : F32.t) (st : State) : State :=
  mkState (st.(m_bmsCache)) (st.(m_bat_pack_voltage)) (st.(m_soc_raw))
    (st.(ms_v_bat_cell_vmin)) (st.(ms_v_bat_cell_vmax))
    (st.(ms_v_bat_cell_tmin)) (st.(ms_v_bat_cell_tmax))
    (st.(ms_v_bat_pack_vmin)) (st.(ms_v_bat_pack_vmax))
    (st.(ms_v_bat_pack_tmin)) (st.(ms_v_bat_pack_tmax))
    (st.(ms_v_bat_voltage)) (st.(ms_v_bat_current)) (st.(ms_v_bat_power)) v
    (st.(ms_v_bat_range_ideal)) (st.(ms_v_bat_temp)) (st.(ms_v_bat_soh))
    (st.(ms_v_bat_range_est)) (st.(ms_v_charge_inprogress))
    (st.(ms_v_charge_state)) (st.(ms_v_charge_type))
    (st.(ms_v_charge_current)) (st.(ms_v_charge_power))
    (st.(ms_v_charge_climit)) (st.(ms_v_charge_voltage))
    (st.(xmg_updatedbmu)).

Definition set_ms_v_bat_range_ideal (v : F32.t) (st : State) : State :=
  mkState (st.(m_bmsCache)) (st.(m_bat_pack_voltage)) (st.(m_soc_raw))
    (st.(ms_v_bat_cell_vmin)) (st.(ms_v_bat_cell_vmax))
    (st.(ms_v_bat_cell_tmin)) (st.(ms_v_bat_cell_tmax))
    (st.(ms_v_bat_pack_vmin)) (st.(ms_v_bat_pack_vmax))
    (st.(ms_v_bat_pack_tmin)) (st.(ms_v_bat_pack_tmax))
    (st.(ms_v_bat_voltage)) (st.(ms_v_bat_current)) (st.(ms_v_bat_power))
    (st.(ms_v_bat_soc)) v (st.(ms_v_bat_temp)) (st.(ms_v_bat_soh))
    (st.(ms_v_bat_range_est)) (st.(ms_v_charge_inprogress))
    (st.(ms_v_charge_state)) (st.(ms_v_charge_type))
    (st.(ms_v_charge_current)) (st.(ms_v_charge_power))
    (st.(ms_v_charge_climit)) (st.(ms_v_charge_voltage))
    (st.(xmg_updatedbmu)).

Definition set_ms_v_bat_temp (v : F32.t) (st : State) : State :=
  mkState (st.(m_bmsCache)) (st.(m_bat_pack_voltage)) (st.(m_soc_raw))
    (st.(ms_v_bat_cell_vmin)) (st.(ms_v_bat_cell_vmax))
    (st.(ms_v_bat_cell_tmin)) (st.(ms_v_bat_cell_tmax))
    (st.(ms_v_bat_pack_vmin)) (st.(ms_v_bat_pack_vmax))
    (st.(ms_v_bat_pack_tmin)) (st.(ms_v_bat_pack_tmax))
    (st.(ms_v_bat_voltage)) (st.(ms_v_bat_current)) (st.(ms_v_bat_power))
    (st.(ms_v_bat_soc)) (st.(ms_v_bat_range_ideal)) v (st.(ms_v_bat_soh))
    (st.(ms_v_bat_range_est)) (st.(ms_v_charge_inprogress))
    (st.(ms_v_charge_state)) (st.(ms_v_charge_type))
    (st.(ms_v_charge_current)) (st.(ms_v_charge_power))
    (st.(ms_v_charge_climit)) (st.(ms_v_charge_voltage))
    (st.(xmg_updatedbmu)).

Definition set_ms_v_bat_soh (v : F32.t) (st : State) : State :=
  mkState (st.(m_bmsCache)) (st.(m_bat_pack_voltage)) (st.(m_soc_raw))
    (st.(ms_v_bat_cell_vmin)) (st.(ms_v_bat_cell_vmax))
    (st.(ms_v_bat_cell_tmin)) (st.(ms_v_bat_cell_tmax))
    (st.(ms_v_bat_pack_vmin)) (st.(ms_v_bat_pack_vmax))
    (st.(ms_v_bat_pack_tmin)) (st.(ms_v_bat_pack_tmax))
    (st.(ms_v_bat_voltage)) (st.(ms_v_bat_current)) (st.(ms_v_bat_power))
    (st.(ms_v_bat_soc)) (st.(ms_v_bat_range_ideal)) (st.(ms_v_bat_temp)) v
    (st.(ms_v_bat_range_est)) (st.(ms_v_charge_inprogress))
    (st.(ms_v_charge_state)) (st.(ms_v_charge_type))
    (st.(ms_v_charge_current)) (st.(ms_v_charge_power))
    (st.(ms_v_charge_climit)) (st.(ms_v_charge_voltage))
    (st.(xmg_updatedbmu)).

Definition set_ms_v_bat_range_est (v : F32.t) (st : State) : State :=
  mkState (st.(m_bmsCache)) (st.(m_bat_pack_voltage)) (st.(m_soc_raw))
    (st.(ms_v_bat_cell_vmin)) (st.(ms_v_bat_cell_vmax))
    (st.(ms_v_bat_cell_tmin)) (st.(ms_v_bat_cell_tmax))
    (st.(ms_v_bat_pack_vmin)) (st.(ms_v_bat_pack_vmax))
    (st.(ms_v_bat_pack_tmin)) (st.(ms_v_bat_pack_tmax))
    (st.(ms_v_bat_voltage)) (st.(ms_v_bat_current)) (st.(ms_v_bat_power))
    (st.(ms_v_bat_soc)) (st.(ms_v_bat_range_ideal)) (st.(ms_v_bat_temp))
    (st.(ms_v_bat_soh)) v (st.(ms_v_charge_inprogress))
    (st.(ms_v_charge_state)) (st.(ms_v_charge_type))
    (st.(ms_v_charge_current)) (st.(ms_v_charge_power))
    (st.(ms_v_charge_climit)) (st.(ms_v_charge_voltage))
    (st.(xmg_updatedbmu)).

Definition set_ms_v_charge_inprogress (v : bool) (st : State) : State :=
  mkState (st.(m_bmsCache)) (st.(m_bat_pack_voltage)) (st.(m_soc_raw))
    (st.(ms_v_bat_cell_vmin)) (st.(ms_v_bat_cell_vmax))
    (st.(ms_v_bat_cell_tmin)) (st.(ms_v_bat_cell_tmax))
    (st.(ms_v_bat_pack_vmin)) (st.(ms_v_bat_pack_vmax))
    (st.(ms_v_bat_pack_tmin)) (st.(ms_v_bat_pack_tmax))
    (st.(ms_v_bat_voltage)) (st.(ms_v_bat_current)) (st.(ms_v_bat_power))
    (st.(ms_v_bat_soc)) (st.(ms_v_bat_range_ideal)) (st.(ms_v_bat_temp))
    (st.(ms_v_bat_soh)) (st.(ms_v_bat_range_est)) v (st.(ms_v_charge_state))
    (st.(ms_v_charge_type)) (st.(ms_v_charge_current))
    (st.(ms_v_charge_power)) (st.(ms_v_charge_climit))
    (st.(ms_v_charge_voltage)) (st.(xmg_updatedbmu)).

Definition set_ms_v_charge_state (v : string) (st : State) : State :=
  mkState (st.(m_bmsCache)) (st.(m_bat_pack_voltage)) (st.(m_soc_raw))
    (st.(ms_v_bat_cell_vmin)) (st.(ms_v_bat_cell_vmax))
    (st.(ms_v_bat_cell_tmin)) (st.(ms_v_bat_cell_tmax))
    (st.(ms_v_bat_pack_vmin)) (st.(ms_v_bat_pack_vmax))
    (st.(ms_v_bat_pack_tmin)) (st.(ms_v_bat_pack_tmax))
    (st.(ms_v_bat_voltage)) (st.(ms_v_bat_current)) (st.(ms_v_bat_power))
    (st.(ms_v_bat_soc)) (st.(ms_v_bat_range_ideal)) (st.(ms_v_bat_temp))
    (st.(ms_v_bat_soh)) (st.(ms_v_bat_range_est))
    (st.(ms_v_charge_inprogress)) v (st.(ms_v_charge_type))
    (st.(ms_v_charge_current)) (st.(ms_v_charge_power))
    (st.(ms_v_charge_climit)) (st.(ms_v_charge_voltage))
    (st.(xmg_updatedbmu)).

Definition set_ms_v_charge_type (v : string) (st : State) : State :=
  mkState (st.(m_bmsCache)) (st.(m_bat_pack_voltage)) (st.(m_soc_raw))
    (st.(ms_v_bat_cell_vmin)) (st.(ms_v_bat_cell_vmax))
    (st.(ms_v_bat_cell_tmin)) (st.(ms_v_bat_cell_tmax))
    (st.(ms_v_bat_pack_vmin)) (st.(ms_v_bat_pack_vmax))
    (st.(ms_v_bat_pack_tmin)) (st.(ms_v_bat_pack_tmax))
    (st.(ms_v_bat_voltage)) (st.(ms_v_bat_current)) (st.(ms_v_bat_power))
    (st.(ms_v_bat_soc)) (st.(ms_v_bat_range_ideal)) (st.(ms_v_bat_temp))
    (st.(ms_v_bat_soh)) (st.(ms_v_bat_range_est))
    (st.(ms_v_charge_inprogress)) (st.(ms_v_charge_state)) v
    (st.(ms_v_charge_current)) (st.(ms_v_charge_power))
    (st.(ms_v_charge_climit)) (st.(ms_v_charge_voltage))
    (st.(xmg_updatedbmu)).

Definition set_ms_v_charge_current (v : F32.t) (st : State) : State :=
  mkState (st.(m_bmsCache)) (st.(m_bat_pack_voltage)) (st.(m_soc_raw))
    (st.(ms_v_bat_cell_vmin)) (st.(ms_v_bat_cell_vmax))
    (st.(ms_v_bat_cell_tmin)) (st.(ms_v_bat_cell_tmax))
    (st.(ms_v_bat_pack_vmin)) (st.(ms_v_bat_pack_vmax))
    (st.(ms_v_bat_pack_tmin)) (st.(ms_v_bat_pack_tmax))
    (st.(ms_v_bat_voltage)) (st.(ms_v_bat_current)) (st.(ms_v_bat_power))
    (st.(ms_v_bat_soc)) (st.(ms_v_bat_range_ideal)) (st.(ms_v_bat_temp))
    (st.(ms_v_bat_soh)) (st.(ms_v_bat_range_est))
    (st.(ms_v_charge_inprogress)) (st.(ms_v_charge_state))
    (st.(ms_v_charge_type)) v (st.(ms_v_charge_power))
    (st.(ms_v_charge_climit)) (st.(ms_v_charge_voltage))
    (st.(xmg_updatedbmu)).

Definition set_ms_v_charge_power (v : F32.t) (st : State) : State :=
  mkState (st.(m_bmsCache)) (st.(m_bat_pack_voltage)) (st.(m_soc_raw))
    (st.(ms_v_bat_cell_vmin)) (st.(ms_v_bat_cell_vmax))
    (st.(ms_v_bat_cell_tmin)) (st.(ms_v_bat_cell_tmax))
    (st.(ms_v_bat_pack_vmin)) (st.(ms_v_bat_pack_vmax))
    (st.(ms_v_bat_pack_tmin)) (st.(ms_v_bat_pack_tmax))
    (st.(ms_v_bat_voltage)) (st.(ms_v_bat_current)) (st.(ms_v_bat_power))
    (st.(ms_v_bat_soc)) (st.(ms_v_bat_range_ideal)) (st.(ms_v_bat_temp))
    (st.(ms_v_bat_soh)) (st.(ms_v_bat_range_est))
    (st.(ms_v_charge_inprogress)) (st.(ms_v_charge_state))
    (st.(ms_v_charge_type)) (st.(ms_v_charge_current)) v
    (st.(ms_v_charge_climit)) (st.(ms_v_charge_voltage))
    (st.(xmg_updatedbmu)).

Definition set_ms_v_charge_climit (v : F32.t) (st : State) : State :=
  mkState (st.(m_bmsCache)) (st.(m_bat_pack_voltage)) (st.(m_soc_raw))
    (st.(ms_v_bat_cell_vmin)) (st.(ms_v_bat_cell_vmax))
    (st.(ms_v_bat_cell_tmin)) (st.(ms_v_bat_cell_tmax))
    (st.(ms_v_bat_pack_vmin)) (st.(ms_v_bat_pack_vmax))
    (st.(ms_v_bat_pack_tmin)) (st.(ms_v_bat_pack_tmax))
    (st.(ms_v_bat_voltage)) (st.(ms_v_bat_current)) (st.(ms_v_bat_power))
    (st.(ms_v_bat_soc)) (st.(ms_v_bat_range_ideal)) (st.(ms_v_bat_temp))
    (st.(ms_v_bat_soh)) (st.(ms_v_bat_range_est))
    (st.(ms_v_charge_inprogress)) (st.(ms_v_charge_state))
    (st.(ms_v_charge_type)) (st.(ms_v_charge_current))
    (st.(ms_v_charge_power)) v (st.(ms_v_charge_voltage))
    (st.(xmg_updatedbmu)).

Definition set_ms_v_charge_voltage (v : F32.t) (st : State) : State :=
  mkState (st.(m_bmsCache)) (st.(m_bat_pack_voltage)) (st.(m_soc_raw))
    (st.(ms_v_bat_cell_vmin)) (st.(ms_v_bat_cell_vmax))
    (st.(ms_v_bat_cell_tmin)) (st.(ms_v_bat_cell_tmax))
    (st.(ms_v_bat_pack_vmin)) (st.(ms_v_bat_pack_vmax))
    (st.(ms_v_bat_pack_tmin)) (st.(ms_v_bat_pack_tmax))
    (st.(ms_v_bat_voltage)) (st.(ms_v_bat_current)) (st.(ms_v_bat_power))
    (st.(ms_v_bat_soc)) (st.(ms_v_bat_range_ideal)) (st.(ms_v_bat_temp))
    (st.(ms_v_bat_soh)) (st.(ms_v_bat_range_est))
    (st.(ms_v_charge_inprogress)) (st.(ms_v_charge_state))
    (st.(ms_v_charge_type)) (st.(ms_v_charge_current))
    (st.(ms_v_charge_power)) (st.(ms_v_charge_climit)) v
    (st.(xmg_updatedbmu)).

(** ** The metrics and configuration stores *)

(** Modelled from the spec: the metrics store (ovms_metrics) is an external
    collaborator of this file.  A scalar metric is read with [AsFloat] /
    [AsBool] and written with [SetValue]; these are the record projections
    and the [set_] functions above.  A vector metric is written per index
    with [SetElemValue] and read as a whole with [AsVector].  Writing at an
    index beyond the current size grows the vector, the new elements being
    value-initialised to [0.0f]. *)
Fixpoint SetElemValue (n : nat) (v : F32.t) (l : list F32.t) : list F32.t :=
  match n, l with
  | O, [] => [v]
  | O, _ :: r => v :: r
  | S k, [] => F32.zero :: SetElemValue k v []
  | S k, x :: r => x :: SetElemValue k v r
  end.

Definition AsVector (l : list F32.t) : list F32.t := l.

(** Modelled from the spec: the configuration store is an external
    collaborator; [GetParamValueBool] returns the stored boolean, or the
    given default when the parameter is unset. *)
Definition GetParamValueBool (p : option bool) (def : bool) : bool :=
  match p with
  | Some b => b
  | None => def
  end.

(** [std::min_element]: the first element no later element is smaller than
    ([*first < *smallest] moves the iterator); [None] is the end iterator of
    an empty range. *)
Definition min_element (l : list F32.t) : option F32.t :=
  match l with
  | [] => None
  | x :: r => Some (fold_left (fun s y => if F32.ltb y s then y else s) r x)
  end.

(** [std::max_element]: [*largest < *first] moves the iterator. *)
Definition max_element (l : list F32.t) : option F32.t :=
  match l with
  | [] => None
  | x :: r => Some (fold_left (fun s y => if F32.ltb s y then y else s) r x)
  end.

(** Dereferencing the iterator.  The ranges the decoder searches are never
    empty (see [min_element_SetElemValue]); NaN stands for the undefined
    read through an end iterator. *)
Definition deref (it : option F32.t) : F32.t :=
  match it with
  | Some v => v
  | None => S754_nan
  end.

(** ** Constants of the source *)

(** Responses to the BMS status PID ([enum BmsStatus]). *)
Definition ConnectedNotCharging1 : Z := 0x0.
Definition Idle : Z := 0x1.
Definition Running : Z := 0x3.
Definition Charging : Z := 0x6.
Definition CcsCharging : Z := 0x7.
Definition AboutToSleep : Z := 0x8.
Definition Connected : Z := 0xa.
Definition StartingCharge : Z := 0xc.

(** The PID constants come from mg_obd_pids.h, which is not part of this
    file; they are taken as a parameter.  As [case] labels of one [switch]
    they are pairwise distinct. *)
Record PidTable : Type := mkPidTable {
  cell1StatPid : Z;
  cell2StatPid : Z;
  cell3StatPid : Z;
  cell4StatPid : Z;
  cell5StatPid : Z;
  cell6StatPid : Z;
  cell7StatPid : Z;
  cell8StatPid : Z;
  cell9StatPid : Z;
  batteryBusVoltagePid : Z;
  batteryCurrentPid : Z;
  batteryVoltagePid : Z;
  batterySoCPid : Z;
  bmsStatusPid : Z;
  batteryCoolantTempPid : Z;
  batterySoHPid : Z;
  bmsRangePid : Z
}.

Definition cellStatPids (t : PidTable) : list Z :=
  [cell1StatPid t; cell2StatPid t; cell3StatPid t; cell4StatPid t;
   cell5StatPid t; cell6StatPid t; cell7StatPid t; cell8StatPid t;
   cell9StatPid t].

Definition scalarPids (t : PidTable) : list Z :=
  [batteryBusVoltagePid t; batteryCurrentPid t; batteryVoltagePid t;
   batterySoCPid t; bmsStatusPid t; batteryCoolantTempPid t;
   batterySoHPid t; bmsRangePid t].

(** All labels of the [switch], in source order. *)
Definition allPids (t : PidTable) : list Z := cellStatPids t ++ scalarPids t.

Definition pids_distinct (t : PidTable) : Prop := NoDup (allPids t).

(** Floating-point literals of the source. *)
Definition f_2000 : F32.t := F32.of_Z 2000.   (* 2000.0f *)
Definition f_1 : F32.t := F32.of_Z 1.         (* 1.0f *)
Definition f_half : F32.t := F32.lit 1 (-1).  (* 0.5f *)
Definition f_40 : F32.t := F32.of_Z 40.       (* 40.0f *)
Definition f_10 : F32.t := F32.of_Z 10.       (* 10.0f *)
Definition f_100 : F32.t := F32.of_Z 100.     (* 100.0f *)
Definition d_quarter : F64.t := F64.lit 1 (-2).  (* 0.25 *)
Definition d_half : F64.t := F64.lit 1 (-1).     (* 0.5 *)
Definition d_10 : F64.t := F64.of_Z 10.          (* 10.0 *)
Definition d_40 : F64.t := F64.of_Z 40.          (* 40.0 *)
Definition d_100 : F64.t := F64.of_Z 100.        (* 100.0 *)
Definition d_97 : F64.t := F64.of_Z 97.          (* 97.0 *)
Definition d_99_5 : F64.t := F64.lit 199 (-1).   (* 99.5 *)

(** ** The decoder *)

(** [(raw / 2000.0f) + 1.0f] *)
Definition cell_volts (raw : Z) : F32.t :=
  F32.add (F32.div (F32.of_Z raw) f_2000) f_1.

(** [raw * 0.5f - 40.0f] *)
Definition cell_temp (raw : Z) : F32.t :=
  F32.sub (F32.mul (F32.of_Z raw) f_half) f_40.

(** [OvmsVehicleMgEv::ProcessBatteryStats(int index, uint8_t* data,
    uint16_t remain)] *)
Definition ProcessBatteryStats
    (index : nat) (data : list Z) (remain : Z) (st : State) : State :=
  if negb (remain =? 0) then
    let vmin := be16 (byte_at data 0) (byte_at data 1) in
    let st := set_m_bmsCache (byte_at data 2) st in
    let st :=
      set_ms_v_bat_cell_vmin
        (SetElemValue index (cell_volts vmin) (ms_v_bat_cell_vmin st)) st in
    let pvmin := AsVector (ms_v_bat_cell_vmin st) in
    set_ms_v_bat_pack_vmin (deref (min_element pvmin)) st
  else
    let vmax := be16 (m_bmsCache st) (byte_at data 0) in
    let tmin := byte_at data 1 in
    let tmax := byte_at data 2 in
    let st :=
      set_ms_v_bat_cell_vmax
        (SetElemValue index (cell_volts vmax) (ms_v_bat_cell_vmax st)) st in
    let st :=
      set_ms_v_bat_cell_tmin
        (SetElemValue index (cell_temp tmin) (ms_v_bat_cell_tmin st)) st in
    let st :=
      set_ms_v_bat_cell_tmax
        (SetElemValue index (cell_temp tmax) (ms_v_bat_cell_tmax st)) st in
    let pvmax := AsVector (ms_v_bat_cell_vmax st) in
    let st := set_ms_v_bat_pack_vmax (deref (max_element pvmax)) st in
    let ptmin := AsVector (ms_v_bat_cell_tmin st) in
    let st := set_ms_v_bat_pack_tmin (deref (min_element ptmin)) st in
    let ptmax := AsVector (ms_v_bat_cell_tmax st) in
    set_ms_v_bat_pack_tmax (deref (max_element ptmax)) st.

(** [OvmsVehicleMgEv::calculateSoc(uint16_t value)]: the operands of the
    subtractions are [int]; the product with [100.0f] and the quotient are
    [float]. *)
Definition calculateSoc (value : Z) (st : State) : F32.t :=
  let '(lowerlimit, upperlimit) :=
    if GetParamValueBool (xmg_updatedbmu st) true
    then (25, 940)   (* new BMU firmware DoD range *)
    else (60, 970)   (* original BMU firmware DoD range *) in
  F32.div (F32.mul (F32.of_Z (value - lowerlimit)) f_100)
          (F32.of_Z (upperlimit - lowerlimit)).

(** [OvmsVehicleMgEv::SetBmsStatus(uint8_t status)] *)
Definition SetBmsStatus (status : Z) (st : State) : State :=
  if (status =? StartingCharge) || (status =? Charging) then
    let st := set_ms_v_charge_inprogress true st in
    set_ms_v_charge_type "type2" st
  else if status =? CcsCharging then
    let st := set_ms_v_charge_inprogress true st in
    let st := set_ms_v_charge_type "ccs" st in
    let st := set_ms_v_charge_current (F32.opp (ms_v_bat_current st)) st in
    let st := set_ms_v_charge_power (ms_v_bat_power st) st in
    let st := set_ms_v_charge_climit (F32.of_Z 82) st in
    set_ms_v_charge_voltage (ms_v_bat_voltage st) st
  else if ms_v_charge_inprogress st then
    let st := set_ms_v_charge_type "not charging" st in
    if F64.leb d_97 (double_of_float (ms_v_bat_soc st)) then
      let st := set_ms_v_charge_state "done" st in
      set_ms_v_charge_inprogress false st
    else
      let st := set_ms_v_charge_state "stopped" st in
      set_ms_v_charge_inprogress false st
  else st.

(** [OvmsVehicleMgEv::IncomingBmsPoll(uint16_t pid, uint8_t* data,
    uint8_t length, uint16_t remain)].  The [switch] is the cascade of
    comparisons with its labels in source order. *)
Definition IncomingBmsPoll (t : PidTable)
    (pid : Z) (data : list Z) (length : Z) (remain : Z) (st : State) : State :=
  let value := be16 (byte_at data 0) (byte_at data 1) in
  if pid =? cell1StatPid t then ProcessBatteryStats 0 data remain st
  else if pid =? cell2StatPid t then ProcessBatteryStats 1 data remain st
  else if pid =? cell3StatPid t then ProcessBatteryStats 2 data remain st
  else if pid =? cell4StatPid t then ProcessBatteryStats 3 data remain st
  else if pid =? cell5StatPid t then ProcessBatteryStats 4 data remain st
  else if pid =? cell6StatPid t then ProcessBatteryStats 5 data remain st
  else if pid =? cell7StatPid t then ProcessBatteryStats 6 data remain st
  else if pid =? cell8StatPid t then ProcessBatteryStats 7 data remain st
  else if pid =? cell9StatPid t then ProcessBatteryStats 8 data remain st
  else if pid =? batteryBusVoltagePid t then
    (* check that the bus is not turned off *)
    if negb (value =? 0xfffe) then
      set_ms_v_bat_voltage
        (float_of_double (F64.mul (F64.of_Z value) d_quarter)) st
    else
      set_ms_v_bat_voltage (m_bat_pack_voltage st) st
  else if pid =? batteryCurrentPid t then
    let current :=
      F64.div (F64.mul (F64.of_Z (value - 40000)) d_quarter) d_10 in
    let st := set_ms_v_bat_current (float_of_double current) st in
    let power := F64.mul (double_of_float (ms_v_bat_voltage st)) current in
    let power := F64.div (F64.opp power) (F64.of_Z 1000) in
    set_ms_v_bat_power (float_of_double power) st
  else if pid =? batteryVoltagePid t then
    set_m_bat_pack_voltage
      (float_of_double (F64.mul (F64.of_Z value) d_quarter)) st
  else if pid =? batterySoCPid t then
    (* raw value to display on the charging metrics page *)
    let st := set_m_soc_raw (F32.div (F32.of_Z value) f_10) st in
    let scaledSoc := calculateSoc value st in
    let st :=
      if ms_v_charge_inprogress st then
        if F64.ltb (double_of_float scaledSoc) d_99_5
        then set_ms_v_charge_state "charging" st
        else set_ms_v_charge_state "topoff" st
      else st in
    let st := set_ms_v_bat_soc scaledSoc st in
    (* ideal range: SoC percentage of 262 km (WLTP range) *)
    set_ms_v_bat_range_ideal
      (F32.mul (F32.of_Z 262) (F32.div scaledSoc f_100)) st
  else if pid =? bmsStatusPid t then
    SetBmsStatus (byte_at data 0) st
  else if pid =? batteryCoolantTempPid t then
    (* temperature is half degrees from -40C *)
    set_ms_v_bat_temp
      (float_of_double
         (F64.sub (F64.mul (F64.of_Z (byte_at data 0)) d_half) d_40)) st
  else if pid =? batterySoHPid t then
    set_ms_v_bat_soh (float_of_double (F64.div (F64.of_Z value) d_100)) st
  else if pid =? bmsRangePid t then
    set_ms_v_bat_range_est
      (float_of_double (F64.div (F64.of_Z value) d_10)) st
  else st.

(** ** Notions used in the statements *)

Definition no_nan (l : list F32.t) : Prop :=
  Forall (fun x => is_nan x = false) l.

(** [m] is an element of [l] that no element of [l] is below. *)
Definition is_minimum (m : F32.t) (l : list F32.t) : Prop :=
  In m l /\ Forall (fun x => F32.leb m x = true) l.

(** [m] is an element of [l] that no element of [l] is above. *)
Definition is_maximum (m : F32.t) (l : list F32.t) : Prop :=
  In m l /\ Forall (fun x => F32.leb x m = true) l.

(** The window [calculateSoc] selects. *)
Definition soc_window (st : State) : Z * Z :=
  if GetParamValueBool (xmg_updatedbmu st) true then (25, 940) else (60, 970).

(** The float expression of [calculateSoc] for a given window. *)
Definition soc_formula (lowerlimit upperlimit value : Z) : F32.t :=
  F32.div (F32.mul (F32.of_Z (value - lowerlimit)) f_100)
          (F32.of_Z (upperlimit - lowerlimit)).

(** Where the reading lies relative to the window decides where the result
    lies relative to [0, 100]. *)
Definition soc_in_place (lowerlimit upperlimit value : Z) (x : F32.t) : bool :=
  if value <? lowerlimit then F32.ltb x F32.zero
  else if upperlimit <? value then
    F32.ltb (S754_finite false 13107200 (-17)) x
  else F32.leb F32.zero x && F32.leb x (S754_finite false 13107200 (-17)).

(** [((static_cast<int32_t>(value) - 40000) * 0.25) / 10.0]: the
    subtraction is on [int32_t] and cannot wrap for a [uint16_t] value. *)
Definition current_formula (value : Z) : F64.t :=
  F64.div (F64.mul (F64.of_Z (value - 40000)) d_quarter) d_10.

(** ** Notions used in the proofs *)

(** [forall_from z n p]: [p] holds on [z], [z+1], ..., [z+n-1]. *)
Fixpoint forall_from (z : Z) (n : nat) (p : Z -> bool) : bool :=
  match n with
  | O => true
  | S k => p z && forall_from (z + 1) k p
  end.

(** A finite float of sign [s] whose mantissa has exactly [prec] digits and
    whose magnitude exponent [prec + e] lies in [lo, hi]. *)
Definition normal_in (prec : Z) (s : bool) (lo hi : Z) (x : spec_float)
  : Prop :=
  exists m e, x = S754_finite s m e /\
              Zpos (digits2_pos m) = prec /\ lo <= prec + e <= hi.

(** The two voltage metrics hold well-formed finite numbers. *)
Definition voltages_finite (st : State) : Prop :=
  (valid_float (ms_v_bat_voltage st) = true /\
   is_finite (ms_v_bat_voltage st) = true) /\
  (valid_float (m_bat_pack_voltage st) = true /\
   is_finite (m_bat_pack_voltage st) = true).

(** ** Sample inputs *)

(** The state of a freshly constructed decoder: no metric is defined yet,
    so every read gives its default. *)
Definition init_state : State :=
  mkState 0 F32.zero F32.zero [] [] [] []
    F32.zero F32.zero F32.zero F32.zero F32.zero F32.zero F32.zero
    F32.zero F32.zero F32.zero F32.zero F32.zero
    false "" "" F32.zero F32.zero F32.zero F32.zero None.

(** The same with the original-firmware window selected. *)
Definition old_bmu_state : State :=
  mkState 0 F32.zero F32.zero [] [] [] []
    F32.zero F32.zero F32.zero F32.zero F32.zero F32.zero F32.zero
    F32.zero F32.zero F32.zero F32.zero F32.zero
    false "" "" F32.zero F32.zero F32.zero F32.zero (Some false).

(** The states the decoder reaches from its construction, whatever frames
    it is given. *)
Inductive reachable (t : PidTable) : State -> Prop :=
| reachable_init : reachable t init_state
| reachable_step (st : State) (pid : Z) (data : list Z) (len remain : Z) :
    reachable t st ->
    reachable t (IncomingBmsPoll t pid data len remain st).

(** An assignment of pairwise distinct PIDs. *)
Definition sample_pids : PidTable :=
  mkPidTable 0xb001 0xb002 0xb003 0xb004 0xb005 0xb006 0xb007 0xb008 0xb009
             0xb041 0xb043 0xb042 0xb046 0xb048 0xb05c 0xb061 0xb0ce.

(** A state in which a charge is in progress at the given SOC. *)
Definition charging_at (soc : F32.t) : State :=
  set_ms_v_bat_soc soc
    (set_ms_v_charge_inprogress true
       (set_ms_v_charge_type "type2"
          (set_ms_v_charge_state "charging" init_state))).

(** A decoder in which blocks 0 and 5 have received their min-frames. *)
Definition two_blocks_state : State :=
  ProcessBatteryStats 5 [16; 200; 16; 0] 4
    (ProcessBatteryStats 0 [16; 104; 16; 0] 4 init_state).

(** A decoder that has seen a pack voltage of 400.0 V (raw 1600). *)
Definition pack_400V_state : State :=
  IncomingBmsPoll sample_pids (batteryVoltagePid sample_pids)
    [6; 64] 2 0 init_state.

(** A decoder that has seen a bus voltage of 399.0 V (raw 1596). *)
Definition bus_399V_state : State :=
  IncomingBmsPoll sample_pids (batteryBusVoltagePid sample_pids)
    [6; 60] 2 0 init_state.

(** ** Sequences of calls *)

(** One call of [IncomingBmsPoll]: its four arguments. *)
Record Poll : Type := mkPoll {
  poll_pid : Z;
  poll_data : list Z;
  poll_length : Z;
  poll_remain : Z
}.

(** The call [p] made on the decoder in state [st]. *)
Definition dispatch (t : PidTable) (st : State) (p : Poll) : State :=
  IncomingBmsPoll t (poll_pid p) (poll_data p) (poll_length p) (poll_remain p)
    st.

(** The calls of a list, in order. *)
Definition dispatch_all (t : PidTable) (ps : list Poll) (st : State) : State :=
  fold_left (dispatch t) ps st.

(** A call that takes the first branch of [ProcessBatteryStats]. *)
Definition is_min_frame (t : PidTable) (p : Poll) : bool :=
  existsb (Z.eqb (poll_pid p)) (cellStatPids t) && negb (poll_remain p =? 0).

(** The status byte of the last BMS-status call of a list, [acc] if there
    is none. *)
Fixpoint last_status (t : PidTable) (ps : list Poll) (acc : option Z)
  : option Z :=
  match ps with
  | [] => acc
  | p :: r =>
      last_status t r
        (if poll_pid p =? bmsStatusPid t
         then Some (byte_at (poll_data p) 0) else acc)
  end.


(** ** Parts of the state *)

(** The measured values: everything but the seven charge metrics written by
    [SetBmsStatus]. *)
Definition measurements (st : State) :=
  (m_bmsCache st, m_bat_pack_voltage st, m_soc_raw st,
   (ms_v_bat_cell_vmin st, ms_v_bat_cell_vmax st,
    ms_v_bat_cell_tmin st, ms_v_bat_cell_tmax st),
   (ms_v_bat_pack_vmin st, ms_v_bat_pack_vmax st,
    ms_v_bat_pack_tmin st, ms_v_bat_pack_tmax st),
   (ms_v_bat_voltage st, ms_v_bat_current st, ms_v_bat_power st,
    ms_v_bat_soc st, ms_v_bat_range_ideal st, ms_v_bat_temp st,
    ms_v_bat_soh st, ms_v_bat_range_est st),
   xmg_updatedbmu st).

(** The metrics no cell-block frame writes. *)
Definition scalar_part (st : State) :=
  (m_bat_pack_voltage st, m_soc_raw st,
   (ms_v_bat_voltage st, ms_v_bat_current st, ms_v_bat_power st,
    ms_v_bat_soc st, ms_v_bat_range_ideal st, ms_v_bat_temp st,
    ms_v_bat_soh st, ms_v_bat_range_est st),
   (ms_v_charge_inprogress st, ms_v_charge_state st, ms_v_charge_type st,
    ms_v_charge_current st, ms_v_charge_power st, ms_v_charge_climit st,
    ms_v_charge_voltage st),
   xmg_updatedbmu st).


(** ** The charge-state machine in terms of raw readings *)

(** The status bytes that start or continue a charge. *)
Definition charging_status (status : Z) : bool :=
  (status =? StartingCharge) || (status =? Charging) || (status =? CcsCharging).

(** The in-progress flag agrees with the status byte [acc], or with the
    flag of [st0] when no status byte was seen. *)
Definition flag_agrees (acc : option Z) (st0 st : State) : Prop :=
  match acc with
  | Some b => ms_v_charge_inprogress st = charging_status b
  | None => ms_v_charge_inprogress st = ms_v_charge_inprogress st0
  end.

(** The smallest raw reading whose scaled SOC reaches 97.0, per window. *)
Definition done_threshold (st : State) : Z :=
  if GetParamValueBool (xmg_updatedbmu st) true then 913 else 943.

(** The smallest raw reading whose scaled SOC reaches 99.5, per window. *)
Definition topoff_threshold (st : State) : Z :=
  if GetParamValueBool (xmg_updatedbmu st) true then 936 else 966.

(** The two comparisons the charge-state machine makes on a scaled SOC,
    against the raw thresholds [t97] and [t995]. *)
Definition soc_labels_agree (t97 t995 value : Z) (soc : F32.t) : bool :=
  Bool.eqb (F64.leb d_97 (double_of_float soc)) (t97 <=? value) &&
  Bool.eqb (F64.ltb (double_of_float soc) d_99_5) (value <? t995).

(** ** Cell vectors and pack aggregates *)





(** ** Floats as rational numbers *)

(** [2^e] as a rational. *)
Definition pow2 (e : Z) : Q := Qpower 2 e.

(** [q] with the sign bit [s] applied. *)
Definition Qsigned (s : bool) (q : Q) : Q := if s then (- q)%Q else q.

(** The number denoted by a float; 0 stands for infinities and NaN. *)
Definition Q_of (x : spec_float) : Q :=
  match SF2Q x with
  | Some v => v
  | None => 0%Q
  end.

(** [x] is a number at distance at most [err] from [q]. *)
Definition within (x : spec_float) (q err : Q) : Prop :=
  exists v, SF2Q x = Some v /\ (Qabs (v - q) <= err)%Q.

(** Where a rational lies relative to the mantissa of a shift record: on
    it, in the lower half of the gap to the next integer, on the midpoint,
    or in the upper half. *)
Definition located (x : Q) (mrs : shr_record) : Prop :=
  match shr_r mrs, shr_s mrs with
  | false, false => (x == inject_Z (shr_m mrs))%Q
  | false, true =>
      (inject_Z (shr_m mrs) < x /\ x < inject_Z (shr_m mrs) + (1 # 2))%Q
  | true, false => (x == inject_Z (shr_m mrs) + (1 # 2))%Q
  | true, true =>
      (inject_Z (shr_m mrs) + (1 # 2) < x /\ x < inject_Z (shr_m mrs) + 1)%Q
  end.

(** [q] is [k * 2^j] for an integer [k] of at most [prec] digits. *)
Definition representable (prec : Z) (q : Q) : Prop :=
  exists k j : Z, Z.abs k < 2 ^ prec /\ (q == inject_Z k * pow2 j)%Q.

(** [r] is a number within half a unit in the last place of [q]
    (relative error at most [2^-prec]), and is [q] itself when [q] is
    representable. *)
Definition rounds (prec : Z) (r : spec_float) (q : Q) : Prop :=
  is_finite r = true /\
  (Qabs (Q_of r - q) * pow2 prec <= Qabs q)%Q /\
  (representable prec q -> (Q_of r == q)%Q).

(** ** Expressions of the scalar frames *)

(** [data[0] * 0.5 - 40.0] in [double], stored as [float]. *)
Definition coolant_temp (raw : Z) : F32.t :=
  float_of_double (F64.sub (F64.mul (F64.of_Z raw) d_half) d_40).

(** [262 * (scaledSoc / 100)] *)
Definition range_formula (scaledSoc : F32.t) : F32.t :=
  F32.mul (F32.of_Z 262) (F32.div scaledSoc f_100).



(** ** Metrics that are numbers *)




(** ** More sample inputs *)

(** A decoder in which a finished charge left the label "done". *)
Definition charge_done_state : State :=
  set_ms_v_charge_state "done" (set_ms_v_charge_type "not charging" init_state).


(** ** Reasoning about the state *)

(** Unfolds the field writes and evaluates the field reads, leaving the
    floating-point expressions untouched. *)
Ltac state_simpl :=
  cbv beta iota zeta delta
    [ set_m_bmsCache set_m_bat_pack_voltage set_m_soc_raw
      set_ms_v_bat_cell_vmin set_ms_v_bat_cell_vmax
      set_ms_v_bat_cell_tmin set_ms_v_bat_cell_tmax
      set_ms_v_bat_pack_vmin set_ms_v_bat_pack_vmax
      set_ms_v_bat_pack_tmin set_ms_v_bat_pack_tmax
      set_ms_v_bat_voltage set_ms_v_bat_current set_ms_v_bat_power
      set_ms_v_bat_soc set_ms_v_bat_range_ideal set_ms_v_bat_temp
      set_ms_v_bat_soh set_ms_v_bat_range_est
      set_ms_v_charge_inprogress set_ms_v_charge_state set_ms_v_charge_type
      set_ms_v_charge_current set_ms_v_charge_power set_ms_v_charge_climit
      set_ms_v_charge_voltage
      m_bmsCache m_bat_pack_voltage m_soc_raw
      ms_v_bat_cell_vmin ms_v_bat_cell_vmax
      ms_v_bat_cell_tmin ms_v_bat_cell_tmax
      ms_v_bat_pack_vmin ms_v_bat_pack_vmax
      ms_v_bat_pack_tmin ms_v_bat_pack_tmax
      ms_v_bat_voltage ms_v_bat_current ms_v_bat_power
      ms_v_bat_soc ms_v_bat_range_ideal ms_v_bat_temp
      ms_v_bat_soh ms_v_bat_range_est
      ms_v_charge_inprogress ms_v_charge_state ms_v_charge_type
      ms_v_charge_current ms_v_charge_power ms_v_charge_climit
      ms_v_charge_voltage xmg_updatedbmu AsVector ].

(** *** The vector metric *)

Lemma SetElemValue_nth_error (n : nat) (v : F32.t) (l : list F32.t) :
  nth_error (SetElemValue n v l) n = Some v.
Proof.
  revert l; induction n as [|n IH]; intros [|x r]; simpl; auto.
Qed.

Lemma SetElemValue_other (n k : nat) (v : F32.t) (l : list F32.t) :
  k <> n -> (k < List.length l)%nat ->
  nth_error (SetElemValue n v l) k = nth_error l k.
Proof.
  revert k l; induction n as [|n IH]; intros [|k] [|x r] Hk Hlen;
    simpl in *; try lia; auto.
  apply IH; lia.
Qed.

Lemma SetElemValue_length (n : nat) (v : F32.t) (l : list F32.t) :
  List.length (SetElemValue n v l) = Nat.max (S n) (List.length l).
Proof.
  revert l; induction n as [|n IH]; intros [|x r]; simpl;
    try rewrite IH; simpl; lia.
Qed.

Lemma SetElemValue_idempotent (n : nat) (v : F32.t) (l : list F32.t) :
  SetElemValue n v (SetElemValue n v l) = SetElemValue n v l.
Proof.
  revert l; induction n as [|n IH]; intros [|x r]; simpl; auto;
    now rewrite IH.
Qed.

Lemma SetElemValue_In (n : nat) (v : F32.t) (l : list F32.t) :
  In v (SetElemValue n v l).
Proof.
  eapply nth_error_In, SetElemValue_nth_error.
Qed.

(** Every element after a write is the written value, a value that was
    already there, or the fill value of a resize. *)
Lemma SetElemValue_elements (n : nat) (v : F32.t) (l : list F32.t) x :
  In x (SetElemValue n v l) -> x = v \/ In x l \/ x = F32.zero.
Proof.
  revert l; induction n as [|n IH]; intros [|y r]; simpl.
  - intros [H|[]]; auto.
  - intros [H|H]; auto.
  - intros [H|H]; auto.
    destruct (IH [] H) as [H1|[[]|H1]]; auto.
  - intros [H|H]; auto.
    destruct (IH r H) as [H1|[H1|H1]]; auto.
Qed.

(** The range searched by the decoder is never empty: the iterator that
    [std::min_element] / [std::max_element] returns can be dereferenced. *)
Lemma min_element_SetElemValue (n : nat) (v : F32.t) (l : list F32.t) :
  min_element (SetElemValue n v l) =
  Some (deref (min_element (SetElemValue n v l))).
Proof.
  destruct (SetElemValue n v l) eqn:E; [|reflexivity].
  pose proof (SetElemValue_length n v l) as H; rewrite E in H.
  cbn [List.length] in H; lia.
Qed.

Lemma max_element_SetElemValue (n : nat) (v : F32.t) (l : list F32.t) :
  max_element (SetElemValue n v l) =
  Some (deref (max_element (SetElemValue n v l))).
Proof.
  destruct (SetElemValue n v l) eqn:E; [|reflexivity].
  pose proof (SetElemValue_length n v l) as H; rewrite E in H.
  cbn [List.length] in H; lia.
Qed.

(** *** The order on floats *)

Lemma SFcompare_antisym (x y : spec_float) :
  SFcompare y x = option_map CompOpp (SFcompare x y).
Proof.
  destruct x as [sx|sx| |sx mx ex], y as [sy|sy| |sy my ey];
    try destruct sx; try destruct sy; try reflexivity; simpl;
    rewrite (Z.compare_antisym ex ey);
    destruct (ex ?= ey); simpl; try reflexivity;
    rewrite (Pos.compare_cont_antisym mx my Eq); simpl;
    now rewrite ?CompOpp_involutive.
Qed.

Lemma SFcompare_refl (x : spec_float) :
  is_nan x = false -> SFcompare x x = Some Eq.
Proof.
  destruct x as [s|s| |s m e]; try destruct s; simpl; try discriminate;
    try reflexivity; intros _;
    rewrite Z.compare_refl;
    change (Pos.compare_cont Eq m m) with (Pos.compare m m);
    now rewrite Pos.compare_refl.
Qed.

Lemma SFleb_refl (x : spec_float) : is_nan x = false -> SFleb x x = true.
Proof.
  intros H. unfold SFleb. now rewrite SFcompare_refl.
Qed.

Lemma SFltb_SFleb (x y : spec_float) : SFltb x y = true -> SFleb x y = true.
Proof.
  unfold SFltb, SFleb. destruct (SFcompare x y) as [[| |]|]; auto.
Qed.

(** On ordered operands, [!(y < x)] is [x <= y]. *)
Lemma SFltb_false_SFleb (x y : spec_float) :
  is_nan x = false -> is_nan y = false ->
  SFltb y x = false -> SFleb x y = true.
Proof.
  intros Hx Hy. unfold SFltb, SFleb. rewrite (SFcompare_antisym x y).
  destruct (SFcompare x y) as [[| |]|] eqn:E; simpl; auto.
  destruct x, y; simpl in *; discriminate.
Qed.

Lemma SFleb_not_nan (x y : spec_float) :
  SFleb x y = true -> is_nan x = false /\ is_nan y = false.
Proof.
  destruct x, y; simpl; auto; discriminate.
Qed.

Lemma SFleb_trans (x y z : spec_float) :
  SFleb x y = true -> SFleb y z = true -> SFleb x z = true.
Proof.
  unfold SFleb.
  destruct x as [sx|sx| |sx mx ex], y as [sy|sy| |sy my ey],
           z as [sz|sz| |sz mz ez];
    try destruct sx; try destruct sy; try destruct sz;
    simpl; try (intros; congruence);
    change (Pos.compare_cont Eq) with Pos.compare;
    repeat match goal with
    | |- context [?a ?= ?b] => destruct (Z.compare_spec a b)
    | |- context [Pos.compare ?a ?b] => destruct (Pos.compare_spec a b)
    end; simpl; intros; subst; try congruence; try lia.
Qed.

(** *** [std::min_element] and [std::max_element] *)

Lemma fold_min_spec (r : list F32.t) :
  forall x, is_nan x = false -> no_nan r ->
  let m := fold_left (fun s y => if F32.ltb y s then y else s) r x in
  In m (x :: r) /\ F32.leb m x = true /\
  Forall (fun y => F32.leb m y = true) r.
Proof.
  induction r as [|y r IH]; intros x Hx Hr; cbn [fold_left].
  - repeat split; [now left | now apply SFleb_refl | constructor].
  - inversion Hr as [|? ? Hy Hr']; subst.
    destruct (F32.ltb y x) eqn:E.
    + destruct (IH y Hy Hr') as (Hin & Hle & Hall).
      repeat split.
      * destruct Hin as [<-|Hin]; [right; now left | right; now right].
      * apply SFleb_trans with y; [exact Hle | now apply SFltb_SFleb].
      * constructor; assumption.
    + destruct (IH x Hx Hr') as (Hin & Hle & Hall).
      repeat split.
      * destruct Hin as [<-|Hin]; [now left | right; now right].
      * assumption.
      * constructor; [|assumption].
        apply SFleb_trans with x; [exact Hle | now apply SFltb_false_SFleb].
Qed.

Lemma fold_max_spec (r : list F32.t) :
  forall x, is_nan x = false -> no_nan r ->
  let m := fold_left (fun s y => if F32.ltb s y then y else s) r x in
  In m (x :: r) /\ F32.leb x m = true /\
  Forall (fun y => F32.leb y m = true) r.
Proof.
  induction r as [|y r IH]; intros x Hx Hr; cbn [fold_left].
  - repeat split; [now left | now apply SFleb_refl | constructor].
  - inversion Hr as [|? ? Hy Hr']; subst.
    destruct (F32.ltb x y) eqn:E.
    + destruct (IH y Hy Hr') as (Hin & Hle & Hall).
      repeat split.
      * destruct Hin as [<-|Hin]; [right; now left | right; now right].
      * apply SFleb_trans with y; [now apply SFltb_SFleb | exact Hle].
      * constructor; assumption.
    + destruct (IH x Hx Hr') as (Hin & Hle & Hall).
      repeat split.
      * destruct Hin as [<-|Hin]; [now left | right; now right].
      * assumption.
      * constructor; [|assumption].
        apply SFleb_trans with x; [now apply SFltb_false_SFleb | exact Hle].
Qed.

Lemma min_element_is_minimum (l : list F32.t) (m : F32.t) :
  no_nan l -> min_element l = Some m -> is_minimum m l.
Proof.
  destruct l as [|x r]; [discriminate|].
  intros Hl [= <-]. inversion Hl as [|? ? Hx Hr]; subst.
  destruct (fold_min_spec r x Hx Hr) as (Hin & Hle & Hall).
  split; [assumption | constructor; assumption].
Qed.

Lemma max_element_is_maximum (l : list F32.t) (m : F32.t) :
  no_nan l -> max_element l = Some m -> is_maximum m l.
Proof.
  destruct l as [|x r]; [discriminate|].
  intros Hl [= <-]. inversion Hl as [|? ? Hx Hr]; subst.
  destruct (fold_max_spec r x Hx Hr) as (Hin & Hle & Hall).
  split; [assumption | constructor; assumption].
Qed.

Lemma no_nan_SetElemValue (n : nat) (v : F32.t) (l : list F32.t) :
  is_nan v = false -> no_nan l -> no_nan (SetElemValue n v l).
Proof.
  intros Hv Hl. apply Forall_forall. intros x Hx.
  destruct (SetElemValue_elements n v l x Hx) as [->|[H| ->]]; auto.
  now apply (proj1 (Forall_forall _ l) Hl).
Qed.

(** *** Rounding never produces NaN *)

Section RoundingFacts.
Variables prec emax : Z.

Lemma iter_pos_invariant {A : Type} (P : A -> Prop) (f : A -> A) :
  (forall x, P x -> P (f x)) ->
  forall n x, P x -> P (iter_pos f n x).
Proof.
  intros Hf; induction n; intros x Hx; simpl; auto.
Qed.

Lemma shr_1_nonneg (mrs : shr_record) :
  0 <= shr_m mrs -> 0 <= shr_m (shr_1 mrs).
Proof.
  destruct mrs as [m r s]; simpl.
  destruct m as [|[p|p|]|p]; simpl; lia.
Qed.

Lemma shr_nonneg (mrs : shr_record) (e n : Z) :
  0 <= shr_m mrs -> 0 <= shr_m (fst (shr mrs e n)).
Proof.
  intros H; destruct n; simpl; auto.
  apply (iter_pos_invariant (fun x => 0 <= shr_m x)); auto.
  apply shr_1_nonneg.
Qed.

Lemma shr_fexp_nonneg (m e : Z) (l : location) :
  0 <= m -> 0 <= shr_m (fst (shr_fexp prec emax m e l)).
Proof.
  intros H; unfold shr_fexp; apply shr_nonneg.
  destruct l as [|[| |]]; simpl; auto.
Qed.

Lemma round_nearest_even_nonneg (m : Z) (l : location) :
  0 <= m -> 0 <= round_nearest_even m l.
Proof.
  intros H; unfold round_nearest_even.
  destruct l as [|[| |]]; try destruct (Z.even m); lia.
Qed.

Lemma binary_round_aux_not_nan (sx : bool) (mx ex : Z) (lx : location) :
  0 <= mx -> is_nan (binary_round_aux prec emax sx mx ex lx) = false.
Proof.
  intros H; unfold binary_round_aux.
  pose proof (shr_fexp_nonneg mx ex lx H) as H1.
  destruct (shr_fexp prec emax mx ex lx) as [mrs' e']; simpl in H1.
  pose proof (round_nearest_even_nonneg _ (loc_of_shr_record mrs') H1) as H2.
  pose proof (shr_fexp_nonneg _ e' loc_Exact H2) as H3.
  destruct (shr_fexp prec emax _ e' loc_Exact) as [mrs'' e'']; simpl in H3.
  destruct (shr_m mrs''); [reflexivity| |lia].
  destruct (e'' <=? emax - prec); reflexivity.
Qed.

Lemma binary_normalize_not_nan (m e : Z) (s : bool) :
  is_nan (binary_normalize prec emax m e s) = false.
Proof.
  destruct m; simpl; [reflexivity| |]; unfold binary_round;
    destruct shl_align; apply binary_round_aux_not_nan; lia.
Qed.

Lemma SFadd_finite_not_nan (x : spec_float) s m e :
  is_nan x = false ->
  is_nan (SFadd prec emax x (S754_finite s m e)) = false.
Proof.
  destruct x; simpl; auto using binary_normalize_not_nan.
Qed.

Lemma SFsub_finite_not_nan (x : spec_float) s m e :
  is_nan x = false ->
  is_nan (SFsub prec emax x (S754_finite s m e)) = false.
Proof.
  destruct x; simpl; auto using binary_normalize_not_nan.
Qed.

Lemma SFmul_finite_not_nan (x : spec_float) s m e :
  is_nan x = false ->
  is_nan (SFmul prec emax x (S754_finite s m e)) = false.
Proof.
  destruct x; simpl; auto. intros _.
  apply binary_round_aux_not_nan; lia.
Qed.

Lemma SFdiv_finite_not_nan (x : spec_float) s m e :
  is_nan x = false ->
  is_nan (SFdiv prec emax x (S754_finite s m e)) = false.
Proof.
  destruct x as [sx|sx| |sx mx ex]; simpl; auto. intros _.
  unfold SFdiv_core_binary.
  set (m' := match _ - _ - Z.min _ _ with
             | Z0 => Zpos mx | Zpos _ => _ | Zneg _ => 0 end).
  assert (Hm' : 0 <= m').
  { unfold m'. destruct (_ - _ - Z.min _ _); try lia.
    apply Z.shiftl_nonneg; lia. }
  pose proof (Z.div_pos m' (Zpos m) Hm' (eq_refl : 0 < Zpos m)) as Hq.
  unfold Z.div in Hq.
  destruct (Z.div_eucl m' (Zpos m)) as [q r].
  apply binary_round_aux_not_nan; assumption.
Qed.
End RoundingFacts.

Lemma F32_of_Z_not_nan (n : Z) : is_nan (F32.of_Z n) = false.
Proof. apply binary_normalize_not_nan. Qed.

(** The decoder never writes NaN into a cell vector, whatever the bytes. *)
Lemma cell_volts_not_nan (raw : Z) : is_nan (cell_volts raw) = false.
Proof.
  unfold cell_volts.
  change f_1 with (S754_finite false 8388608 (-23)).
  change f_2000 with (S754_finite false 16384000 (-13)).
  apply SFadd_finite_not_nan, SFdiv_finite_not_nan, F32_of_Z_not_nan.
Qed.

Lemma cell_temp_not_nan (raw : Z) : is_nan (cell_temp raw) = false.
Proof.
  unfold cell_temp.
  change f_40 with (S754_finite false 10485760 (-18)).
  change f_half with (S754_finite false 8388608 (-24)).
  apply SFsub_finite_not_nan, SFmul_finite_not_nan, F32_of_Z_not_nan.
Qed.

(** *** Promotion of [float] to [double] *)

Lemma digits2_pos_iter_xO (m p : positive) :
  Zpos (digits2_pos (Pos.iter xO m p)) = Zpos (digits2_pos m) + Zpos p.
Proof.
  induction p as [|p IH] using Pos.peano_ind.
  - simpl. lia.
  - rewrite Pos.iter_succ. cbn [digits2_pos]. lia.
Qed.

Section Canonical.
Variables prec emax : Z.

(** A canonical mantissa is left untouched by rounding. *)
Lemma binary_round_aux_canonical (s : bool) (m : positive) (e : Z) :
  canonical_mantissa prec emax m e = true ->
  e <= emax - prec ->
  binary_round_aux prec emax s (Zpos m) e loc_Exact = S754_finite s m e.
Proof.
  intros Hc He. unfold canonical_mantissa in Hc.
  apply Z.eqb_eq in Hc.
  assert (Hs : shr_fexp prec emax (Zpos m) e loc_Exact =
               (Build_shr_record (Zpos m) false false, e)).
  { unfold shr_fexp. cbn [Zdigits2 shr_record_of_loc].
    rewrite Hc, Z.sub_diag. reflexivity. }
  unfold binary_round_aux. rewrite Hs.
  cbn [shr_m loc_of_shr_record round_nearest_even]. rewrite Hs.
  cbn [shr_m]. apply Z.leb_le in He. now rewrite He.
Qed.
End Canonical.

(** A finite [float] read as [double] is finite. *)
Lemma double_of_float_finite (x : F32.t) :
  valid_float x = true -> is_finite x = true ->
  is_finite (double_of_float x) = true.
Proof.
  destruct x as [s|s| |s m e]; simpl; try discriminate; auto.
  intros Hv _.
  unfold valid_float, valid_binary, bounded, canonical_mantissa in Hv.
  apply andb_prop in Hv. destruct Hv as [Hc He].
  apply Z.eqb_eq in Hc. apply Z.leb_le in He.
  unfold fexp, emin, F32.prec, F32.emax in Hc, He.
  set (d := Zpos (digits2_pos m)) in *.
  assert (Hd : 1 <= d) by (unfold d; lia).
  assert (Hbr : binary_round F64.prec F64.emax s m e =
          S754_finite s (Pos.iter xO m (Z.to_pos (53 - d))) (d + e - 53)).
  { unfold binary_round.
    replace (fexp F64.prec F64.emax (Zpos (digits2_pos m) + e))
      with (d + e - 53)
      by (unfold fexp, emin, F64.prec, F64.emax; fold d; lia).
    unfold shl_align.
    destruct (d + e - 53 - e) as [|p|p] eqn:Ep; try lia.
    replace (Z.to_pos (53 - d)) with p by lia.
    apply binary_round_aux_canonical.
    - unfold canonical_mantissa. apply Z.eqb_eq.
      rewrite digits2_pos_iter_xO. fold d.
      unfold fexp, emin, F64.prec, F64.emax. lia.
    - unfold F64.prec, F64.emax. lia. }
  unfold double_of_float, convert.
  destruct s; cbn [cond_Zopp Z.opp binary_normalize]; rewrite Hbr; reflexivity.
Qed.

(** *** Checking a property on every reading *)

Lemma forall_from_spec (n : nat) (p : Z -> bool) :
  forall z, forall_from z n p = true ->
  forall x, z <= x < z + Z.of_nat n -> p x = true.
Proof.
  induction n as [|n IH]; intros z H x Hx; [lia|].
  cbn [forall_from] in H. apply andb_prop in H. destruct H as [Hz Hr].
  destruct (Z.eq_dec x z) as [->|Hne]; [assumption|].
  apply (IH (z + 1) Hr). lia.
Qed.

(** *** The shape of rounded results *)

Lemma digits2_pos_size (p : positive) : digits2_pos p = Pos.size p.
Proof. induction p; simpl; congruence. Qed.

(** The number of binary digits of a positive number. *)
Lemma digits2_pos_log2 (p : positive) :
  Zpos (digits2_pos p) = Z.log2 (Zpos p) + 1.
Proof.
  rewrite digits2_pos_size. destruct p; simpl; lia.
Qed.

Lemma Zdigits2_log2 (m : Z) : 0 < m -> Zdigits2 m = Z.log2 m + 1.
Proof.
  destruct m as [|p|p]; try lia. intros _. apply digits2_pos_log2.
Qed.

Lemma shr_1_shiftr (mrs : shr_record) :
  0 <= shr_m mrs -> shr_m (shr_1 mrs) = Z.shiftr (shr_m mrs) 1.
Proof.
  destruct mrs as [m r s]; cbn [shr_m]. intros H.
  rewrite <- Z.div2_spec.
  destruct m as [|[p|p|]|p]; try reflexivity; lia.
Qed.

Lemma iter_shr_1_shiftr (n : positive) :
  forall mrs, 0 <= shr_m mrs ->
  shr_m (iter_pos shr_1 n mrs) = Z.shiftr (shr_m mrs) (Zpos n).
Proof.
  induction n as [n IH|n IH|]; intros mrs H; cbn [iter_pos].
  - assert (H1 : 0 <= shr_m (shr_1 mrs))
      by (rewrite shr_1_shiftr by assumption; now apply Z.shiftr_nonneg).
    assert (H2 : 0 <= shr_m (iter_pos shr_1 n (shr_1 mrs)))
      by (rewrite IH by assumption; now apply Z.shiftr_nonneg).
    rewrite IH, IH, shr_1_shiftr by assumption.
    rewrite !Z.shiftr_shiftr by lia. f_equal. lia.
  - assert (H1 : 0 <= shr_m (iter_pos shr_1 n mrs))
      by (rewrite IH by assumption; now apply Z.shiftr_nonneg).
    rewrite IH, IH by assumption.
    rewrite Z.shiftr_shiftr by lia. f_equal. lia.
  - now apply shr_1_shiftr.
Qed.

(** [shr] divides the mantissa by [2^n] and adds [n] to the exponent. *)
Lemma shr_spec (mrs : shr_record) (e n : Z) :
  0 <= shr_m mrs -> 0 <= n ->
  shr_m (fst (shr mrs e n)) = Z.shiftr (shr_m mrs) n /\
  snd (shr mrs e n) = e + n.
Proof.
  intros H Hn. destruct n as [|p|p]; cbn [shr fst snd]; try lia.
  - split; [now rewrite Z.shiftr_0_r | lia].
  - split; [now apply iter_shr_1_shiftr | reflexivity].
Qed.

Lemma shr_record_of_loc_m (m : Z) (l : location) :
  shr_m (shr_record_of_loc m l) = m.
Proof. destruct l as [|[| |]]; reflexivity. Qed.

(** Dropping [n] digits of a number of more than [n] digits. *)
Lemma log2_shiftr_digits (m n : Z) :
  0 < m -> 0 <= n <= Z.log2 m ->
  0 < Z.shiftr m n /\ Z.log2 (Z.shiftr m n) = Z.log2 m - n.
Proof.
  intros Hm Hn.
  assert (H : Z.log2 (Z.shiftr m n) = Z.log2 m - n)
    by (rewrite Z.log2_shiftr by assumption; lia).
  split; [|exact H].
  rewrite Z.shiftr_div_pow2 by lia.
  apply Z.div_str_pos. split; [apply Z.pow_pos_nonneg; lia|].
  apply Z.le_trans with (2 ^ Z.log2 m).
  - apply Z.pow_le_mono_r; lia.
  - apply Z.log2_spec; assumption.
Qed.

Lemma round_nearest_even_cases (m : Z) (l : location) :
  round_nearest_even m l = m \/ round_nearest_even m l = m + 1.
Proof.
  unfold round_nearest_even.
  destruct l as [|[| |]]; try destruct (Z.even m); auto.
Qed.

Section Shape.
Variables prec emax : Z.
Hypothesis Hprec : 0 < prec.

(** Rounding a positive mantissa of at least [prec] digits, away from the
    underflow and overflow thresholds, gives a normal number of the same
    magnitude or the next. *)
Lemma binary_round_aux_normal (s : bool) (M E : Z) (L : location) :
  0 < M -> prec <= Zdigits2 M ->
  emin prec emax + prec <= Zdigits2 M + E ->
  Zdigits2 M + E + 1 <= emax ->
  normal_in prec s (Zdigits2 M + E) (Zdigits2 M + E + 1)
    (binary_round_aux prec emax s M E L).
Proof.
  intros HM Hd Hlo Hhi.
  pose proof (Zdigits2_log2 M HM) as HdM.
  set (d := Zdigits2 M) in *.
  unfold binary_round_aux, shr_fexp. fold d.
  replace (fexp prec emax (d + E) - E) with (d - prec)
    by (unfold fexp; lia).
  destruct (shr_spec (shr_record_of_loc M L) E (d - prec)) as [Hm1 He1];
    [rewrite shr_record_of_loc_m; lia | lia |].
  rewrite shr_record_of_loc_m in Hm1.
  destruct (shr (shr_record_of_loc M L) E (d - prec)) as [mrs1 e1].
  cbn [fst snd] in Hm1, He1.
  destruct (log2_shiftr_digits M (d - prec) HM ltac:(lia)) as [Hpos1 Hlog1].
  rewrite <- Hm1 in Hpos1, Hlog1.
  set (mr := round_nearest_even (shr_m mrs1) (loc_of_shr_record mrs1)).
  assert (Hmr : 0 < mr /\ (Z.log2 mr = prec - 1 \/ Z.log2 mr = prec)).
  { destruct (round_nearest_even_cases (shr_m mrs1) (loc_of_shr_record mrs1))
      as [E0|E0]; fold mr in E0; rewrite E0.
    - split; [assumption | left; lia].
    - split; [lia|].
      destruct (Z.log2_succ_or (shr_m mrs1)) as [H|H];
        unfold Z.succ in H; rewrite H; lia. }
  destruct Hmr as [Hposr Hlogr].
  pose proof (Zdigits2_log2 mr Hposr) as Hdr.
  replace (fexp prec emax (Zdigits2 mr + e1) - e1) with (Zdigits2 mr - prec)
    by (unfold fexp; lia).
  destruct (shr_spec (shr_record_of_loc mr loc_Exact) e1 (Zdigits2 mr - prec))
    as [Hm2 He2]; [rewrite shr_record_of_loc_m; lia | lia |].
  rewrite shr_record_of_loc_m in Hm2.
  destruct (shr (shr_record_of_loc mr loc_Exact) e1 (Zdigits2 mr - prec))
    as [mrs2 e2].
  cbn [fst snd] in Hm2, He2.
  destruct (log2_shiftr_digits mr (Zdigits2 mr - prec) Hposr ltac:(lia))
    as [Hpos2 Hlog2].
  rewrite <- Hm2 in Hpos2, Hlog2.
  destruct (shr_m mrs2) as [|p|p] eqn:Ep; try lia.
  assert (Hle : (e2 <=? emax - prec) = true) by (apply Z.leb_le; lia).
  rewrite Hle. exists p, e2. split; [reflexivity|].
  rewrite digits2_pos_log2. lia.
Qed.

Lemma normal_in_weaken (s : bool) (lo hi lo' hi' : Z) (x : spec_float) :
  normal_in prec s lo hi x -> lo' <= lo -> hi <= hi' ->
  normal_in prec s lo' hi' x.
Proof.
  intros (m & e & -> & Hd & Hb) Hlo Hhi.
  exists m, e. repeat split; try assumption; lia.
Qed.

(** [binary_round] first pads a short mantissa to [prec] digits. *)
Lemma binary_round_normal (s : bool) (m : positive) (e : Z) :
  emin prec emax + prec <= Zpos (digits2_pos m) + e ->
  Zpos (digits2_pos m) + e + 1 <= emax ->
  normal_in prec s (Zpos (digits2_pos m) + e) (Zpos (digits2_pos m) + e + 1)
    (binary_round prec emax s m e).
Proof.
  intros Hlo Hhi. set (d := Zpos (digits2_pos m)) in *.
  unfold binary_round. fold d.
  replace (fexp prec emax (d + e)) with (d + e - prec)
    by (unfold fexp; lia).
  unfold shl_align.
  destruct (d + e - prec - e) as [|p|p] eqn:Ep.
  - apply normal_in_weaken
      with (lo := Zdigits2 (Zpos m) + e) (hi := Zdigits2 (Zpos m) + e + 1);
      [apply binary_round_aux_normal| |]; cbn [Zdigits2]; fold d; lia.
  - apply normal_in_weaken
      with (lo := Zdigits2 (Zpos m) + e) (hi := Zdigits2 (Zpos m) + e + 1);
      [apply binary_round_aux_normal| |]; cbn [Zdigits2]; fold d; lia.
  - assert (Hdz : Zdigits2 (Zpos (Pos.iter xO m p)) = prec)
      by (cbn [Zdigits2]; rewrite digits2_pos_iter_xO; fold d; lia).
    apply normal_in_weaken
      with (lo := Zdigits2 (Zpos (Pos.iter xO m p)) + (d + e - prec))
           (hi := Zdigits2 (Zpos (Pos.iter xO m p)) + (d + e - prec) + 1);
      [apply binary_round_aux_normal| |]; rewrite ?Hdz; lia.
Qed.

(** Conversion of a nonzero integer. *)
Lemma of_Z_normal (k : Z) :
  k <> 0 ->
  emin prec emax + prec <= Z.log2 (Z.abs k) + 1 ->
  Z.log2 (Z.abs k) + 2 <= emax ->
  normal_in prec (k <? 0) (Z.log2 (Z.abs k) + 1) (Z.log2 (Z.abs k) + 2)
    (binary_normalize prec emax k 0 false).
Proof.
  intros Hk Hlo Hhi.
  destruct k as [|p|p]; [lia| |]; cbn [binary_normalize Z.ltb Z.compare];
    cbn [Z.abs] in *; pose proof (digits2_pos_log2 p) as Hd;
    (apply normal_in_weaken
       with (lo := Zpos (digits2_pos p) + 0)
            (hi := Zpos (digits2_pos p) + 0 + 1);
     [apply binary_round_normal| |]; lia).
Qed.

(** Product of two normal numbers. *)
Lemma SFmul_normal (sx sy : bool) (lx hx ly hy : Z) (x y : spec_float) :
  normal_in prec sx lx hx x -> normal_in prec sy ly hy y ->
  emin prec emax + prec <= lx + ly - 1 -> hx + hy + 1 <= emax ->
  normal_in prec (xorb sx sy) (lx + ly - 1) (hx + hy + 1)
    (SFmul prec emax x y).
Proof.
  intros (mx & ex & -> & Hdx & Hbx) (my & ey & -> & Hdy & Hby) Hlo Hhi.
  cbn [SFmul].
  rewrite digits2_pos_log2 in Hdx, Hdy.
  pose proof (Z.log2_mul_below (Zpos mx) (Zpos my)
                ltac:(lia) ltac:(lia)) as Hb.
  pose proof (Z.log2_mul_above (Zpos mx) (Zpos my)
                ltac:(lia) ltac:(lia)) as Ha.
  assert (Hd : Zdigits2 (Zpos (mx * my)) = Z.log2 (Zpos mx * Zpos my) + 1)
    by (rewrite Zdigits2_log2 by lia; reflexivity).
  eapply normal_in_weaken;
    [apply binary_round_aux_normal; rewrite ?Hd; lia | rewrite Hd; lia
     | rewrite Hd; lia].
Qed.

(** Quotient of two normal numbers. *)
Lemma SFdiv_normal (sx sy : bool) (lx hx ly hy : Z) (x y : spec_float) :
  normal_in prec sx lx hx x -> normal_in prec sy ly hy y ->
  emin prec emax + prec <= lx - hy -> hx - ly + 2 <= emax ->
  normal_in prec (xorb sx sy) (lx - hy) (hx - ly + 2)
    (SFdiv prec emax x y).
Proof.
  intros (mx & ex & -> & Hdx & Hbx) (my & ey & -> & Hdy & Hby) Hlo Hhi.
  cbn [SFdiv]. unfold SFdiv_core_binary. cbn [Zdigits2].
  rewrite Hdx, Hdy.
  replace (Z.min (fexp prec emax (prec + ex - (prec + ey))) (ex - ey))
    with (ex - ey - prec) by (unfold fexp; lia).
  replace (ex - ey - (ex - ey - prec)) with prec by lia.
  assert (Hm' : match prec with
                | Z0 => Zpos mx
                | Zpos _ => Z.shiftl (Zpos mx) prec
                | Zneg _ => 0
                end = Zpos mx * 2 ^ prec).
  { rewrite <- Z.shiftl_mul_pow2 by lia. destruct prec; try lia; reflexivity. }
  rewrite Hm'. clear Hm'.
  rewrite digits2_pos_log2 in Hdx, Hdy.
  destruct (Z.log2_spec (Zpos mx) ltac:(lia)) as [Hx1 Hx2].
  destruct (Z.log2_spec (Zpos my) ltac:(lia)) as [Hy1 Hy2].
  replace (Z.log2 (Zpos mx)) with (prec - 1) in Hx1, Hx2 by lia.
  replace (Z.log2 (Zpos my)) with (prec - 1) in Hy1, Hy2 by lia.
  replace (Z.succ (prec - 1)) with prec in Hx2, Hy2 by lia.
  assert (Hpow : 2 ^ prec = 2 * 2 ^ (prec - 1)).
  { replace prec with (Z.succ (prec - 1)) at 1 by lia.
    apply Z.pow_succ_r. lia. }
  assert (HP : 0 < 2 ^ (prec - 1)) by (apply Z.pow_pos_nonneg; lia).
  set (P := 2 ^ (prec - 1)) in *.
  set (m' := Zpos mx * 2 ^ prec).
  assert (Hq1 : P <= m' / Zpos my).
  { apply Z.div_le_lower_bound; [lia|]. unfold m'. rewrite Hpow. nia. }
  assert (Hq2 : m' / Zpos my < 4 * P).
  { apply Z.div_lt_upper_bound; [lia|]. unfold m'. rewrite Hpow. nia. }
  unfold Z.div in Hq1, Hq2.
  destruct (Z.div_eucl m' (Zpos my)) as [q r].
  assert (Hq : 0 < q) by lia.
  assert (Hlq : prec - 1 <= Z.log2 q <= prec).
  { split.
    - apply Z.log2_le_pow2; [assumption | exact Hq1].
    - assert (Z.log2 q < prec + 1); [|lia].
      apply Z.log2_lt_pow2; [assumption|].
      replace (prec + 1) with (Z.succ prec) by lia.
      rewrite Z.pow_succ_r by lia. lia. }
  pose proof (Zdigits2_log2 q Hq) as Hdq.
  eapply normal_in_weaken;
    [apply binary_round_aux_normal; rewrite ?Hdq; lia | rewrite Hdq; lia
     | rewrite Hdq; lia].
Qed.

(** Re-rounding a normal number into this format. *)
Lemma convert_normal (p0 : Z) (s : bool) (lo hi : Z) (x : spec_float) :
  normal_in p0 s lo hi x ->
  emin prec emax + prec <= lo -> hi + 1 <= emax ->
  normal_in prec s lo (hi + 1) (convert prec emax x).
Proof.
  intros (m & e & -> & Hd & Hb) Hlo Hhi.
  assert (H : normal_in prec s lo (hi + 1) (binary_round prec emax s m e)).
  { eapply normal_in_weaken;
      [apply binary_round_normal; lia | lia | lia]. }
  destruct s; exact H.
Qed.
End Shape.

(** A normal number is a well-formed finite one. *)
Lemma normal_in_valid (s : bool) (lo hi : Z) (x : F32.t) :
  normal_in 24 s lo hi x -> -125 <= lo -> hi <= 128 ->
  valid_float x = true /\ is_finite x = true.
Proof.
  intros (m & e & -> & Hd & Hb) Hlo Hhi. split; [|reflexivity].
  unfold valid_float, valid_binary, bounded, canonical_mantissa.
  rewrite Hd. unfold fexp, emin, F32.prec, F32.emax.
  apply andb_true_intro. split; [apply Z.eqb_eq | apply Z.leb_le]; lia.
Qed.

Lemma log2_uint (k : Z) :
  0 < Z.abs k < 65536 -> 0 <= Z.log2 (Z.abs k) <= 15.
Proof.
  intros H. split; [apply Z.log2_nonneg|].
  assert (Z.log2 (Z.abs k) < 16); [|lia].
  apply Z.log2_lt_pow2; [lia|]. change (2 ^ 16) with 65536. lia.
Qed.

Lemma d_quarter_normal : normal_in 53 false (-1) (-1) d_quarter.
Proof.
  exists 4503599627370496%positive, (-54).
  split; [reflexivity|]. split; [reflexivity | lia].
Qed.

Lemma d_10_normal : normal_in 53 false 4 4 d_10.
Proof.
  exists 5629499534213120%positive, (-49).
  split; [reflexivity|]. split; [reflexivity | lia].
Qed.

Lemma f_100_normal : normal_in 24 false 7 7 f_100.
Proof.
  exists 13107200%positive, (-17).
  split; [reflexivity|]. split; [reflexivity | lia].
Qed.

(** *** State-of-charge scaling *)

Lemma calculateSoc_formula (value : Z) (st : State) :
  calculateSoc value st =
  soc_formula (fst (soc_window st)) (snd (soc_window st)) value.
Proof.
  unfold calculateSoc, soc_window.
  destruct (GetParamValueBool (xmg_updatedbmu st) true); reflexivity.
Qed.

(** Far above the window the quotient has a larger exponent than 100.0. *)
Lemma soc_formula_large (lowerlimit upperlimit value : Z) :
  normal_in 24 false 10 10 (F32.of_Z (upperlimit - lowerlimit)) ->
  2048 <= value - lowerlimit < 65536 ->
  F32.ltb (S754_finite false 13107200 (-17))
    (soc_formula lowerlimit upperlimit value) = true.
Proof.
  intros Hspan Hv. unfold soc_formula.
  assert (Hl : 11 <= Z.log2 (Z.abs (value - lowerlimit)) <= 15).
  { split.
    - apply Z.log2_le_pow2; [lia|]. change (2 ^ 11) with 2048. lia.
    - apply log2_uint. lia. }
  assert (H0 : normal_in 24 (value - lowerlimit <? 0) 12 17
                 (F32.of_Z (value - lowerlimit))).
  { eapply normal_in_weaken;
      [apply (of_Z_normal 24 128); unfold emin; lia | lia | lia]. }
  replace (value - lowerlimit <? 0) with false in H0
    by (symmetry; apply Z.ltb_ge; lia).
  pose proof (SFmul_normal 24 128 ltac:(lia) _ _ _ _ _ _ _ _
                H0 f_100_normal) as H1.
  specialize (H1 ltac:(unfold emin; lia) ltac:(lia)).
  pose proof (SFdiv_normal 24 128 ltac:(lia) _ _ _ _ _ _ _ _
                H1 Hspan) as H2.
  specialize (H2 ltac:(unfold emin; lia) ltac:(lia)).
  destruct H2 as (m & e & E & Hd & Hb).
  unfold F32.div, F32.mul, F32.prec, F32.emax. rewrite E.
  cbn [xorb F32.ltb SFltb SFcompare].
  assert (He : -17 < e) by lia.
  apply Z.compare_lt_iff in He. rewrite He. reflexivity.
Qed.

Lemma span_new_normal : normal_in 24 false 10 10 (F32.of_Z (940 - 25)).
Proof.
  exists 14991360%positive, (-14).
  split; [reflexivity|]. split; [reflexivity | lia].
Qed.

Lemma span_old_normal : normal_in 24 false 10 10 (F32.of_Z (970 - 60)).
Proof.
  exists 14909440%positive, (-14).
  split; [reflexivity|]. split; [reflexivity | lia].
Qed.

(** The readings up to 2107 are checked one by one. *)
Lemma soc_in_place_new_small :
  forall_from 0 (Z.to_nat 2108)
    (fun value => soc_in_place 25 940 value (soc_formula 25 940 value))
  = true.
Proof. vm_compute. reflexivity. Qed.

Lemma soc_in_place_old_small :
  forall_from 0 (Z.to_nat 2108)
    (fun value => soc_in_place 60 970 value (soc_formula 60 970 value))
  = true.
Proof. vm_compute. reflexivity. Qed.

Lemma soc_in_place_large (lowerlimit upperlimit value : Z) :
  normal_in 24 false 10 10 (F32.of_Z (upperlimit - lowerlimit)) ->
  0 <= lowerlimit <= 60 -> upperlimit <= 2107 ->
  2108 <= value < 65536 ->
  soc_in_place lowerlimit upperlimit value
    (soc_formula lowerlimit upperlimit value) = true.
Proof.
  intros Hspan Hl Hu Hv. unfold soc_in_place.
  replace (value <? lowerlimit) with false by (symmetry; apply Z.ltb_ge; lia).
  replace (upperlimit <? value) with true by (symmetry; apply Z.ltb_lt; lia).
  apply soc_formula_large; [assumption | lia].
Qed.

Lemma soc_in_place_window (value : Z) (st : State) :
  uint16_range value ->
  soc_in_place (fst (soc_window st)) (snd (soc_window st)) value
    (calculateSoc value st) = true.
Proof.
  unfold uint16_range. intros Hv. rewrite calculateSoc_formula.
  unfold soc_window.
  destruct (GetParamValueBool (xmg_updatedbmu st) true); cbn [fst snd];
    destruct (Z.lt_ge_cases value 2108) as [Hs|Hs].
  - apply (forall_from_spec _ _ 0 soc_in_place_new_small). lia.
  - apply soc_in_place_large; [exact span_new_normal | lia | lia | lia].
  - apply (forall_from_spec _ _ 0 soc_in_place_old_small). lia.
  - apply soc_in_place_large; [exact span_old_normal | lia | lia | lia].
Qed.
(** *** Battery current *)

(** The current has the sign of [value - 40000]. *)
Lemma current_formula_normal (value : Z) :
  0 <= value < 65536 -> value <> 40000 ->
  normal_in 24 (value <? 40000) (-5) 16
    (float_of_double (current_formula value)).
Proof.
  intros Hv Hne. unfold current_formula, float_of_double.
  assert (Hk : 0 < Z.abs (value - 40000) < 65536) by lia.
  pose proof (log2_uint _ Hk) as Hl.
  assert (H0 : normal_in 53 (value - 40000 <? 0) 1 17
                 (F64.of_Z (value - 40000))).
  { eapply normal_in_weaken;
      [apply (of_Z_normal 53 1024); unfold emin; lia | lia | lia]. }
  replace (value - 40000 <? 0) with (value <? 40000) in H0
    by (destruct (Z.ltb_spec value 40000), (Z.ltb_spec (value - 40000) 0);
        lia || reflexivity).
  pose proof (SFmul_normal 53 1024 ltac:(lia) _ _ _ _ _ _ _ _
                H0 d_quarter_normal) as H1.
  specialize (H1 ltac:(unfold emin; lia) ltac:(lia)).
  pose proof (SFdiv_normal 53 1024 ltac:(lia) _ _ _ _ _ _ _ _
                H1 d_10_normal) as H2.
  specialize (H2 ltac:(unfold emin; lia) ltac:(lia)).
  rewrite !xorb_false_r in H2.
  eapply normal_in_weaken;
    [apply (convert_normal 24 128 ltac:(lia) 53 _ _ _ _ H2);
     unfold emin; lia | lia | lia].
Qed.

Lemma current_negative (value : Z) :
  0 <= value < 40000 ->
  F32.ltb (float_of_double (current_formula value)) F32.zero = true.
Proof.
  intros Hv.
  destruct (current_formula_normal value ltac:(lia) ltac:(lia))
    as (m & e & E & _).
  rewrite E.
  replace (value <? 40000) with true by (symmetry; apply Z.ltb_lt; lia).
  reflexivity.
Qed.

Lemma current_positive (value : Z) :
  40000 < value < 65536 ->
  F32.ltb F32.zero (float_of_double (current_formula value)) = true.
Proof.
  intros Hv.
  destruct (current_formula_normal value ltac:(lia) ltac:(lia))
    as (m & e & E & _).
  rewrite E.
  replace (value <? 40000) with false by (symmetry; apply Z.ltb_ge; lia).
  reflexivity.
Qed.

(** *** Voltages written by the decoder *)

(** [value * 0.25] converted to [float] is a well-formed finite number. *)
Lemma voltage_formula_finite (value : Z) :
  0 <= value < 65536 ->
  let v := float_of_double (F64.mul (F64.of_Z value) d_quarter) in
  valid_float v = true /\ is_finite v = true.
Proof.
  intros Hv v. unfold v.
  destruct (Z.eq_dec value 0) as [->|Hne]; [split; reflexivity|].
  assert (Hk : 0 < Z.abs value < 65536) by lia.
  pose proof (log2_uint _ Hk) as Hl.
  assert (H0 : normal_in 53 (value <? 0) 1 17 (F64.of_Z value)).
  { eapply normal_in_weaken;
      [apply (of_Z_normal 53 1024); unfold emin; lia | lia | lia]. }
  pose proof (SFmul_normal 53 1024 ltac:(lia) _ _ _ _ _ _ _ _
                H0 d_quarter_normal) as H1.
  specialize (H1 ltac:(unfold emin; lia) ltac:(lia)).
  pose proof (convert_normal 24 128 ltac:(lia) 53 _ _ _ _ H1) as H2.
  specialize (H2 ltac:(unfold emin; lia) ltac:(lia)).
  apply (normal_in_valid _ _ _ _ H2); lia.
Qed.

(** *** Byte pairs *)

Lemma be16_range (hi lo : Z) : uint16_range (be16 hi lo).
Proof.
  unfold be16, to_uint16, uint16_range. apply Z.mod_pos_bound. lia.
Qed.

Lemma byte_bits_above (lo n : Z) :
  uint8_range lo -> 8 <= n -> Z.testbit lo n = false.
Proof.
  unfold uint8_range. intros Hlo Hn.
  destruct (Z.eq_dec lo 0) as [->|Hne]; [apply Z.testbit_0_l|].
  apply Z.bits_above_log2; [lia|].
  assert (Z.log2 lo < 8) by (apply Z.log2_lt_pow2; lia). lia.
Qed.

(** For two bytes, [(hi << 8 | lo)] is the big-endian number [256*hi + lo]. *)
Lemma be16_bytes (hi lo : Z) :
  uint8_range hi -> uint8_range lo -> be16 hi lo = 256 * hi + lo.
Proof.
  intros Hhi Hlo.
  assert (Hland : Z.land (Z.shiftl hi 8) lo = 0).
  { apply Z.bits_inj'. intros n Hn.
    rewrite Z.land_spec, Z.testbit_0_l.
    destruct (Z.lt_ge_cases n 8) as [Hlt|Hge].
    - rewrite Z.shiftl_spec_low by assumption. reflexivity.
    - rewrite (byte_bits_above lo n Hlo Hge). apply andb_false_r. }
  unfold be16, to_uint16.
  rewrite <- Z.lxor_lor, <- Z.add_nocarry_lxor by assumption.
  rewrite Z.shiftl_mul_pow2 by lia.
  unfold uint8_range in *. change (2 ^ 8) with 256.
  rewrite Z.mod_small by lia. lia.
Qed.

Lemma frame_ok_byte (n : nat) (data : list Z) (i : nat) :
  frame_ok n data -> uint8_range (byte_at data i).
Proof.
  intros [_ H]. unfold byte_at.
  destruct (Nat.lt_ge_cases i (List.length data)) as [Hi|Hi].
  - apply (proj1 (Forall_forall _ _) H). now apply nth_In.
  - rewrite nth_overflow by assumption. unfold uint8_range. lia.
Qed.

(** *** Cell temperatures are exact *)

Lemma denotesb_denotes (x : spec_float) (q : Q) :
  denotesb x q = true -> denotes x q.
Proof.
  unfold denotesb, denotes. destruct (SF2Q x) as [v|]; [|discriminate].
  intros H. exists v. split; [reflexivity | now apply Qeq_bool_iff].
Qed.

Lemma cell_temp_exact_all :
  forall_from 0 (Z.to_nat 256)
    (fun raw => denotesb (cell_temp raw) (inject_Z raw * (1 # 2) - 40))
  = true.
Proof. vm_compute. reflexivity. Qed.

(** [raw * 0.5f - 40.0f] is computed without rounding error. *)
Lemma cell_temp_exact (raw : Z) :
  uint8_range raw -> denotes (cell_temp raw) (inject_Z raw * (1 # 2) - 40).
Proof.
  intros H. apply denotesb_denotes.
  apply (forall_from_spec (Z.to_nat 256) _ 0 cell_temp_exact_all).
  unfold uint8_range in H. lia.
Qed.

(** *** The dispatch *)

Lemma pid_neq (t : PidTable) (i j : nat) :
  pids_distinct t -> (i < 17)%nat -> (j < 17)%nat -> i <> j ->
  nth i (allPids t) 0 <> nth j (allPids t) 0.
Proof.
  intros H Hi Hj Hij E. apply Hij.
  exact (proj1 (NoDup_nth (allPids t) 0) H i j Hi Hj E).
Qed.

Ltac pid_index a l :=
  lazymatch l with
  | a :: _ => constr:(O)
  | _ :: ?r => let k := pid_index a r in constr:(S k)
  end.

(** Decides the comparisons between distinct labels of the [switch]. *)
Ltac pid_eqb_false t H :=
  let l := eval cbv [allPids cellStatPids scalarPids app] in (allPids t) in
  repeat match goal with
  | |- context [?a =? ?b] =>
      let i := pid_index a l in
      let j := pid_index b l in
      let E := fresh "E" in
      assert (E : (a =? b) = false)
        by (apply Z.eqb_neq; apply (pid_neq t i j H); lia);
      rewrite E; clear E
  end.

Ltac break_if :=
  match goal with
  | |- context [if ?c then _ else _] => destruct c eqn:?
  end.

(** The [n]-th cell-block PID selects [ProcessBatteryStats] at index [n]. *)
Lemma IncomingBmsPoll_cell (t : PidTable) (i : nat) data len remain st :
  pids_distinct t -> (i < 9)%nat ->
  IncomingBmsPoll t (nth i (cellStatPids t) 0) data len remain st =
  ProcessBatteryStats i data remain st.
Proof.
  intros H Hi. unfold IncomingBmsPoll.
  do 9 (destruct i as [|i];
        [cbv [nth cellStatPids]; pid_eqb_false t H;
         rewrite Z.eqb_refl; reflexivity|]).
  lia.
Qed.

Lemma IncomingBmsPoll_busVoltage (t : PidTable) data len remain st :
  pids_distinct t ->
  IncomingBmsPoll t (batteryBusVoltagePid t) data len remain st =
  let value := be16 (byte_at data 0) (byte_at data 1) in
  if negb (value =? 0xfffe) then
    set_ms_v_bat_voltage
      (float_of_double (F64.mul (F64.of_Z value) d_quarter)) st
  else
    set_ms_v_bat_voltage (m_bat_pack_voltage st) st.
Proof.
  intros H. unfold IncomingBmsPoll.
  pid_eqb_false t H. rewrite Z.eqb_refl. reflexivity.
Qed.

Lemma IncomingBmsPoll_current (t : PidTable) data len remain st :
  pids_distinct t ->
  IncomingBmsPoll t (batteryCurrentPid t) data len remain st =
  let current := current_formula (be16 (byte_at data 0) (byte_at data 1)) in
  let st := set_ms_v_bat_current (float_of_double current) st in
  let power := F64.mul (double_of_float (ms_v_bat_voltage st)) current in
  let power := F64.div (F64.opp power) (F64.of_Z 1000) in
  set_ms_v_bat_power (float_of_double power) st.
Proof.
  intros H. unfold IncomingBmsPoll.
  pid_eqb_false t H. rewrite Z.eqb_refl. reflexivity.
Qed.

Lemma IncomingBmsPoll_soc (t : PidTable) data len remain st :
  pids_distinct t ->
  IncomingBmsPoll t (batterySoCPid t) data len remain st =
  let value := be16 (byte_at data 0) (byte_at data 1) in
  let st := set_m_soc_raw (F32.div (F32.of_Z value) f_10) st in
  let scaledSoc := calculateSoc value st in
  let st :=
    if ms_v_charge_inprogress st then
      if F64.ltb (double_of_float scaledSoc) d_99_5
      then set_ms_v_charge_state "charging" st
      else set_ms_v_charge_state "topoff" st
    else st in
  let st := set_ms_v_bat_soc scaledSoc st in
  set_ms_v_bat_range_ideal
    (F32.mul (F32.of_Z 262) (F32.div scaledSoc f_100)) st.
Proof.
  intros H. unfold IncomingBmsPoll.
  pid_eqb_false t H. rewrite Z.eqb_refl. reflexivity.
Qed.

Lemma IncomingBmsPoll_bmsStatus (t : PidTable) data len remain st :
  pids_distinct t ->
  IncomingBmsPoll t (bmsStatusPid t) data len remain st =
  SetBmsStatus (byte_at data 0) st.
Proof.
  intros H. unfold IncomingBmsPoll.
  pid_eqb_false t H. rewrite Z.eqb_refl. reflexivity.
Qed.

(** A PID that is no label of the [switch] is ignored. *)
Lemma IncomingBmsPoll_unknown (t : PidTable) pid data len remain st :
  ~ In pid (allPids t) ->
  IncomingBmsPoll t pid data len remain st = st.
Proof.
  intros H. unfold IncomingBmsPoll.
  cbv [allPids cellStatPids scalarPids app In] in H.
  repeat match goal with
  | |- context [pid =? ?x] =>
      let E := fresh "E" in
      assert (E : (pid =? x) = false)
        by (apply Z.eqb_neq; intros ->; apply H; tauto);
      rewrite E; clear E
  end. reflexivity.
Qed.

(** *** The voltage metrics stay finite *)

Lemma IncomingBmsPoll_voltages_finite
    (t : PidTable) (pid : Z) (data : list Z) (len remain : Z) (st : State) :
  voltages_finite st ->
  voltages_finite (IncomingBmsPoll t pid data len remain st).
Proof.
  intros [Hbus Hpack].
  pose proof (be16_range (byte_at data 0) (byte_at data 1)) as Hr.
  pose proof (voltage_formula_finite _ Hr) as Hnew. cbv zeta in Hnew.
  unfold IncomingBmsPoll.
  repeat match goal with
  | |- context [pid =? ?x] => destruct (pid =? x)
  end;
  unfold ProcessBatteryStats, SetBmsStatus;
  repeat break_if; split; assumption.
Qed.

Lemma reachable_voltages_finite (t : PidTable) (st : State) :
  reachable t st -> voltages_finite st.
Proof.
  induction 1 as [|st pid data len remain _ IH].
  - repeat split.
  - now apply IncomingBmsPoll_voltages_finite.
Qed.

(** With a current of 0.0 the power [-(voltage * current) / 1000] is a
    zero, whatever finite voltage is read. *)
Lemma zero_current_power (v : F32.t) :
  valid_float v = true -> is_finite v = true ->
  let power :=
    float_of_double
      (F64.div (F64.opp (F64.mul (double_of_float v) (S754_zero false)))
               (F64.of_Z 1000)) in
  is_zero power = true /\ F32.eqb power F32.zero = true.
Proof.
  intros Hv Hfin.
  pose proof (double_of_float_finite v Hv Hfin) as Hd64.
  change (F64.of_Z 1000) with (S754_finite false 8796093022208000 (-43)).
  destruct (double_of_float v) as [s|s| |s m e];
    try discriminate; destruct s; split; reflexivity.
Qed.

(** ** The sample PIDs *)

Lemma sample_pids_distinct : pids_distinct sample_pids.
Proof.
  unfold pids_distinct. cbv [sample_pids allPids cellStatPids scalarPids app
    cell1StatPid cell2StatPid cell3StatPid cell4StatPid cell5StatPid
    cell6StatPid cell7StatPid cell8StatPid cell9StatPid
    batteryBusVoltagePid batteryCurrentPid batteryVoltagePid batterySoCPid
    bmsStatusPid batteryCoolantTempPid batterySoHPid bmsRangePid].
  repeat (constructor; [cbv [In]; intuition discriminate|]).
  constructor.
Defined.

(** ** Properties of the decoder *)

(** C1: for every two-frame sequence for one block index -- a frame with
    [remain] nonzero, then a frame with [remain] zero -- the first frame
    caches [data[2]], and afterwards the cell values at that index are
    vmin = ((data[0] << 8 | data[1]) / 2000) + 1.0 from the first frame,
    vmax = (((cached byte << 8) | data[0]) / 2000) + 1.0,
    tmin = data[1] * 0.5 - 40 and tmax = data[2] * 0.5 - 40 from the second
    frame; the two byte pairs are the big-endian numbers and the two
    temperatures are free of rounding error. *)
Theorem C1_two_frame_cell_values :
  forall (index : nat) (d1 d2 : list Z) (remain : Z) (st : State),
    remain <> 0 -> frame_ok 3 d1 -> frame_ok 3 d2 ->
    let st1 := ProcessBatteryStats index d1 remain st in
    let st2 := ProcessBatteryStats index d2 0 st1 in
    let vmin := be16 (byte_at d1 0) (byte_at d1 1) in
    let vmax := be16 (byte_at d1 2) (byte_at d2 0) in
    let tmin := byte_at d2 1 in
    let tmax := byte_at d2 2 in
    m_bmsCache st1 = byte_at d1 2 /\
    vmin = 256 * byte_at d1 0 + byte_at d1 1 /\
    vmax = 256 * byte_at d1 2 + byte_at d2 0 /\
    nth_error (ms_v_bat_cell_vmin st2) index =
      Some (F32.add (F32.div (F32.of_Z vmin) (F32.of_Z 2000)) (F32.of_Z 1)) /\
    nth_error (ms_v_bat_cell_vmax st2) index =
      Some (F32.add (F32.div (F32.of_Z vmax) (F32.of_Z 2000)) (F32.of_Z 1)) /\
    nth_error (ms_v_bat_cell_tmin st2) index =
      Some (F32.sub (F32.mul (F32.of_Z tmin) (F32.lit 1 (-1))) (F32.of_Z 40)) /\
    nth_error (ms_v_bat_cell_tmax st2) index =
      Some (F32.sub (F32.mul (F32.of_Z tmax) (F32.lit 1 (-1))) (F32.of_Z 40)) /\
    denotes (F32.sub (F32.mul (F32.of_Z tmin) (F32.lit 1 (-1))) (F32.of_Z 40))
            (inject_Z tmin * (1 # 2) - 40) /\
    denotes (F32.sub (F32.mul (F32.of_Z tmax) (F32.lit 1 (-1))) (F32.of_Z 40))
            (inject_Z tmax * (1 # 2) - 40).
Proof.
  intros index d1 d2 remain st Hr H1 H2 st1 st2 vmin vmax tmin tmax.
  assert (E1 : st1 =
    let s := set_m_bmsCache (byte_at d1 2) st in
    let s := set_ms_v_bat_cell_vmin
               (SetElemValue index (cell_volts vmin)
                  (ms_v_bat_cell_vmin s)) s in
    set_ms_v_bat_pack_vmin (deref (min_element (ms_v_bat_cell_vmin s))) s).
  { unfold st1, ProcessBatteryStats.
    apply Z.eqb_neq in Hr. rewrite Hr. reflexivity. }
  repeat split.
  - rewrite E1. reflexivity.
  - apply be16_bytes; eapply frame_ok_byte; eassumption.
  - apply be16_bytes; eapply frame_ok_byte; eassumption.
  - unfold st2, ProcessBatteryStats. cbn [Z.eqb negb]. rewrite E1.
    state_simpl. apply SetElemValue_nth_error.
  - unfold st2, ProcessBatteryStats. cbn [Z.eqb negb]. rewrite E1.
    state_simpl. apply SetElemValue_nth_error.
  - unfold st2, ProcessBatteryStats. cbn [Z.eqb negb].
    state_simpl. apply SetElemValue_nth_error.
  - unfold st2, ProcessBatteryStats. cbn [Z.eqb negb].
    state_simpl. apply SetElemValue_nth_error.
  - apply (cell_temp_exact tmin). eapply frame_ok_byte; eassumption.
  - apply (cell_temp_exact tmax). eapply frame_ok_byte; eassumption.
Qed.

Lemma C1_two_frame_cell_values_witness :
  let st2 :=
    ProcessBatteryStats 3 [154; 120; 124; 0] 0
      (ProcessBatteryStats 3 [16; 104; 16; 0] 4 init_state) in
  nth_error (ms_v_bat_cell_vmin st2) 3 =
    Some (F32.add (F32.div (F32.of_Z 4200) (F32.of_Z 2000)) (F32.of_Z 1)) /\
  nth_error (ms_v_bat_cell_vmax st2) 3 =
    Some (F32.add (F32.div (F32.of_Z 4250) (F32.of_Z 2000)) (F32.of_Z 1)) /\
  denotes (F32.sub (F32.mul (F32.of_Z 120) (F32.lit 1 (-1))) (F32.of_Z 40))
          (inject_Z 120 * (1 # 2) - 40) /\
  denotes (F32.sub (F32.mul (F32.of_Z 124) (F32.lit 1 (-1))) (F32.of_Z 40))
          (inject_Z 124 * (1 # 2) - 40).
Proof.
  assert (Hr : 4 <> 0) by discriminate.
  assert (H1 : frame_ok 3 [16; 104; 16; 0]).
  { split; [simpl; lia | repeat constructor; unfold uint8_range; lia]. }
  assert (H2 : frame_ok 3 [154; 120; 124; 0]).
  { split; [simpl; lia | repeat constructor; unfold uint8_range; lia]. }
  destruct (C1_two_frame_cell_values 3 _ _ 4 init_state Hr H1 H2)
    as (_ & _ & _ & Hvmin & Hvmax & _ & _ & Htmin & Htmax).
  intros st2.
  split; [exact Hvmin|]. split; [exact Hvmax|].
  split; [exact Htmin | exact Htmax].
Defined.

(** C2: after every cell-block update the pack-level extreme recomputed by
    that update is the extreme of the full cell vector, whatever indices
    were written before: a min-frame leaves pack vmin = min_element of the
    cell vmin vector; a max-frame leaves pack vmax = max_element of cell
    vmax, pack tmin = min_element of cell tmin and pack tmax = max_element
    of cell tmax.  The searched ranges are never empty, and on vectors free
    of NaN the selected value is an element that bounds all elements. *)
Theorem C2_pack_extremes :
  forall (index : nat) (data : list Z) (remain : Z) (st : State),
    let st' := ProcessBatteryStats index data remain st in
    (remain <> 0 ->
       min_element (ms_v_bat_cell_vmin st') = Some (ms_v_bat_pack_vmin st') /\
       (no_nan (ms_v_bat_cell_vmin st) ->
        is_minimum (ms_v_bat_pack_vmin st') (ms_v_bat_cell_vmin st'))) /\
    (remain = 0 ->
       max_element (ms_v_bat_cell_vmax st') = Some (ms_v_bat_pack_vmax st') /\
       min_element (ms_v_bat_cell_tmin st') = Some (ms_v_bat_pack_tmin st') /\
       max_element (ms_v_bat_cell_tmax st') = Some (ms_v_bat_pack_tmax st') /\
       (no_nan (ms_v_bat_cell_vmax st) ->
        is_maximum (ms_v_bat_pack_vmax st') (ms_v_bat_cell_vmax st')) /\
       (no_nan (ms_v_bat_cell_tmin st) ->
        is_minimum (ms_v_bat_pack_tmin st') (ms_v_bat_cell_tmin st')) /\
       (no_nan (ms_v_bat_cell_tmax st) ->
        is_maximum (ms_v_bat_pack_tmax st') (ms_v_bat_cell_tmax st'))).
Proof.
  intros index data remain st st'. split.
  - intros Hr. apply Z.eqb_neq in Hr.
    assert (E : min_element (ms_v_bat_cell_vmin st') =
                Some (ms_v_bat_pack_vmin st')).
    { unfold st', ProcessBatteryStats. rewrite Hr. state_simpl.
      apply min_element_SetElemValue. }
    split; [exact E|]. intros Hn.
    apply min_element_is_minimum; [|exact E].
    unfold st', ProcessBatteryStats. rewrite Hr. state_simpl.
    apply no_nan_SetElemValue; [apply cell_volts_not_nan | exact Hn].
  - intros ->.
    assert (E1 : max_element (ms_v_bat_cell_vmax st') =
                 Some (ms_v_bat_pack_vmax st')).
    { unfold st', ProcessBatteryStats. cbn [Z.eqb negb]. state_simpl.
      apply max_element_SetElemValue. }
    assert (E2 : min_element (ms_v_bat_cell_tmin st') =
                 Some (ms_v_bat_pack_tmin st')).
    { unfold st', ProcessBatteryStats. cbn [Z.eqb negb]. state_simpl.
      apply min_element_SetElemValue. }
    assert (E3 : max_element (ms_v_bat_cell_tmax st') =
                 Some (ms_v_bat_pack_tmax st')).
    { unfold st', ProcessBatteryStats. cbn [Z.eqb negb]. state_simpl.
      apply max_element_SetElemValue. }
    split; [exact E1|]. split; [exact E2|]. split; [exact E3|].
    split; [|split]; intros Hn.
    + apply max_element_is_maximum; [|exact E1].
      unfold st', ProcessBatteryStats. cbn [Z.eqb negb]. state_simpl.
      apply no_nan_SetElemValue; [apply cell_volts_not_nan | exact Hn].
    + apply min_element_is_minimum; [|exact E2].
      unfold st', ProcessBatteryStats. cbn [Z.eqb negb]. state_simpl.
      apply no_nan_SetElemValue; [apply cell_temp_not_nan | exact Hn].
    + apply max_element_is_maximum; [|exact E3].
      unfold st', ProcessBatteryStats. cbn [Z.eqb negb]. state_simpl.
      apply no_nan_SetElemValue; [apply cell_temp_not_nan | exact Hn].
Qed.

Lemma C2_pack_extremes_witness :
  let st' := ProcessBatteryStats 2 [16; 150; 16; 0] 4 two_blocks_state in
  min_element (ms_v_bat_cell_vmin st') = Some (ms_v_bat_pack_vmin st') /\
  is_minimum (ms_v_bat_pack_vmin st') (ms_v_bat_cell_vmin st').
Proof.
  intros st'.
  destruct (C2_pack_extremes 2 [16; 150; 16; 0] 4 two_blocks_state)
    as [Hmin _].
  destruct (Hmin ltac:(discriminate)) as [E Hm].
  split; [exact E|]. apply Hm.
  vm_compute. repeat constructor.
Defined.

(** The vector a pack extreme is taken over includes the fill values of
    blocks that were never written: after a min-frame for block 5 alone the
    pack minimum is the fill value 0.0, not the voltage of block 5. *)
Example pack_vmin_counts_unwritten_blocks :
  let st' := ProcessBatteryStats 5 [16; 104; 16; 0] 4 init_state in
  nth_error (ms_v_bat_cell_vmin st') 5 = Some (cell_volts 4200) /\
  List.length (ms_v_bat_cell_vmin st') = 6%nat /\
  ms_v_bat_pack_vmin st' = F32.zero.
Proof. vm_compute. repeat split. Qed.

(** C3: for every status byte other than 0x6 (Charging), 0x7 (CcsCharging)
    and 0xC (StartingCharge): when a charge is in progress the transition
    sets the charge type to "not charging", the charge state to "done" if
    SOC >= 97.0 and to "stopped" otherwise, and clears the in-progress
    flag, touching nothing else; when no charge is in progress the
    transition changes nothing. *)
Theorem C3_other_status_ends_charge :
  forall (status : Z) (st : State),
    status <> Charging -> status <> CcsCharging -> status <> StartingCharge ->
    let st' := SetBmsStatus status st in
    let soc_ge_97 :=
      F64.leb (F64.of_Z 97) (double_of_float (ms_v_bat_soc st)) in
    (ms_v_charge_inprogress st = true ->
       ms_v_charge_type st' = "not charging"%string /\
       ms_v_charge_state st' =
         (if soc_ge_97 then "done" else "stopped")%string /\
       ms_v_charge_inprogress st' = false /\
       st' = set_ms_v_charge_inprogress false
               (set_ms_v_charge_state
                  (if soc_ge_97 then "done" else "stopped")
                  (set_ms_v_charge_type "not charging" st))) /\
    (ms_v_charge_inprogress st = false -> st' = st).
Proof.
  intros status st H6 H7 Hc st' soc.
  apply Z.eqb_neq in H6, H7, Hc.
  unfold st', soc, SetBmsStatus. rewrite H6, H7, Hc. cbn [orb].
  change d_97 with (F64.of_Z 97).
  split; intros Hp; rewrite Hp; [|reflexivity].
  state_simpl.
  destruct (F64.leb (F64.of_Z 97) (double_of_float _)); repeat split.
Qed.

Lemma C3_other_status_ends_charge_witness :
  let st' := SetBmsStatus Idle (charging_at (F32.of_Z 98)) in
  ms_v_charge_type st' = "not charging"%string /\
  ms_v_charge_state st' = "done"%string /\
  ms_v_charge_inprogress st' = false.
Proof.
  intros st'.
  destruct (C3_other_status_ends_charge Idle (charging_at (F32.of_Z 98))
              ltac:(vm_compute; lia) ltac:(vm_compute; lia)
              ltac:(vm_compute; lia))
    as [Hon _].
  destruct (Hon eq_refl) as (Ht & Hs & Hp & _).
  split; [exact Ht|]. split; [exact Hs | exact Hp].
Defined.

(** The same status at SOC 50.0 stops the charge. *)
Example idle_at_soc_50_stops :
  let st' := SetBmsStatus Idle (charging_at (F32.of_Z 50)) in
  ms_v_charge_state st' = "stopped"%string /\
  ms_v_charge_inprogress st' = false.
Proof. vm_compute. split; reflexivity. Qed.

(** C4: whatever the prior state, status 0x7 (CcsCharging) sets charge
    in-progress to true, the charge type to "ccs", the charge current to
    the negated battery current, the charge power to the battery power,
    the charge voltage to the battery voltage and the charge current limit
    to 82 A; nothing else changes. *)
Theorem C4_ccs_charging :
  forall (st : State),
    let st' := SetBmsStatus CcsCharging st in
    ms_v_charge_inprogress st' = true /\
    ms_v_charge_type st' = "ccs"%string /\
    ms_v_charge_current st' = F32.opp (ms_v_bat_current st) /\
    ms_v_charge_power st' = ms_v_bat_power st /\
    ms_v_charge_voltage st' = ms_v_bat_voltage st /\
    ms_v_charge_climit st' = F32.of_Z 82 /\
    denotes (ms_v_charge_climit st') 82 /\
    st' = set_ms_v_charge_voltage (ms_v_bat_voltage st)
            (set_ms_v_charge_climit (F32.of_Z 82)
               (set_ms_v_charge_power (ms_v_bat_power st)
                  (set_ms_v_charge_current (F32.opp (ms_v_bat_current st))
                     (set_ms_v_charge_type "ccs"
                        (set_ms_v_charge_inprogress true st))))).
Proof.
  intros st st'. unfold st', SetBmsStatus.
  cbn [Z.eqb orb CcsCharging StartingCharge Charging Pos.eqb].
  state_simpl. repeat split.
  apply denotesb_denotes. vm_compute. reflexivity.
Qed.

(** C5: for every raw uint16 reading the scaled SOC is
    (raw - lower) * 100 / (upper - lower), with (lower, upper) = (25, 940)
    when the "updated BMU firmware" parameter is enabled (or unset: it
    defaults to true) and (60, 970) when it is disabled.  Nothing is
    clamped: the result is exactly 0.0 at raw = lower and 100.0 at
    raw = upper, below 0 for every raw below the window and above 100 for
    every raw above it (and within [0, 100] inside the window). *)
Theorem C5_calculateSoc_unclamped :
  forall (raw : Z) (st : State),
    uint16_range raw ->
    let enabled := GetParamValueBool (xmg_updatedbmu st) true in
    let lower := if enabled then 25 else 60 in
    let upper := if enabled then 940 else 970 in
    let soc := calculateSoc raw st in
    soc = F32.div (F32.mul (F32.of_Z (raw - lower)) (F32.of_Z 100))
                  (F32.of_Z (upper - lower)) /\
    (raw = lower -> soc = F32.zero) /\
    (raw = upper -> soc = F32.of_Z 100 /\ denotes soc 100) /\
    (raw < lower -> F32.ltb soc F32.zero = true) /\
    (upper < raw -> F32.ltb (F32.of_Z 100) soc = true) /\
    (lower <= raw <= upper ->
       F32.leb F32.zero soc = true /\ F32.leb soc (F32.of_Z 100) = true).
Proof.
  intros raw st Hraw enabled lower upper soc.
  pose proof (soc_in_place_window raw st Hraw) as Hplace.
  assert (Hw : soc_window st = (lower, upper)).
  { unfold soc_window, lower, upper, enabled.
    now destruct (GetParamValueBool (xmg_updatedbmu st) true). }
  assert (Hf : soc = soc_formula lower upper raw).
  { unfold soc. rewrite calculateSoc_formula, Hw. reflexivity. }
  rewrite Hw in Hplace. cbn [fst snd] in Hplace. fold soc in Hplace.
  unfold soc_in_place in Hplace.
  change (S754_finite false 13107200 (-17)) with (F32.of_Z 100) in Hplace.
  split; [exact Hf|].
  split; [|split; [|split; [|split]]].
  - intros E. rewrite Hf, E. unfold lower, upper.
    destruct enabled; vm_compute; reflexivity.
  - intros E. rewrite Hf, E. unfold lower, upper.
    destruct enabled; (split; [vm_compute; reflexivity|]);
      apply denotesb_denotes; vm_compute; reflexivity.
  - intros Hlt. apply Z.ltb_lt in Hlt. now rewrite Hlt in Hplace.
  - intros Hgt.
    assert (Hl : (raw <? lower) = false)
      by (apply Z.ltb_ge; unfold lower, upper in *; destruct enabled; lia).
    apply Z.ltb_lt in Hgt. now rewrite Hl, Hgt in Hplace.
  - intros [Hl Hu]. apply Z.ltb_ge in Hl, Hu.
    rewrite Hl, Hu in Hplace. now apply andb_prop in Hplace.
Qed.

Lemma C5_calculateSoc_unclamped_witness :
  calculateSoc 1000 old_bmu_state =
    F32.div (F32.mul (F32.of_Z (1000 - 60)) (F32.of_Z 100))
            (F32.of_Z (970 - 60)) /\
  F32.ltb (F32.of_Z 100) (calculateSoc 1000 old_bmu_state) = true.
Proof.
  assert (Hraw : uint16_range 1000) by (unfold uint16_range; lia).
  destruct (C5_calculateSoc_unclamped 1000 old_bmu_state Hraw)
    as (Hf & _ & _ & _ & Habove & _).
  split; [exact Hf|]. apply Habove. vm_compute. reflexivity.
Defined.

(** The four documented points. *)
Example scaleSoc_documented_points :
  calculateSoc 25 init_state = F32.zero /\
  calculateSoc 940 init_state = F32.of_Z 100 /\
  calculateSoc 60 old_bmu_state = F32.zero /\
  calculateSoc 970 old_bmu_state = F32.of_Z 100.
Proof. vm_compute. repeat split. Qed.

(** C6: on a bus-voltage frame with big-endian raw value 0xFFFE (bus off)
    the battery-voltage metric takes the current value of the internal
    pack-voltage metric; for every other raw value it is set to
    raw * 0.25 V.  Nothing else changes. *)
Theorem C6_bus_voltage :
  forall (t : PidTable) (data : list Z) (len remain : Z) (st : State),
    pids_distinct t ->
    let raw := be16 (byte_at data 0) (byte_at data 1) in
    let st' := IncomingBmsPoll t (batteryBusVoltagePid t) data len remain st in
    (raw = 0xfffe ->
       ms_v_bat_voltage st' = m_bat_pack_voltage st /\
       st' = set_ms_v_bat_voltage (m_bat_pack_voltage st) st) /\
    (raw <> 0xfffe ->
       ms_v_bat_voltage st' =
         float_of_double (F64.mul (F64.of_Z raw) (F64.lit 1 (-2))) /\
       st' = set_ms_v_bat_voltage
               (float_of_double (F64.mul (F64.of_Z raw) (F64.lit 1 (-2)))) st).
Proof.
  intros t data len remain st Hd raw st'.
  unfold st'. rewrite (IncomingBmsPoll_busVoltage t data len remain st Hd).
  cbv zeta. fold raw. split.
  - intros E. rewrite E. cbn [Z.eqb Pos.eqb negb]. split; reflexivity.
  - intros E. apply Z.eqb_neq in E. rewrite E. cbn [negb].
    split; reflexivity.
Qed.

Lemma C6_bus_voltage_witness :
  ms_v_bat_voltage
    (IncomingBmsPoll sample_pids (batteryBusVoltagePid sample_pids)
       [255; 254] 2 0 pack_400V_state)
  = m_bat_pack_voltage pack_400V_state /\
  ms_v_bat_voltage
    (IncomingBmsPoll sample_pids (batteryBusVoltagePid sample_pids)
       [6; 60] 2 0 pack_400V_state)
  = float_of_double (F64.mul (F64.of_Z 1596) (F64.lit 1 (-2))).
Proof.
  split.
  - apply (C6_bus_voltage sample_pids [255; 254] 2 0 pack_400V_state
             sample_pids_distinct). vm_compute. reflexivity.
  - apply (C6_bus_voltage sample_pids [6; 60] 2 0 pack_400V_state
             sample_pids_distinct). vm_compute. discriminate.
Defined.

(** The substituted value is the pack voltage, 400.0 V here, and the
    converted value is exact. *)
Example bus_voltage_values :
  denotes (m_bat_pack_voltage pack_400V_state) 400 /\
  denotes (float_of_double (F64.mul (F64.of_Z 1596) (F64.lit 1 (-2)))) 399 /\
  denotes (float_of_double (F64.mul (F64.of_Z 0xfffe) (F64.lit 1 (-2))))
          (32767 # 2).
Proof.
  repeat split; apply denotesb_denotes; vm_compute; reflexivity.
Qed.

(** C7: on a current frame with big-endian raw value [raw] the
    battery-current metric is set to ((raw - 40000) * 0.25) / 10 A, the
    subtraction being signed, so that every raw below 40000 gives a
    negative current (and every raw above it a positive one), and the
    battery-power metric is set to -(battery voltage * current) / 1000 kW.
    At raw = 40000 the current is 0.0 A and the power is zero for every
    finite battery voltage, hence in every state the decoder reaches. *)
Theorem C7_current_and_power :
  forall (t : PidTable) (data : list Z) (len remain : Z) (st : State),
    pids_distinct t ->
    let raw := be16 (byte_at data 0) (byte_at data 1) in
    let st' := IncomingBmsPoll t (batteryCurrentPid t) data len remain st in
    let current :=
      F64.div (F64.mul (F64.of_Z (raw - 40000)) (F64.lit 1 (-2)))
              (F64.of_Z 10) in
    ms_v_bat_current st' = float_of_double current /\
    ms_v_bat_power st' =
      float_of_double
        (F64.div
           (F64.opp (F64.mul (double_of_float (ms_v_bat_voltage st)) current))
           (F64.of_Z 1000)) /\
    (raw < 40000 -> F32.ltb (ms_v_bat_current st') F32.zero = true) /\
    (40000 < raw -> F32.ltb F32.zero (ms_v_bat_current st') = true) /\
    (raw = 40000 ->
       ms_v_bat_current st' = F32.zero /\
       (valid_float (ms_v_bat_voltage st) = true ->
        is_finite (ms_v_bat_voltage st) = true ->
        is_zero (ms_v_bat_power st') = true /\
        F32.eqb (ms_v_bat_power st') F32.zero = true) /\
       (reachable t st ->
        is_zero (ms_v_bat_power st') = true /\
        F32.eqb (ms_v_bat_power st') F32.zero = true)).
Proof.
  intros t data len remain st Hd raw st' current.
  assert (E : st' =
    set_ms_v_bat_power
      (float_of_double
         (F64.div
            (F64.opp (F64.mul (double_of_float (ms_v_bat_voltage st)) current))
            (F64.of_Z 1000)))
      (set_ms_v_bat_current (float_of_double current) st)).
  { unfold st'.
    rewrite (IncomingBmsPoll_current t data len remain st Hd). reflexivity. }
  assert (Ec : ms_v_bat_current st' = float_of_double current)
    by (rewrite E; reflexivity).
  assert (Ep : ms_v_bat_power st' =
    float_of_double
      (F64.div
         (F64.opp (F64.mul (double_of_float (ms_v_bat_voltage st)) current))
         (F64.of_Z 1000)))
    by (rewrite E; reflexivity).
  pose proof (be16_range (byte_at data 0) (byte_at data 1)) as Hr.
  unfold uint16_range in Hr. fold raw in Hr.
  split; [exact Ec|]. split; [exact Ep|]. split; [|split].
  - intros Hlt. rewrite Ec. apply (current_negative raw). lia.
  - intros Hgt. rewrite Ec. apply (current_positive raw). lia.
  - intros E0.
    assert (Hc0 : current = S754_zero false)
      by (unfold current; rewrite E0; vm_compute; reflexivity).
    split; [rewrite Ec, Hc0; reflexivity|].
    split.
    + intros Hv Hfin. rewrite Ep, Hc0.
      exact (zero_current_power _ Hv Hfin).
    + intros Hreach. rewrite Ep, Hc0.
      destruct (reachable_voltages_finite t st Hreach) as [[Hv Hfin] _].
      exact (zero_current_power _ Hv Hfin).
Qed.

Lemma C7_current_and_power_witness :
  let st' :=
    IncomingBmsPoll sample_pids (batteryCurrentPid sample_pids)
      [156; 64] 2 0 bus_399V_state in
  ms_v_bat_current st' = F32.zero /\
  is_zero (ms_v_bat_power st') = true /\
  F32.ltb
    (ms_v_bat_current
       (IncomingBmsPoll sample_pids (batteryCurrentPid sample_pids)
          [156; 63] 2 0 bus_399V_state))
    F32.zero = true.
Proof.
  intros st'.
  destruct (C7_current_and_power sample_pids [156; 64] 2 0 bus_399V_state
              sample_pids_distinct) as (_ & _ & _ & _ & Hzero).
  destruct (Hzero ltac:(vm_compute; reflexivity)) as (Hc & Hp & _).
  destruct (Hp ltac:(vm_compute; reflexivity) ltac:(vm_compute; reflexivity))
    as [Hz _].
  destruct (C7_current_and_power sample_pids [156; 63] 2 0 bus_399V_state
              sample_pids_distinct) as (_ & _ & Hneg & _).
  split; [exact Hc|]. split; [exact Hz|].
  apply Hneg. vm_compute. reflexivity.
Defined.

(** The power at zero current under an infinite voltage is not a number:
    finiteness of the voltage is needed, and no state the decoder reaches
    holds such a voltage ([reachable_voltages_finite]). *)
Example zero_current_power_needs_finite_voltage :
  let st := set_ms_v_bat_voltage (S754_infinity false) init_state in
  let st' :=
    IncomingBmsPoll sample_pids (batteryCurrentPid sample_pids)
      [156; 64] 2 0 st in
  ms_v_bat_power st' = S754_nan.
Proof. vm_compute. reflexivity. Qed.

(** Sample currents: raw 0 is -1000 A, raw 65535 is 638.375 A. *)
Example current_values :
  denotes (float_of_double (current_formula 0)) (-1000) /\
  denotes (float_of_double (current_formula 65535)) (5107 # 8).
Proof.
  repeat split; apply denotesb_denotes; vm_compute; reflexivity.
Qed.

(** C8: an SOC frame sets soc_raw = raw / 10, bat_soc = the scaled SOC and
    range_ideal = 262 * (scaled SOC / 100), whether or not a charge is in
    progress.  When a charge is in progress the charge state becomes
    "charging" if the scaled SOC is below 99.5 and "topoff" otherwise; when
    none is in progress the charge state is left as it was.  The
    in-progress flag itself is not touched. *)
Theorem C8_soc_frame :
  forall (t : PidTable) (data : list Z) (len remain : Z) (st : State),
    pids_distinct t ->
    let raw := be16 (byte_at data 0) (byte_at data 1) in
    let st' := IncomingBmsPoll t (batterySoCPid t) data len remain st in
    let scaled := calculateSoc raw st in
    m_soc_raw st' = F32.div (F32.of_Z raw) (F32.of_Z 10) /\
    ms_v_bat_soc st' = scaled /\
    ms_v_bat_range_ideal st' =
      F32.mul (F32.of_Z 262) (F32.div scaled (F32.of_Z 100)) /\
    ms_v_charge_inprogress st' = ms_v_charge_inprogress st /\
    ms_v_charge_state st' =
      (if ms_v_charge_inprogress st then
         if F64.ltb (double_of_float scaled) (F64.lit 199 (-1))
         then "charging" else "topoff"
       else ms_v_charge_state st)%string.
Proof.
  intros t data len remain st Hd raw st' scaled.
  unfold st'. rewrite (IncomingBmsPoll_soc t data len remain st Hd).
  cbv zeta. fold raw.
  assert (Es : calculateSoc raw
                 (set_m_soc_raw (F32.div (F32.of_Z raw) f_10) st) = scaled)
    by reflexivity.
  rewrite !Es.
  change (ms_v_charge_inprogress
            (set_m_soc_raw (F32.div (F32.of_Z raw) f_10) st))
    with (ms_v_charge_inprogress st).
  change d_99_5 with (F64.lit 199 (-1)).
  destruct (ms_v_charge_inprogress st) eqn:Ep.
  - destruct (F64.ltb (double_of_float scaled) (F64.lit 199 (-1)));
      state_simpl; repeat split; exact Ep.
  - state_simpl; repeat split; exact Ep.
Qed.

Lemma C8_soc_frame_witness :
  let st := charging_at (F32.of_Z 50) in
  let st' :=
    IncomingBmsPoll sample_pids (batterySoCPid sample_pids) [3; 172] 2 0 st in
  ms_v_bat_soc st' = F32.of_Z 100 /\
  ms_v_charge_state st' = "topoff"%string /\
  ms_v_bat_range_ideal st' = F32.of_Z 262.
Proof.
  intros st st'.
  destruct (C8_soc_frame sample_pids [3; 172] 2 0 st sample_pids_distinct)
    as (_ & Hsoc & Hrange & _ & Hstate).
  split; [exact Hsoc|]. split; [exact Hstate | exact Hrange].
Defined.

(** Below the threshold the label is "charging"; with no charge in progress
    the label is kept. *)
Example soc_frame_labels :
  ms_v_charge_state
    (IncomingBmsPoll sample_pids (batterySoCPid sample_pids) [2; 38] 2 0
       (charging_at (F32.of_Z 50))) = "charging"%string /\
  ms_v_charge_state
    (IncomingBmsPoll sample_pids (batterySoCPid sample_pids) [3; 172] 2 0
       (set_ms_v_charge_state "done" init_state)) = "done"%string.
Proof. vm_compute. split; reflexivity. Qed.

(** A max-frame applied twice is a max-frame applied once. *)
Lemma ProcessBatteryStats_max_twice
    (index : nat) (data : list Z) (st : State) :
  ProcessBatteryStats index data 0 (ProcessBatteryStats index data 0 st) =
  ProcessBatteryStats index data 0 st.
Proof.
  unfold ProcessBatteryStats. cbn [Z.eqb negb]. state_simpl.
  rewrite !SetElemValue_idempotent. reflexivity.
Qed.

(** C9: a max-frame (remain = 0) dispatched twice for the same block with
    the same bytes decodes the same values both times: the second dispatch
    leaves the decoder in the state the first one produced, and neither
    changes the cache. *)
Theorem C9_max_frame_idempotent :
  forall (index : nat) (data : list Z) (st : State),
    let st1 := ProcessBatteryStats index data 0 st in
    let st2 := ProcessBatteryStats index data 0 st1 in
    st2 = st1 /\
    m_bmsCache st1 = m_bmsCache st /\
    nth_error (ms_v_bat_cell_vmax st2) index =
      nth_error (ms_v_bat_cell_vmax st1) index /\
    nth_error (ms_v_bat_cell_tmin st2) index =
      nth_error (ms_v_bat_cell_tmin st1) index /\
    nth_error (ms_v_bat_cell_tmax st2) index =
      nth_error (ms_v_bat_cell_tmax st1) index /\
    ms_v_bat_pack_vmax st2 = ms_v_bat_pack_vmax st1 /\
    ms_v_bat_pack_tmin st2 = ms_v_bat_pack_tmin st1 /\
    ms_v_bat_pack_tmax st2 = ms_v_bat_pack_tmax st1.
Proof.
  intros index data st st1 st2.
  assert (E : st2 = st1) by apply ProcessBatteryStats_max_twice.
  rewrite E. repeat split.
Qed.

(** The same through the dispatch, for each of the nine cell-block PIDs. *)
Lemma IncomingBmsPoll_max_frame_twice
    (t : PidTable) (i : nat) (data : list Z) (len : Z) (st : State) :
  pids_distinct t -> (i < 9)%nat ->
  let pid := nth i (cellStatPids t) 0 in
  IncomingBmsPoll t pid data len 0 (IncomingBmsPoll t pid data len 0 st) =
  IncomingBmsPoll t pid data len 0 st.
Proof.
  intros Hd Hi pid. unfold pid.
  rewrite !(IncomingBmsPoll_cell t i data len 0) by assumption.
  apply ProcessBatteryStats_max_twice.
Qed.

(** C10: the cross-frame cache [m_bmsCache] is written only by the
    min-frames of the cell-block PIDs (remain nonzero), which set it to
    [data[2]]; every other dispatch -- a max-frame, a scalar PID, the BMS
    status PID, an unknown PID -- leaves it as it was. *)
Theorem C10_cache_written_by_min_frames_only :
  forall (t : PidTable) (pid : Z) (data : list Z) (len remain : Z)
         (st : State),
    m_bmsCache (IncomingBmsPoll t pid data len remain st) =
    if existsb (Z.eqb pid) (cellStatPids t) && negb (remain =? 0)
    then byte_at data 2
    else m_bmsCache st.
Proof.
  intros t pid data len remain st.
  unfold IncomingBmsPoll, cellStatPids, existsb.
  repeat match goal with
  | |- context [pid =? ?x] => destruct (pid =? x); cbn [orb andb]
  end;
  unfold ProcessBatteryStats, SetBmsStatus;
  repeat break_if; reflexivity.
Qed.

(** The status transition itself never touches the cache. *)
Lemma SetBmsStatus_cache (status : Z) (st : State) :
  m_bmsCache (SetBmsStatus status st) = m_bmsCache st.
Proof.
  unfold SetBmsStatus. repeat break_if; reflexivity.
Qed.

(** ** The status transition *)

Lemma SetBmsStatus_inprogress (status : Z) (st : State) :
  ms_v_charge_inprogress (SetBmsStatus status st) = charging_status status.
Proof.
  unfold SetBmsStatus, charging_status.
  destruct (status =? StartingCharge), (status =? Charging),
    (status =? CcsCharging); cbn [orb]; try reflexivity.
  destruct (ms_v_charge_inprogress st) eqn:E; [|exact E].
  break_if; reflexivity.
Qed.

Lemma SetBmsStatus_idempotent (status : Z) (st : State) :
  SetBmsStatus status (SetBmsStatus status st) = SetBmsStatus status st.
Proof.
  destruct st as [a1 a2 a3 a4 a5 a6 a7 a8 a9 a10 a11 a12 a13 a14 soc a16 a17
                  a18 a19 inprogress a21 a22 a23 a24 a25 a26 bmu].
  unfold SetBmsStatus. state_simpl.
  destruct ((status =? StartingCharge) || (status =? Charging));
    [reflexivity|].
  destruct (status =? CcsCharging); [reflexivity|].
  destruct inprogress; [|reflexivity].
  destruct (F64.leb d_97 (double_of_float soc)); reflexivity.
Qed.

(** *** The labels in terms of the raw reading *)

Lemma soc_formula_large_normal (lowerlimit upperlimit value : Z) :
  normal_in 24 false 10 10 (F32.of_Z (upperlimit - lowerlimit)) ->
  2048 <= value - lowerlimit < 65536 ->
  normal_in 24 false 8 17 (soc_formula lowerlimit upperlimit value).
Proof.
  intros Hspan Hv. unfold soc_formula.
  assert (Hl : 11 <= Z.log2 (Z.abs (value - lowerlimit)) <= 15).
  { split.
    - apply Z.log2_le_pow2; [lia|]. change (2 ^ 11) with 2048. lia.
    - apply log2_uint. lia. }
  assert (H0 : normal_in 24 (value - lowerlimit <? 0) 12 17
                 (F32.of_Z (value - lowerlimit))).
  { eapply normal_in_weaken;
      [apply (of_Z_normal 24 128); unfold emin; lia | lia | lia]. }
  replace (value - lowerlimit <? 0) with false in H0
    by (symmetry; apply Z.ltb_ge; lia).
  pose proof (SFmul_normal 24 128 ltac:(lia) _ _ _ _ _ _ _ _
                H0 f_100_normal) as H1.
  specialize (H1 ltac:(unfold emin; lia) ltac:(lia)).
  pose proof (SFdiv_normal 24 128 ltac:(lia) _ _ _ _ _ _ _ _
                H1 Hspan) as H2.
  specialize (H2 ltac:(unfold emin; lia) ltac:(lia)).
  eapply normal_in_weaken; [exact H2 | lia | lia].
Qed.

(** A [float] of magnitude at least 128, read as [double], is above both
    97.0 and 99.5. *)
Lemma above_128_labels (x : F32.t) :
  normal_in 24 false 8 17 x ->
  F64.leb d_97 (double_of_float x) = true /\
  F64.ltb (double_of_float x) d_99_5 = false.
Proof.
  intros H.
  pose proof (convert_normal 53 1024 ltac:(lia) 24 _ _ _ _ H) as Hd.
  specialize (Hd ltac:(unfold emin; lia) ltac:(lia)).
  destruct Hd as (m & e & E & Hm & He).
  unfold double_of_float, F64.prec, F64.emax. rewrite E.
  change d_97 with (S754_finite false 6825768185233408 (-46)).
  change d_99_5 with (S754_finite false 7001690045677568 (-46)).
  unfold F64.leb, F64.ltb, SFleb, SFltb. cbn [SFcompare].
  assert (H1 : (-46 ?= e) = Lt) by (apply Z.compare_lt_iff; lia).
  assert (H2 : (e ?= -46) = Gt) by (apply Z.compare_gt_iff; lia).
  rewrite H1, H2. split; reflexivity.
Qed.

Lemma soc_labels_new_small :
  forall_from 0 (Z.to_nat 2108)
    (fun value => soc_labels_agree 913 936 value (soc_formula 25 940 value))
  = true.
Proof. vm_compute. reflexivity. Qed.

Lemma soc_labels_old_small :
  forall_from 0 (Z.to_nat 2108)
    (fun value => soc_labels_agree 943 966 value (soc_formula 60 970 value))
  = true.
Proof. vm_compute. reflexivity. Qed.

Lemma soc_labels_large (lowerlimit upperlimit t97 t995 value : Z) :
  normal_in 24 false 10 10 (F32.of_Z (upperlimit - lowerlimit)) ->
  0 <= lowerlimit <= 60 -> t97 <= 2108 -> t995 <= 2108 ->
  2108 <= value < 65536 ->
  soc_labels_agree t97 t995 value (soc_formula lowerlimit upperlimit value)
  = true.
Proof.
  intros Hspan Hl H97 H995 Hv. unfold soc_labels_agree.
  destruct (above_128_labels _
              (soc_formula_large_normal lowerlimit upperlimit value Hspan
                 ltac:(lia))) as [E1 E2].
  rewrite E1, E2.
  replace (t97 <=? value) with true by (symmetry; apply Z.leb_le; lia).
  replace (value <? t995) with false by (symmetry; apply Z.ltb_ge; lia).
  reflexivity.
Qed.

(** In terms of the raw reading: the scaled SOC is at least 97.0 from
    [done_threshold] on and below 99.5 up to [topoff_threshold]. *)
Lemma calculateSoc_labels (value : Z) (st : State) :
  uint16_range value ->
  F64.leb d_97 (double_of_float (calculateSoc value st)) =
    (done_threshold st <=? value) /\
  F64.ltb (double_of_float (calculateSoc value st)) d_99_5 =
    (value <? topoff_threshold st).
Proof.
  unfold uint16_range. intros Hv.
  assert (H : soc_labels_agree (done_threshold st) (topoff_threshold st)
                value (calculateSoc value st) = true).
  { rewrite calculateSoc_formula.
    unfold soc_window, done_threshold, topoff_threshold.
    destruct (GetParamValueBool (xmg_updatedbmu st) true); cbn [fst snd];
      destruct (Z.lt_ge_cases value 2108) as [Hs|Hs].
    - apply (forall_from_spec _ _ 0 soc_labels_new_small). lia.
    - apply soc_labels_large; [exact span_new_normal | lia..].
    - apply (forall_from_spec _ _ 0 soc_labels_old_small). lia.
    - apply soc_labels_large; [exact span_old_normal | lia..]. }
  unfold soc_labels_agree in H. apply andb_prop in H. destruct H as [H1 H2].
  apply eqb_prop in H1, H2. split; assumption.
Qed.

(** ** Invariants of the cell vectors *)









(** ** Correctness of rounding *)

(** *** Powers of two and located numbers *)

Lemma pow2_pos (e : Z) : (0 < pow2 e)%Q.
Proof. apply Qpower_0_lt. reflexivity. Qed.

Lemma pow2_add (a b : Z) : (pow2 (a + b) == pow2 a * pow2 b)%Q.
Proof. apply Qpower_plus. discriminate. Qed.

Lemma pow2_opp_r (a : Z) : (pow2 a * pow2 (- a) == 1)%Q.
Proof. rewrite <- pow2_add, Z.add_opp_diag_r. reflexivity. Qed.

Lemma pow2_inject (n : Z) : 0 <= n -> (inject_Z (2 ^ n) == pow2 n)%Q.
Proof. intros H. unfold pow2. now rewrite Zpower_Qpower. Qed.

Lemma pow2_lt_inv (a b : Z) : (pow2 a < pow2 b)%Q -> a < b.
Proof. intros H. apply (Qpower_lt_compat_l_inv 2); [assumption | reflexivity]. Qed.

Lemma pow2_pred (a : Z) : (pow2 (a - 1) == (1 # 2) * pow2 a)%Q.
Proof.
  unfold Z.sub. rewrite pow2_add. change (pow2 (-1)) with (1 # 2)%Q.
  apply Qmult_comm.
Qed.

Lemma located_eq (x y : Q) (mrs : shr_record) :
  (x == y)%Q -> located x mrs -> located y mrs.
Proof.
  unfold located. intros E.
  destruct (shr_r mrs), (shr_s mrs); rewrite E; auto.
Qed.

Lemma located_lower (x : Q) (mrs : shr_record) :
  located x mrs -> (inject_Z (shr_m mrs) <= x)%Q.
Proof.
  unfold located. destruct (shr_r mrs), (shr_s mrs); intros H; lra.
Qed.

Lemma inject_Z_xO (p : positive) :
  (inject_Z (Zpos p~0) == 2 * inject_Z (Zpos p))%Q.
Proof. unfold Qeq. simpl. lia. Qed.

Lemma inject_Z_xI (p : positive) :
  (inject_Z (Zpos p~1) == 2 * inject_Z (Zpos p) + 1)%Q.
Proof. unfold Qeq. simpl. lia. Qed.

(** One shift halves the located number. *)
Lemma shr_1_located (x : Q) (mrs : shr_record) :
  0 <= shr_m mrs -> located x mrs -> located (x * (1 # 2)) (shr_1 mrs).
Proof.
  destruct mrs as [m r s]. unfold located. cbn [shr_m shr_r shr_s].
  intros Hm.
  destruct m as [|[p|p|]|p]; [| | | |lia];
    destruct r, s; cbn [shr_1 shr_m shr_r shr_s orb];
    rewrite ?inject_Z_xO, ?inject_Z_xI;
    change (inject_Z 0) with 0%Q; change (inject_Z 1) with 1%Q;
    intros H; lra.
Qed.

Lemma iter_shr_1_nonneg (n : positive) (mrs : shr_record) :
  0 <= shr_m mrs -> 0 <= shr_m (iter_pos shr_1 n mrs).
Proof.
  apply (iter_pos_invariant (fun x => 0 <= shr_m x)). apply shr_1_nonneg.
Qed.

Lemma iter_shr_1_located (n : positive) :
  forall (x : Q) (mrs : shr_record),
  0 <= shr_m mrs -> located x mrs ->
  located (x * pow2 (- Zpos n)) (iter_pos shr_1 n mrs).
Proof.
  induction n as [n IH|n IH|]; intros x mrs Hm Hx; cbn [iter_pos].
  - apply located_eq
      with (x := (x * (1 # 2) * pow2 (- Zpos n) * pow2 (- Zpos n))%Q).
    + replace (- Zpos n~1) with (-1 + (- Zpos n + - Zpos n)) by lia.
      rewrite !pow2_add. change (pow2 (-1)) with (1 # 2)%Q. ring.
    + apply IH; [apply iter_shr_1_nonneg, shr_1_nonneg, Hm|].
      apply IH; [apply shr_1_nonneg, Hm|].
      now apply shr_1_located.
  - apply located_eq with (x := (x * pow2 (- Zpos n) * pow2 (- Zpos n))%Q).
    + replace (- Zpos n~0) with (- Zpos n + - Zpos n) by lia.
      rewrite pow2_add. ring.
    + apply IH; [apply iter_shr_1_nonneg, Hm|]. now apply IH.
  - now apply shr_1_located.
Qed.

(** [shr] by [n] digits divides the located number by [2^n]. *)
Lemma shr_located (x : Q) (mrs : shr_record) (e n : Z) :
  0 <= shr_m mrs -> 0 <= n -> located x mrs ->
  located (x * pow2 (- n)) (fst (shr mrs e n)).
Proof.
  intros Hm Hn Hx. destruct n as [|p|p]; cbn [shr fst]; try lia.
  - apply located_eq with (x := x); [|assumption].
    change (pow2 (- 0)) with 1%Q. ring.
  - now apply iter_shr_1_located.
Qed.

Lemma located_of_loc_exact (m : Z) :
  located (inject_Z m) (shr_record_of_loc m loc_Exact).
Proof. unfold located. simpl. reflexivity. Qed.

Lemma inject_Z_between (k m : Z) :
  (inject_Z m < inject_Z k)%Q -> (inject_Z k < inject_Z m + 1)%Q -> False.
Proof.
  rewrite <- Zlt_Qlt. intros H1 H2.
  assert (H3 : (inject_Z (m + 1) <= inject_Z k)%Q)
    by (rewrite <- Zle_Qle; lia).
  rewrite inject_Z_plus in H3. change (inject_Z 1) with 1%Q in H3. lra.
Qed.

(** Rounding to nearest takes the located number to an integer at distance
    at most 1/2, and an integer to itself. *)
Lemma round_nearest_even_located (x : Q) (mrs : shr_record) :
  located x mrs ->
  let r := round_nearest_even (shr_m mrs) (loc_of_shr_record mrs) in
  (r = shr_m mrs \/ r = shr_m mrs + 1) /\
  (Qabs (inject_Z r - x) <= 1 # 2)%Q /\
  (forall k : Z, (x == inject_Z k)%Q -> r = k).
Proof.
  destruct mrs as [m r s]. unfold located. cbn [shr_m shr_r shr_s].
  intros H.
  destruct r, s; cbn [loc_of_shr_record round_nearest_even].
  - (* upper half *)
    split; [right; reflexivity|]. split.
    + rewrite inject_Z_plus. change (inject_Z 1) with 1%Q.
      apply Qabs_Qle_condition. lra.
    + intros k E. exfalso. rewrite E in H.
      apply (inject_Z_between k m); lra.
  - (* midpoint *)
    split; [destruct (Z.even m); auto|]. split.
    + destruct (Z.even m); rewrite ?inject_Z_plus;
        change (inject_Z 1) with 1%Q; apply Qabs_Qle_condition; lra.
    + intros k E. exfalso. rewrite E in H.
      apply (inject_Z_between k m); lra.
  - (* lower half *)
    split; [left; reflexivity|]. split.
    + apply Qabs_Qle_condition. lra.
    + intros k E. exfalso. rewrite E in H.
      apply (inject_Z_between k m); lra.
  - (* exact *)
    split; [left; reflexivity|]. split.
    + apply Qabs_Qle_condition. lra.
    + intros k E. rewrite E in H. symmetry.
      now apply inject_Z_injective.
Qed.

(** *** The rounding function *)

Lemma Qabs_scale (a y P : Q) :
  (0 < P)%Q -> (Qabs (a * P - y * P) == Qabs (a - y) * P)%Q.
Proof.
  intros HP.
  assert (E : (a * P - y * P == (a - y) * P)%Q) by ring.
  rewrite E, Qabs_Qmult, (Qabs_pos P) by lra. reflexivity.
Qed.

Section Correct.
Variables prec emax : Z.
Hypothesis Hprec : 0 < prec.

(** Rounding a located number [x] (in units of [2^E]) away from the
    underflow and overflow thresholds: the result is a normal number within
    half a unit in the last place of [x], and [x] itself when [x] has at
    most [prec] significant digits. *)
Lemma binary_round_aux_correct (s : bool) (M E : Z) (L : location) (x : Q) :
  0 < M -> prec <= Zdigits2 M ->
  emin prec emax + prec <= Zdigits2 M + E ->
  Zdigits2 M + E + 1 <= emax ->
  located x (shr_record_of_loc M L) ->
  exists m e,
    binary_round_aux prec emax s M E L = S754_finite s m e /\
    Zpos (digits2_pos m) = prec /\
    Zdigits2 M + E <= prec + e <= Zdigits2 M + E + 1 /\
    (Qabs (inject_Z (Zpos m) * pow2 (e - E) - x) * pow2 prec <= x)%Q /\
    (forall k j : Z, 0 < k < 2 ^ prec -> (x == inject_Z k * pow2 j)%Q ->
       (inject_Z (Zpos m) * pow2 (e - E) == x)%Q).
Proof.
  intros HM Hd Hlo Hhi Hx.
  pose proof (Zdigits2_log2 M HM) as HdM.
  set (d := Zdigits2 M) in *.
  set (n := d - prec).
  assert (Hn : 0 <= n) by (unfold n; lia).
  (* the located number is at least [2^(d-1)] *)
  assert (Hxlow : (pow2 (d - 1) <= x)%Q).
  { apply Qle_trans with (inject_Z M).
    - rewrite <- pow2_inject by lia. rewrite <- Zle_Qle.
      replace (d - 1) with (Z.log2 M) by lia. now apply Z.log2_spec.
    - apply located_lower in Hx. now rewrite shr_record_of_loc_m in Hx. }
  unfold binary_round_aux, shr_fexp. fold d.
  replace (fexp prec emax (d + E) - E) with n by (unfold fexp, n; lia).
  destruct (shr_spec (shr_record_of_loc M L) E n) as [Hm1 He1];
    [rewrite shr_record_of_loc_m; lia | lia |].
  pose proof (shr_located x (shr_record_of_loc M L) E n) as Hloc1.
  rewrite shr_record_of_loc_m in Hm1, Hloc1.
  specialize (Hloc1 ltac:(lia) Hn Hx).
  destruct (shr (shr_record_of_loc M L) E n) as [mrs1 e1].
  cbn [fst snd] in Hm1, He1, Hloc1.
  destruct (log2_shiftr_digits M n HM ltac:(unfold n; lia)) as [Hpos1 Hlog1].
  rewrite <- Hm1 in Hpos1, Hlog1.
  destruct (round_nearest_even_located _ _ Hloc1) as (Hcases & Hhalf & Hexact).
  set (mr := round_nearest_even (shr_m mrs1) (loc_of_shr_record mrs1)) in *.
  assert (Hmr : 0 < mr /\
                ((Z.log2 mr = prec - 1) \/ (Z.log2 mr = prec /\ mr = 2 ^ prec))).
  { destruct Hcases as [E0|E0]; rewrite E0.
    - split; [assumption | left; unfold n in Hlog1; lia].
    - split; [lia|].
      assert (Hl1 : Z.log2 (shr_m mrs1) = prec - 1)
        by (unfold n in Hlog1; lia).
      destruct (Z.log2_succ_or (shr_m mrs1)) as [H|H];
        unfold Z.succ in H; [right | left; lia].
      split; [lia|].
      destruct (Z.log2_spec (shr_m mrs1) Hpos1) as [_ H1].
      destruct (Z.log2_spec (shr_m mrs1 + 1) ltac:(lia)) as [H2 _].
      rewrite H in H2. rewrite Hl1 in H1, H2.
      replace (Z.succ (prec - 1)) with prec in H1 by lia.
      replace (prec - 1 + 1) with prec in H2 by lia.
      lia. }
  destruct Hmr as [Hposr Hlogr].
  pose proof (Zdigits2_log2 mr Hposr) as Hdr.
  set (n2 := Zdigits2 mr - prec).
  replace (fexp prec emax (Zdigits2 mr + e1) - e1) with n2
    by (unfold fexp, n2; lia).
  assert (Hn2 : 0 <= n2 <= 1) by (unfold n2; lia).
  destruct (shr_spec (shr_record_of_loc mr loc_Exact) e1 n2)
    as [Hm2 He2]; [rewrite shr_record_of_loc_m; lia | lia |].
  rewrite shr_record_of_loc_m in Hm2.
  destruct (shr (shr_record_of_loc mr loc_Exact) e1 n2) as [mrs2 e2].
  cbn [fst snd] in Hm2, He2.
  (* the second shift loses nothing *)
  assert (Hback : shr_m mrs2 * 2 ^ n2 = mr /\ Z.log2 (shr_m mrs2) = prec - 1).
  { rewrite Hm2. destruct Hlogr as [Hl|[Hl ->]].
    - replace n2 with 0 by (unfold n2; lia).
      rewrite Z.shiftr_0_r. split; lia.
    - replace n2 with 1 by (unfold n2; lia).
      rewrite Z.shiftr_div_pow2 by lia.
      rewrite <- Z.pow_sub_r by lia.
      rewrite <- Z.pow_add_r by lia.
      replace (prec - 1 + 1) with prec by lia.
      split; [reflexivity | apply Z.log2_pow2; lia]. }
  destruct Hback as [Hback Hlog2].
  destruct (shr_m mrs2) as [|p|p] eqn:Ep;
    [simpl in Hlog2; lia | | simpl in Hlog2; lia].
  assert (Hle : (e2 <=? emax - prec) = true)
    by (apply Z.leb_le; unfold n, n2 in *; lia).
  rewrite Hle. exists p, e2.
  split; [reflexivity|].
  split; [rewrite digits2_pos_log2; lia|].
  split; [unfold n, n2 in *; lia|].
  (* the value, in units of [2^E] *)
  assert (Hv : (inject_Z (Zpos p) * pow2 (e2 - E) == inject_Z mr * pow2 n)%Q).
  { replace (e2 - E) with (n2 + n) by lia.
    rewrite pow2_add, <- Hback, inject_Z_mult, pow2_inject by lia. ring. }
  assert (Hxy : (x == x * pow2 (- n) * pow2 n)%Q).
  { rewrite <- Qmult_assoc, (Qmult_comm (pow2 (- n))), pow2_opp_r. ring. }
  pose proof (pow2_pos n) as HPn.
  split.
  - rewrite Hv. rewrite Hxy at 1. rewrite Qabs_scale by assumption.
    apply Qle_trans with ((1 # 2) * pow2 n * pow2 prec)%Q.
    + apply Qmult_le_compat_r; [|apply Qlt_le_weak, pow2_pos].
      apply Qmult_le_compat_r; [assumption | lra].
    + apply Qle_trans with (pow2 (d - 1)); [|assumption].
      replace (d - 1) with (n + prec - 1) by (unfold n; lia).
      rewrite pow2_pred, pow2_add. lra.
  - intros k j Hk Ex.
    assert (Hj : n <= j).
    { assert (H1 : (pow2 (d - 1) < pow2 (prec + j))%Q).
      { apply Qle_lt_trans with x; [assumption|].
        rewrite Ex, pow2_add.
        apply Qmult_lt_compat_r; [apply pow2_pos|].
        rewrite <- pow2_inject by lia. rewrite <- Zlt_Qlt. lia. }
      apply pow2_lt_inv in H1. unfold n. lia. }
    assert (Ey : (x * pow2 (- n) == inject_Z (k * 2 ^ (j - n)))%Q).
    { rewrite Ex, inject_Z_mult, pow2_inject by lia.
      unfold Z.sub. rewrite pow2_add. ring. }
    rewrite Hv, (Hexact _ Ey), Hxy, Ey. reflexivity.
Qed.
End Correct.

(** *** Signed values, products and conversions *)

Lemma Q_of_finite (s : bool) (m : positive) (e : Z) :
  (Q_of (S754_finite s m e) == Qsigned s (inject_Z (Zpos m)) * pow2 e)%Q.
Proof.
  unfold Q_of, SF2Q, Qsigned, pow2. destruct s; cbn [cond_Zopp].
  - change (inject_Z (- Zpos m)) with (- inject_Z (Zpos m))%Q. reflexivity.
  - reflexivity.
Qed.

#[global] Instance Qsigned_comp (s : bool) : Proper (Qeq ==> Qeq) (Qsigned s).
Proof. intros a b E. destruct s; cbn [Qsigned]; now rewrite E. Qed.

Lemma Qabs_Qsigned (s : bool) (q : Q) : (Qabs (Qsigned s q) == Qabs q)%Q.
Proof. destruct s; cbn [Qsigned]; [apply Qabs_opp | reflexivity]. Qed.

Lemma rounds_eq (prec : Z) (r : spec_float) (q q' : Q) :
  (q == q')%Q -> rounds prec r q -> rounds prec r q'.
Proof.
  intros E (Hf & Hb & He). split; [assumption|]. split.
  - now rewrite <- E.
  - intros (k & j & Hk & Hq). rewrite <- E. apply He.
    exists k, j. split; [assumption|]. now rewrite E.
Qed.

Lemma iter_xO_mul (m p : positive) :
  Zpos (Pos.iter xO m p) = Zpos m * 2 ^ Zpos p.
Proof.
  induction p as [|p IH] using Pos.peano_ind.
  - simpl. lia.
  - rewrite Pos.iter_succ, Pos2Z.inj_succ, Z.pow_succ_r by lia.
    rewrite Pos2Z.inj_xO, IH. lia.
Qed.

Section Operations.
Variables prec emax : Z.
Hypothesis Hprec : 0 < prec.

(** From the rounding of a magnitude to the rounding of a signed number. *)
Lemma rounds_of_magnitude (s : bool) (m : positive) (e E : Z) (x q : Q) :
  (0 < x)%Q ->
  (Qabs (inject_Z (Zpos m) * pow2 (e - E) - x) * pow2 prec <= x)%Q ->
  (forall k j : Z, 0 < k < 2 ^ prec -> (x == inject_Z k * pow2 j)%Q ->
     (inject_Z (Zpos m) * pow2 (e - E) == x)%Q) ->
  (q == Qsigned s x * pow2 E)%Q ->
  rounds prec (S754_finite s m e) q.
Proof.
  intros Hx Hb He Hq.
  pose proof (pow2_pos E) as HE.
  assert (Hv : (Q_of (S754_finite s m e) ==
                Qsigned s (inject_Z (Zpos m) * pow2 (e - E)) * pow2 E)%Q).
  { rewrite Q_of_finite. replace e with (e - E + E) at 1 by lia.
    rewrite pow2_add. destruct s; cbn [Qsigned]; ring. }
  assert (Hd : (Q_of (S754_finite s m e) - q ==
                Qsigned s (inject_Z (Zpos m) * pow2 (e - E) - x) * pow2 E)%Q).
  { rewrite Hv, Hq. destruct s; cbn [Qsigned]; ring. }
  split; [reflexivity|]. split.
  - rewrite Hd, Hq, !Qabs_Qmult, !Qabs_Qsigned.
    rewrite (Qabs_pos (pow2 E)), (Qabs_pos x) by lra.
    set (a := Qabs _) in *.
    assert (Ha : (a * pow2 E * pow2 prec == a * pow2 prec * pow2 E)%Q) by ring.
    rewrite Ha. apply Qmult_le_compat_r; lra.
  - intros (k & j & Hk & Ek).
    assert (Hxk : (x == inject_Z (Z.abs k) * pow2 (j - E))%Q).
    { assert (H1 : (Qabs q == x * pow2 E)%Q).
      { rewrite Hq, Qabs_Qmult, Qabs_Qsigned.
        rewrite (Qabs_pos (pow2 E)), (Qabs_pos x) by lra. reflexivity. }
      assert (H2 : (Qabs q == inject_Z (Z.abs k) * pow2 j)%Q).
      { rewrite Ek, Qabs_Qmult, (Qabs_pos (pow2 j))
          by (apply Qlt_le_weak, pow2_pos).
        reflexivity. }
      assert (H3 : (x == Qabs q * pow2 (- E))%Q).
      { rewrite H1, <- Qmult_assoc, pow2_opp_r. ring. }
      rewrite H3, H2. unfold Z.sub. rewrite pow2_add. ring. }
    assert (Hk0 : 0 < Z.abs k).
    { destruct (Z.eq_dec k 0) as [->|]; [|lia]. exfalso.
      rewrite Hxk in Hx. change (inject_Z (Z.abs 0)) with 0%Q in Hx. lra. }
    pose proof (He _ _ (conj Hk0 Hk) Hxk) as Hex.
    rewrite Hv, Hq. destruct s; cbn [Qsigned]; rewrite Hex; reflexivity.
Qed.

(** [binary_round] rounds [m * 2^e] correctly. *)
Lemma binary_round_rounds (s : bool) (m : positive) (e : Z) :
  emin prec emax + prec <= Zpos (digits2_pos m) + e ->
  Zpos (digits2_pos m) + e + 1 <= emax ->
  rounds prec (binary_round prec emax s m e)
    (Qsigned s (inject_Z (Zpos m)) * pow2 e).
Proof.
  intros Hlo Hhi. set (d := Zpos (digits2_pos m)) in *.
  assert (Hmpos : (0 < inject_Z (Zpos m))%Q)
    by (change 0%Q with (inject_Z 0); rewrite <- Zlt_Qlt; lia).
  unfold binary_round. fold d.
  replace (fexp prec emax (d + e)) with (d + e - prec)
    by (unfold fexp; lia).
  unfold shl_align.
  destruct (d + e - prec - e) as [|p|p] eqn:Ep.
  - destruct (binary_round_aux_correct prec emax Hprec s (Zpos m) e loc_Exact
                (inject_Z (Zpos m)))
      as (m' & e' & -> & _ & _ & Hb & He);
      cbn [Zdigits2]; fold d; try lia; [apply located_of_loc_exact|].
    apply (rounds_of_magnitude s m' e' e (inject_Z (Zpos m)));
      (assumption || reflexivity).
  - destruct (binary_round_aux_correct prec emax Hprec s (Zpos m) e loc_Exact
                (inject_Z (Zpos m)))
      as (m' & e' & -> & _ & _ & Hb & He);
      cbn [Zdigits2]; fold d; try lia; [apply located_of_loc_exact|].
    apply (rounds_of_magnitude s m' e' e (inject_Z (Zpos m)));
      (assumption || reflexivity).
  - assert (Hdz : Zpos (digits2_pos (Pos.iter xO m p)) = prec)
      by (rewrite digits2_pos_iter_xO; fold d; lia).
    destruct (binary_round_aux_correct prec emax Hprec s
                (Zpos (Pos.iter xO m p)) (d + e - prec) loc_Exact
                (inject_Z (Zpos (Pos.iter xO m p))))
      as (m' & e' & -> & _ & _ & Hb & He);
      cbn [Zdigits2]; rewrite ?Hdz; try lia; [apply located_of_loc_exact|].
    apply (rounds_of_magnitude s m' e' (d + e - prec)
             (inject_Z (Zpos (Pos.iter xO m p)))); try assumption.
    rewrite iter_xO_mul, inject_Z_mult, pow2_inject by lia.
    replace e with (Zpos p + (d + e - prec)) at 1 by lia.
    rewrite pow2_add. destruct s; cbn [Qsigned]; ring.
Qed.

(** [binary_normalize] rounds a nonzero [m * 2^e] correctly. *)
Lemma binary_normalize_rounds (m e : Z) (szero : bool) :
  m <> 0 ->
  emin prec emax + prec <= Z.log2 (Z.abs m) + 1 + e ->
  Z.log2 (Z.abs m) + 2 + e <= emax ->
  rounds prec (binary_normalize prec emax m e szero) (inject_Z m * pow2 e).
Proof.
  intros Hm Hlo Hhi.
  destruct m as [|p|p]; [lia| |]; cbn [binary_normalize];
    cbn [Z.abs] in *; pose proof (digits2_pos_log2 p) as Hd.
  - apply (binary_round_rounds false p e); lia.
  - apply rounds_eq
      with (q := (Qsigned true (inject_Z (Zpos p)) * pow2 e)%Q);
      [reflexivity | apply (binary_round_rounds true p e); lia].
Qed.

(** Re-rounding a normal number into this format. *)
Lemma convert_rounds (p0 : Z) (s : bool) (lo hi : Z) (x : spec_float) :
  normal_in p0 s lo hi x ->
  emin prec emax + prec <= lo -> hi + 1 <= emax ->
  rounds prec (convert prec emax x) (Q_of x).
Proof.
  intros (m & e & -> & Hd & Hb) Hlo Hhi.
  apply rounds_eq with (q := (Qsigned s (inject_Z (Zpos m)) * pow2 e)%Q);
    [now rewrite Q_of_finite|].
  assert (H : rounds prec (binary_round prec emax s m e)
                (Qsigned s (inject_Z (Zpos m)) * pow2 e))
    by (apply binary_round_rounds; lia).
  destruct s; exact H.
Qed.

(** Product of two normal numbers. *)
Lemma SFmul_rounds (sx sy : bool) (lx hx ly hy : Z) (x y : spec_float) :
  normal_in prec sx lx hx x -> normal_in prec sy ly hy y ->
  emin prec emax + prec <= lx + ly - 1 -> hx + hy + 1 <= emax ->
  rounds prec (SFmul prec emax x y) (Q_of x * Q_of y).
Proof.
  intros (mx & ex & -> & Hdx & Hbx) (my & ey & -> & Hdy & Hby) Hlo Hhi.
  cbn [SFmul].
  rewrite digits2_pos_log2 in Hdx, Hdy.
  pose proof (Z.log2_mul_below (Zpos mx) (Zpos my)
                ltac:(lia) ltac:(lia)) as Hb.
  pose proof (Z.log2_mul_above (Zpos mx) (Zpos my)
                ltac:(lia) ltac:(lia)) as Ha.
  assert (Hd : Zdigits2 (Zpos (mx * my)) = Z.log2 (Zpos mx * Zpos my) + 1)
    by (rewrite Zdigits2_log2 by lia; reflexivity).
  destruct (binary_round_aux_correct prec emax Hprec (xorb sx sy)
              (Zpos (mx * my)) (ex + ey) loc_Exact
              (inject_Z (Zpos (mx * my))))
    as (m' & e' & -> & _ & _ & Hbd & He);
    rewrite ?Hd; try lia; [apply located_of_loc_exact|].
  apply (rounds_of_magnitude _ m' e' (ex + ey) (inject_Z (Zpos (mx * my))));
    try assumption; [reflexivity|].
  rewrite !Q_of_finite, Pos2Z.inj_mul, inject_Z_mult, pow2_add.
    destruct sx, sy; cbn [Qsigned xorb]; ring.
Qed.
End Operations.

(** *** Quotients *)

Lemma inject_Z_pos (z : Z) : 0 < z -> (0 < inject_Z z)%Q.
Proof. intros H. change 0%Q with (inject_Z 0). now rewrite <- Zlt_Qlt. Qed.

(** The location computed from the remainder [r] of a division by [b]
    places the exact quotient. *)
Lemma new_location_located (b q r : Z) :
  0 < b -> 0 <= r < b ->
  located (inject_Z q + inject_Z r / inject_Z b)
    (shr_record_of_loc q (new_location b r)).
Proof.
  intros Hb Hr.
  pose proof (inject_Z_pos b Hb) as HB.
  set (f := (inject_Z r / inject_Z b)%Q).
  assert (Hlt : forall c : Z, c * r < b ->
                  (inject_Z c * f < 1)%Q).
  { intros c Hc. unfold f.
    assert (E : (inject_Z c * (inject_Z r / inject_Z b) ==
                 inject_Z (c * r) / inject_Z b)%Q)
      by (rewrite inject_Z_mult; field; lra).
    rewrite E. apply Qlt_shift_div_r; [assumption|].
    rewrite Qmult_1_l, <- Zlt_Qlt. assumption. }
  assert (Hgt : forall c : Z, b < c * r ->
                  (1 < inject_Z c * f)%Q).
  { intros c Hc. unfold f.
    assert (E : (inject_Z c * (inject_Z r / inject_Z b) ==
                 inject_Z (c * r) / inject_Z b)%Q)
      by (rewrite inject_Z_mult; field; lra).
    rewrite E. apply Qlt_shift_div_l; [assumption|].
    rewrite Qmult_1_l, <- Zlt_Qlt. assumption. }
  assert (Heq : forall c : Z, c * r = b -> (inject_Z c * f == 1)%Q).
  { intros c Hc. unfold f.
    assert (E : (inject_Z c * (inject_Z r / inject_Z b) ==
                 inject_Z (c * r) / inject_Z b)%Q)
      by (rewrite inject_Z_mult; field; lra).
    rewrite E, Hc. field. lra. }
  assert (Hpos : 0 < r -> (0 < f)%Q).
  { intros H. unfold f. apply Qlt_shift_div_l; [assumption|].
    rewrite Qmult_0_l. now apply inject_Z_pos. }
  assert (Hzero : r = 0 -> (f == 0)%Q).
  { intros E0. unfold f. rewrite E0. change (inject_Z 0) with 0%Q.
    field. lra. }
  clearbody f.
  assert (H2 : inject_Z 2 = 2%Q) by reflexivity.
  assert (H1 : inject_Z 1 = 1%Q) by reflexivity.
  unfold new_location.
  destruct (Z.even b) eqn:Ev.
  - unfold new_location_even.
    destruct (Z.eqb_spec r 0) as [E0|E0].
    + unfold located. cbn [shr_record_of_loc shr_m shr_r shr_s].
      rewrite (Hzero E0). ring.
    + specialize (Hpos ltac:(lia)).
      destruct (Z.compare_spec (2 * r) b) as [Hc|Hc|Hc];
        unfold located; cbn [shr_record_of_loc shr_m shr_r shr_s].
      * specialize (Heq 2 Hc). rewrite H2 in Heq. lra.
      * specialize (Hlt 2 Hc). rewrite H2 in Hlt. lra.
      * specialize (Hgt 2 Hc). specialize (Hlt 1 ltac:(lia)).
        rewrite H2 in Hgt. rewrite H1 in Hlt. lra.
  - unfold new_location_odd.
    destruct (Z.eqb_spec r 0) as [E0|E0].
    + unfold located. cbn [shr_record_of_loc shr_m shr_r shr_s].
      rewrite (Hzero E0). ring.
    + specialize (Hpos ltac:(lia)).
      assert (Hodd : exists k, b = 2 * k + 1).
      { apply Z.odd_spec. rewrite <- Z.negb_even, Ev. reflexivity. }
      destruct Hodd as [k Hk].
      destruct (Z.compare_spec (2 * r + 1) b) as [Hc|Hc|Hc];
        unfold located; cbn [shr_record_of_loc shr_m shr_r shr_s].
      * specialize (Hlt 2 ltac:(lia)). rewrite H2 in Hlt. lra.
      * specialize (Hlt 2 ltac:(lia)). rewrite H2 in Hlt. lra.
      * specialize (Hgt 2 ltac:(lia)). specialize (Hlt 1 ltac:(lia)).
        rewrite H2 in Hgt. rewrite H1 in Hlt. lra.
Qed.

Lemma pow2_neq_0 (e : Z) : ~ (pow2 e == 0)%Q.
Proof. pose proof (pow2_pos e). lra. Qed.

Lemma pow2_sub (a b : Z) : (pow2 (a - b) == pow2 a / pow2 b)%Q.
Proof.
  unfold Z.sub. rewrite pow2_add. unfold pow2 at 2. rewrite Qpower_opp.
  reflexivity.
Qed.

Section Division.
Variables prec emax : Z.
Hypothesis Hprec : 0 < prec.

(** Quotient of two normal numbers. *)
Lemma SFdiv_rounds (sx sy : bool) (lx hx ly hy : Z) (x y : spec_float) :
  normal_in prec sx lx hx x -> normal_in prec sy ly hy y ->
  emin prec emax + prec <= lx - hy -> hx - ly + 2 <= emax ->
  rounds prec (SFdiv prec emax x y) (Q_of x / Q_of y).
Proof.
  intros (mx & ex & -> & Hdx & Hbx) (my & ey & -> & Hdy & Hby) Hlo Hhi.
  cbn [SFdiv]. unfold SFdiv_core_binary. cbn [Zdigits2].
  rewrite Hdx, Hdy.
  replace (Z.min (fexp prec emax (prec + ex - (prec + ey))) (ex - ey))
    with (ex - ey - prec) by (unfold fexp; lia).
  replace (ex - ey - (ex - ey - prec)) with prec by lia.
  assert (Hm' : match prec with
                | Z0 => Zpos mx
                | Zpos _ => Z.shiftl (Zpos mx) prec
                | Zneg _ => 0
                end = Zpos mx * 2 ^ prec).
  { rewrite <- Z.shiftl_mul_pow2 by lia. destruct prec; try lia; reflexivity. }
  rewrite Hm'. clear Hm'.
  rewrite digits2_pos_log2 in Hdx, Hdy.
  destruct (Z.log2_spec (Zpos mx) ltac:(lia)) as [Hx1 Hx2].
  destruct (Z.log2_spec (Zpos my) ltac:(lia)) as [Hy1 Hy2].
  replace (Z.log2 (Zpos mx)) with (prec - 1) in Hx1, Hx2 by lia.
  replace (Z.log2 (Zpos my)) with (prec - 1) in Hy1, Hy2 by lia.
  replace (Z.succ (prec - 1)) with prec in Hx2, Hy2 by lia.
  assert (Hpow : 2 ^ prec = 2 * 2 ^ (prec - 1)).
  { replace prec with (Z.succ (prec - 1)) at 1 by lia.
    apply Z.pow_succ_r. lia. }
  assert (HP : 0 < 2 ^ (prec - 1)) by (apply Z.pow_pos_nonneg; lia).
  set (P := 2 ^ (prec - 1)) in *.
  set (m' := Zpos mx * 2 ^ prec).
  assert (Hq1 : P <= m' / Zpos my).
  { apply Z.div_le_lower_bound; [lia|]. unfold m'. rewrite Hpow. nia. }
  assert (Hq2 : m' / Zpos my < 4 * P).
  { apply Z.div_lt_upper_bound; [lia|]. unfold m'. rewrite Hpow. nia. }
  pose proof (Z_div_mod m' (Zpos my) ltac:(lia)) as Hdm.
  unfold Z.div in Hq1, Hq2.
  destruct (Z.div_eucl m' (Zpos my)) as [q r].
  destruct Hdm as [Hdm Hr].
  assert (Hq : 0 < q) by lia.
  assert (Hlq : prec - 1 <= Z.log2 q <= prec).
  { split.
    - apply Z.log2_le_pow2; [assumption | exact Hq1].
    - assert (Z.log2 q < prec + 1); [|lia].
      apply Z.log2_lt_pow2; [assumption|].
      replace (prec + 1) with (Z.succ prec) by lia.
      rewrite Z.pow_succ_r by lia. lia. }
  pose proof (Zdigits2_log2 q Hq) as Hdq.
  set (xq := (inject_Z q + inject_Z r / inject_Z (Zpos my))%Q).
  destruct (binary_round_aux_correct prec emax Hprec (xorb sx sy)
              q (ex - ey - prec) (new_location (Zpos my) r) xq)
    as (mz & ez & -> & _ & _ & Hbd & He);
    rewrite ?Hdq; try lia;
    [apply new_location_located; lia|].
  assert (HMY : (0 < inject_Z (Zpos my))%Q) by reflexivity.
  assert (Hxq : (xq == inject_Z (Zpos mx) * pow2 prec / inject_Z (Zpos my))%Q).
  { unfold xq. rewrite <- pow2_inject, <- inject_Z_mult by lia.
    fold m'. rewrite Hdm, inject_Z_plus, inject_Z_mult. field. lra. }
  apply (rounds_of_magnitude prec Hprec _ mz ez (ex - ey - prec) xq);
    try assumption.
  - apply Qlt_le_trans with (inject_Z q); [now apply inject_Z_pos|].
    unfold xq.
    assert (0 <= inject_Z r / inject_Z (Zpos my))%Q; [|lra].
    apply Qle_shift_div_l; [assumption|]. rewrite Qmult_0_l.
    change 0%Q with (inject_Z 0). rewrite <- Zle_Qle. lia.
  - rewrite !Q_of_finite.
    assert (E : (Qsigned (xorb sx sy) xq ==
                 Qsigned (xorb sx sy)
                   (inject_Z (Zpos mx) * pow2 prec / inject_Z (Zpos my)))%Q)
      by now rewrite Hxq.
    rewrite E, !pow2_sub.
    pose proof (pow2_neq_0 ey). pose proof (pow2_neq_0 prec).
    destruct sx, sy; cbn [Qsigned xorb]; field; repeat split; lra.
Qed.
End Division.

(** *** Sums and integers *)

Lemma shl_align_value (m : positive) (e e' : Z) :
  e' <= e -> Zpos (fst (shl_align m e e')) = Zpos m * 2 ^ (e - e').
Proof.
  intros H. unfold shl_align.
  destruct (e' - e) as [|p|p] eqn:Ep; cbn [fst]; try lia.
  - replace (e - e') with 0 by lia. lia.
  - rewrite iter_xO_mul. f_equal. f_equal. lia.
Qed.

Lemma cond_Zopp_add (s : bool) (a b : Z) :
  cond_Zopp s a + cond_Zopp s b = cond_Zopp s (a + b).
Proof. destruct s; cbn [cond_Zopp]; lia. Qed.

Lemma inject_Z_cond_Zopp (s : bool) (a : Z) :
  (inject_Z (cond_Zopp s a) == Qsigned s (inject_Z a))%Q.
Proof.
  destruct s; cbn [cond_Zopp Qsigned]; [|reflexivity].
  unfold Qeq, inject_Z, Qopp. simpl. lia.
Qed.

Lemma SF2Q_finite (x : spec_float) :
  is_finite x = true -> SF2Q x = Some (Q_of x).
Proof. unfold Q_of. destruct x; try discriminate; reflexivity. Qed.

Section Addition.
Variables prec emax : Z.
Hypothesis Hprec : 0 < prec.

(** The shape of a rounded nonzero [m * 2^e]. *)
Lemma binary_normalize_normal (m e : Z) (szero : bool) :
  m <> 0 ->
  emin prec emax + prec <= Z.log2 (Z.abs m) + 1 + e ->
  Z.log2 (Z.abs m) + 2 + e <= emax ->
  normal_in prec (m <? 0) (Z.log2 (Z.abs m) + 1 + e) (Z.log2 (Z.abs m) + 2 + e)
    (binary_normalize prec emax m e szero).
Proof.
  intros Hm Hlo Hhi.
  destruct m as [|p|p]; [lia| |]; cbn [binary_normalize Z.ltb Z.compare];
    cbn [Z.abs] in *; pose proof (digits2_pos_log2 p) as Hd;
    (apply (normal_in_weaken prec)
       with (lo := Zpos (digits2_pos p) + e)
            (hi := Zpos (digits2_pos p) + e + 1);
     [apply binary_round_normal| |]; lia).
Qed.

(** Sum of two normal numbers of the same sign. *)
Lemma SFadd_rounds (s : bool) (lx hx ly hy : Z) (x y : spec_float) :
  normal_in prec s lx hx x -> normal_in prec s ly hy y ->
  emin prec emax + prec <= Z.max lx ly -> Z.max hx hy + 2 <= emax ->
  rounds prec (SFadd prec emax x y) (Q_of x + Q_of y) /\
  normal_in prec s (Z.max lx ly) (Z.max hx hy + 2) (SFadd prec emax x y).
Proof.
  intros (mx & ex & -> & Hdx & Hbx) (my & ey & -> & Hdy & Hby) Hlo Hhi.
  cbn [SFadd].
  set (ez := Z.min ex ey).
  rewrite cond_Zopp_add.
  rewrite !shl_align_value by (unfold ez; lia).
  set (a := Zpos mx * 2 ^ (ex - ez)).
  set (b := Zpos my * 2 ^ (ey - ez)).
  rewrite digits2_pos_log2 in Hdx, Hdy.
  assert (Hea : 0 <= ex - ez) by (unfold ez; lia).
  assert (Heb : 0 <= ey - ez) by (unfold ez; lia).
  assert (Hla : Z.log2 a = ex - ez + (prec - 1)).
  { unfold a. rewrite Z.log2_mul_pow2 by lia. lia. }
  assert (Hlb : Z.log2 b = ey - ez + (prec - 1)).
  { unfold b. rewrite Z.log2_mul_pow2 by lia. lia. }
  assert (Ha : 0 < a) by (unfold a; apply Z.mul_pos_pos; [lia|];
                          apply Z.pow_pos_nonneg; lia).
  assert (Hb : 0 < b) by (unfold b; apply Z.mul_pos_pos; [lia|];
                          apply Z.pow_pos_nonneg; lia).
  set (t := Z.max (ex - ez) (ey - ez) + (prec - 1)).
  assert (Hlow : t <= Z.log2 (a + b)).
  { unfold t. destruct (Z.max_spec (ex - ez) (ey - ez)) as [[_ ->]|[_ ->]].
    - rewrite <- Hlb. apply Z.log2_le_mono. lia.
    - rewrite <- Hla. apply Z.log2_le_mono. lia. }
  assert (Hup : Z.log2 (a + b) <= t + 1).
  { assert (Z.log2 (a + b) < t + 2); [|lia].
    apply Z.log2_lt_pow2; [lia|].
    destruct (Z.log2_spec a Ha) as [_ Ha2].
    destruct (Z.log2_spec b Hb) as [_ Hb2].
    rewrite Hla in Ha2. rewrite Hlb in Hb2.
    assert (H1 : 2 ^ Z.succ (ex - ez + (prec - 1)) <= 2 ^ (t + 1))
      by (apply Z.pow_le_mono_r; unfold t; lia).
    assert (H2 : 2 ^ Z.succ (ey - ez + (prec - 1)) <= 2 ^ (t + 1))
      by (apply Z.pow_le_mono_r; unfold t; lia).
    replace (t + 2) with (Z.succ (t + 1)) by lia.
    rewrite Z.pow_succ_r by (unfold t; lia). lia. }
  assert (Habs : Z.abs (cond_Zopp s (a + b)) = a + b)
    by (destruct s; cbn [cond_Zopp]; lia).
  assert (Hsgn : (cond_Zopp s (a + b) <? 0) = s).
  { destruct s; cbn [cond_Zopp]; [apply Z.ltb_lt | apply Z.ltb_ge]; lia. }
  assert (Ht : t + ez = Z.max (prec + ex) (prec + ey) - 1) by (unfold t; lia).
  split.
  - apply rounds_eq
      with (q := (inject_Z (cond_Zopp s (a + b)) * pow2 ez)%Q).
    + rewrite inject_Z_cond_Zopp, !Q_of_finite.
      unfold a, b.
      rewrite inject_Z_plus, !inject_Z_mult, !pow2_inject by lia.
      rewrite !pow2_sub.
      pose proof (pow2_neq_0 ez).
      destruct s; cbn [Qsigned]; field; lra.
    + apply binary_normalize_rounds; try assumption; rewrite ?Habs; lia.
  - rewrite <- Hsgn at 1.
    eapply (normal_in_weaken prec);
      [apply binary_normalize_normal; rewrite ?Habs; lia
      | rewrite Habs; lia | rewrite Habs; lia].
Qed.

(** Conversion of a small integer is exact. *)
Lemma of_Z_exact (k : Z) :
  Z.abs k < 2 ^ prec ->
  emin prec emax + prec <= 1 -> prec + 1 <= emax ->
  is_finite (binary_normalize prec emax k 0 false) = true /\
  (Q_of (binary_normalize prec emax k 0 false) == inject_Z k)%Q.
Proof.
  intros Hk Hlo Hhi.
  destruct (Z.eq_dec k 0) as [->|Hne]; [split; reflexivity|].
  assert (Hl : 0 <= Z.log2 (Z.abs k) < prec).
  { split; [apply Z.log2_nonneg|]. apply Z.log2_lt_pow2; lia. }
  destruct (binary_normalize_rounds prec emax Hprec k 0 false Hne)
    as (Hf & _ & He); try lia.
  split; [assumption|].
  assert (E : (inject_Z k * pow2 0 == inject_Z k)%Q)
    by (change (pow2 0) with 1%Q; ring).
  rewrite <- E. apply He. exists k, 0. split; [assumption | reflexivity].
Qed.
End Addition.

(** ** Rounding errors of the two formats *)

Lemma rounds_exact (prec : Z) (r : spec_float) (q : Q) (k j : Z) :
  rounds prec r q -> Z.abs k < 2 ^ prec -> (q == inject_Z k * pow2 j)%Q ->
  (Q_of r == q)%Q.
Proof.
  intros (_ & _ & He) Hk Hq. apply He. exists k, j. split; assumption.
Qed.

Lemma rounds_finite (prec : Z) (r : spec_float) (q : Q) :
  rounds prec r q -> is_finite r = true.
Proof. intros (H & _). exact H. Qed.

Lemma rounds_24 (r : spec_float) (q : Q) :
  rounds 24 r q ->
  ((0 <= q -> q - q * (1 # 16777216) <= Q_of r <= q + q * (1 # 16777216)) /\
   (q <= 0 -> q + q * (1 # 16777216) <= Q_of r <= q - q * (1 # 16777216)))%Q.
Proof.
  intros (_ & Hb & _). change (pow2 24) with (16777216 # 1)%Q in Hb.
  assert (H : (Qabs (Q_of r - q) <= Qabs q * (1 # 16777216))%Q) by lra.
  split; intros Hq.
  - rewrite (Qabs_pos q) in H by assumption.
    apply Qabs_Qle_condition in H. lra.
  - rewrite (Qabs_neg q) in H by assumption.
    apply Qabs_Qle_condition in H. lra.
Qed.

Lemma rounds_53 (r : spec_float) (q : Q) :
  rounds 53 r q ->
  ((0 <= q ->
    q - q * (1 # 9007199254740992) <= Q_of r <= q + q * (1 # 9007199254740992))
   /\
   (q <= 0 ->
    q + q * (1 # 9007199254740992) <= Q_of r <= q - q * (1 # 9007199254740992))
  )%Q.
Proof.
  intros (_ & Hb & _). change (pow2 53) with (9007199254740992 # 1)%Q in Hb.
  assert (H : (Qabs (Q_of r - q) <= Qabs q * (1 # 9007199254740992))%Q) by lra.
  split; intros Hq.
  - rewrite (Qabs_pos q) in H by assumption.
    apply Qabs_Qle_condition in H. lra.
  - rewrite (Qabs_neg q) in H by assumption.
    apply Qabs_Qle_condition in H. lra.
Qed.

(** ** Accuracy of the decoded values *)

Lemma within_intro (x : spec_float) (q err : Q) :
  is_finite x = true -> (q - err <= Q_of x <= q + err)%Q -> within x q err.
Proof.
  intros Hf Hb. exists (Q_of x). split; [now apply SF2Q_finite|].
  apply Qabs_Qle_condition. lra.
Qed.

Lemma denotes_intro (x : spec_float) (q : Q) :
  is_finite x = true -> (Q_of x == q)%Q -> denotes x q.
Proof.
  intros Hf Hb. exists (Q_of x). split; [now apply SF2Q_finite | assumption].
Qed.

Lemma inject_Z_range (k lo hi : Z) :
  lo <= k <= hi -> (inject_Z lo <= inject_Z k <= inject_Z hi)%Q.
Proof. intros [H1 H2]. rewrite <- !Zle_Qle. split; assumption. Qed.

(** A nonzero 16-bit magnitude converts to a normal [float] without error. *)
Lemma F32_of_Z_small (k : Z) :
  0 < Z.abs k < 65536 ->
  normal_in 24 (k <? 0) 1 17 (F32.of_Z k) /\
  (Q_of (F32.of_Z k) == inject_Z k)%Q.
Proof.
  intros Hk. pose proof (log2_uint _ Hk) as Hl. split.
  - eapply normal_in_weaken;
      [apply (of_Z_normal 24 128); unfold emin; lia | lia | lia].
  - apply (of_Z_exact 24 128); unfold emin; lia.
Qed.

Lemma F64_of_Z_small (k : Z) :
  0 < Z.abs k < 65536 ->
  normal_in 53 (k <? 0) 1 17 (F64.of_Z k) /\
  (Q_of (F64.of_Z k) == inject_Z k)%Q.
Proof.
  intros Hk. pose proof (log2_uint _ Hk) as Hl. split.
  - eapply normal_in_weaken;
      [apply (of_Z_normal 53 1024); unfold emin; lia | lia | lia].
  - apply (of_Z_exact 53 1024); unfold emin; lia.
Qed.

Lemma ltb_nonneg (k : Z) : 0 <= k -> (k <? 0) = false.
Proof. intros H. apply Z.ltb_ge. assumption. Qed.

Lemma f_2000_normal : normal_in 24 false 11 11 f_2000.
Proof.
  exists 16384000%positive, (-13).
  split; [reflexivity|]. split; [reflexivity | lia].
Qed.

Lemma f_1_normal : normal_in 24 false 1 1 f_1.
Proof.
  exists 8388608%positive, (-23).
  split; [reflexivity|]. split; [reflexivity | lia].
Qed.

Lemma f_10_normal : normal_in 24 false 4 4 f_10.
Proof.
  exists 10485760%positive, (-20).
  split; [reflexivity|]. split; [reflexivity | lia].
Qed.

Lemma d_100_normal : normal_in 53 false 7 7 d_100.
Proof.
  exists 7036874417766400%positive, (-46).
  split; [reflexivity|]. split; [reflexivity | lia].
Qed.

(** *** Voltages: [value * 0.25] is exact *)

Lemma voltage_formula_exact (value : Z) :
  0 <= value < 65536 ->
  denotes (float_of_double (F64.mul (F64.of_Z value) d_quarter))
          (inject_Z value * (1 # 4)).
Proof.
  intros Hv.
  destruct (Z.eq_dec value 0) as [->|Hne].
  { apply denotesb_denotes. vm_compute. reflexivity. }
  destruct (F64_of_Z_small value ltac:(lia)) as [H0 E0].
  rewrite ltb_nonneg in H0 by lia.
  pose proof (SFmul_normal 53 1024 ltac:(lia) _ _ _ _ _ _ _ _
                H0 d_quarter_normal) as H1.
  specialize (H1 ltac:(unfold emin; lia) ltac:(lia)).
  pose proof (SFmul_rounds 53 1024 ltac:(lia) _ _ _ _ _ _ _ _
                H0 d_quarter_normal) as R1.
  specialize (R1 ltac:(unfold emin; lia) ltac:(lia)).
  assert (Q1 : (Q_of (F64.of_Z value) * Q_of d_quarter ==
                inject_Z value * pow2 (-2))%Q).
  { rewrite E0. change (Q_of d_quarter) with ((4503599627370496 # 1) *
      (1 # 18014398509481984))%Q. change (pow2 (-2)) with (1 # 4)%Q.
    apply Qmult_comp; [reflexivity|]. reflexivity. }
  assert (Hk53 : Z.abs value < 2 ^ 53)
    by (change (2 ^ 53) with 9007199254740992; lia).
  assert (Hk24 : Z.abs value < 2 ^ 24)
    by (change (2 ^ 24) with 16777216; lia).
  pose proof (rounds_exact 53 _ _ value (-2) R1 Hk53 Q1) as E1.
  cbn [xorb] in H1.
  pose proof (convert_rounds 24 128 ltac:(lia) 53 _ _ _ _ H1) as R2.
  specialize (R2 ltac:(unfold emin; lia) ltac:(lia)).
  assert (Q2 : (Q_of (SFmul 53 1024 (F64.of_Z value) d_quarter) ==
                inject_Z value * pow2 (-2))%Q) by (rewrite E1; exact Q1).
  pose proof (rounds_exact 24 _ _ value (-2) R2 Hk24 Q2) as E2.
  apply denotes_intro; [exact (rounds_finite _ _ _ R2)|].
  unfold float_of_double, F64.mul, F32.prec, F32.emax, F64.prec, F64.emax.
  rewrite E2, Q2. reflexivity.
Qed.

(** *** Cell voltages *)

Lemma cell_volts_within (raw : Z) :
  0 <= raw < 65536 ->
  within (cell_volts raw) (inject_Z raw * (1 # 2000) + 1) (1 # 250000).
Proof.
  intros Hv. unfold cell_volts.
  destruct (Z.eq_dec raw 0) as [->|Hne].
  { apply within_intro; [reflexivity|]. vm_compute. split; discriminate. }
  destruct (F32_of_Z_small raw ltac:(lia)) as [H0 E0].
  rewrite ltb_nonneg in H0 by lia.
  pose proof (SFdiv_normal 24 128 ltac:(lia) _ _ _ _ _ _ _ _
                H0 f_2000_normal) as H1.
  specialize (H1 ltac:(unfold emin; lia) ltac:(lia)).
  pose proof (SFdiv_rounds 24 128 ltac:(lia) _ _ _ _ _ _ _ _
                H0 f_2000_normal) as R1.
  specialize (R1 ltac:(unfold emin; lia) ltac:(lia)).
  cbn [xorb] in H1.
  destruct (SFadd_rounds 24 128 ltac:(lia) _ _ _ _ _ _ _ H1 f_1_normal)
    as [R2 _]; [unfold emin; lia | lia |].
  apply (rounds_eq _ _ _ (inject_Z raw * (1 # 2000))%Q) in R1.
  2:{ rewrite E0. change (Q_of f_2000) with ((16384000 # 1) * (1 # 8192))%Q.
      field. }
  change (Q_of f_1) with ((8388608 # 1) * (1 # 8388608))%Q in R2.
  destruct (inject_Z_range raw 0 65535 ltac:(lia)) as [Hr1 Hr2].
  change (inject_Z 0) with 0%Q in Hr1.
  change (inject_Z 65535) with 65535%Q in Hr2.
  destruct (rounds_24 _ _ R1) as [B1 _]. specialize (B1 ltac:(lra)).
  destruct (rounds_24 _ _ R2) as [B2 _].
  unfold F32.div, F32.prec, F32.emax in *.
  set (vd := Q_of (SFdiv 24 128 (F32.of_Z raw) f_2000)) in *.
  specialize (B2 ltac:(lra)).
  apply within_intro; [exact (rounds_finite _ _ _ R2)|].
  unfold F32.add, F32.prec, F32.emax. lra.
Qed.

(** *** Raw state of charge, state of health, estimated range *)

Lemma soc_raw_within (value : Z) :
  0 <= value < 65536 ->
  within (F32.div (F32.of_Z value) f_10) (inject_Z value * (1 # 10))
         (1 # 2560).
Proof.
  intros Hv.
  destruct (Z.eq_dec value 0) as [->|Hne].
  { apply within_intro; [reflexivity|]. vm_compute. split; discriminate. }
  destruct (F32_of_Z_small value ltac:(lia)) as [H0 E0].
  rewrite ltb_nonneg in H0 by lia.
  pose proof (SFdiv_rounds 24 128 ltac:(lia) _ _ _ _ _ _ _ _
                H0 f_10_normal) as R1.
  specialize (R1 ltac:(unfold emin; lia) ltac:(lia)).
  apply (rounds_eq _ _ _ (inject_Z value * (1 # 10))%Q) in R1.
  2:{ rewrite E0. change (Q_of f_10) with ((10485760 # 1) * (1 # 1048576))%Q.
      field. }
  destruct (inject_Z_range value 0 65535 ltac:(lia)) as [Hr1 Hr2].
  change (inject_Z 0) with 0%Q in Hr1.
  change (inject_Z 65535) with 65535%Q in Hr2.
  destruct (rounds_24 _ _ R1) as [B1 _]. specialize (B1 ltac:(lra)).
  apply within_intro; [exact (rounds_finite _ _ _ R1)|].
  unfold F32.div, F32.prec, F32.emax. lra.
Qed.

(** [value / c] computed in [double] and stored as [float], for a
    [double] constant [c] of magnitude between 8 and 128. *)
Lemma scaled_reading_within (value c : Z) (dc : F64.t) (lc : Z) (err : Q) :
  0 <= value < 65536 -> 0 < c ->
  normal_in 53 false lc lc dc -> 4 <= lc <= 7 ->
  (Q_of dc == inject_Z c)%Q ->
  (65535 * (1 # 16777215) <= err * inject_Z c)%Q ->
  within (float_of_double (F64.div (F64.of_Z value) dc))
         (inject_Z value / inject_Z c) err.
Proof.
  intros Hv Hc Hdc Hlc Edc Herr.
  pose proof (inject_Z_pos c Hc) as HC.
  assert (Herr0 : (0 <= err)%Q).
  { apply Qnot_lt_le. intros H.
    assert (err * inject_Z c < 0)%Q; [|lra].
    setoid_replace 0%Q with (0 * inject_Z c)%Q by ring.
    now apply Qmult_lt_compat_r. }
  destruct (Z.eq_dec value 0) as [->|Hne].
  { destruct Hdc as (mc & ec & -> & _).
    apply within_intro; [reflexivity|].
    assert (E : (inject_Z 0 / inject_Z c == 0)%Q) by (field; lra).
    rewrite E. change (Q_of _) with 0%Q. lra. }
  destruct (F64_of_Z_small value ltac:(lia)) as [H0 E0].
  rewrite ltb_nonneg in H0 by lia.
  pose proof (SFdiv_normal 53 1024 ltac:(lia) _ _ _ _ _ _ _ _ H0 Hdc) as H1.
  specialize (H1 ltac:(unfold emin; lia) ltac:(lia)).
  pose proof (SFdiv_rounds 53 1024 ltac:(lia) _ _ _ _ _ _ _ _ H0 Hdc) as R1.
  specialize (R1 ltac:(unfold emin; lia) ltac:(lia)).
  cbn [xorb] in H1.
  pose proof (convert_rounds 24 128 ltac:(lia) 53 _ _ _ _ H1) as R2.
  specialize (R2 ltac:(unfold emin; lia) ltac:(lia)).
  apply (rounds_eq _ _ _ (inject_Z value / inject_Z c)%Q) in R1;
    [|now rewrite E0, Edc].
  destruct (inject_Z_range value 0 65535 ltac:(lia)) as [Hr1 Hr2].
  change (inject_Z 0) with 0%Q in Hr1.
  change (inject_Z 65535) with 65535%Q in Hr2.
  set (q := (inject_Z value / inject_Z c)%Q) in *.
  assert (Hq0 : (0 <= q)%Q).
  { unfold q. apply Qle_shift_div_l; [assumption | lra]. }
  assert (Hq1 : (q * (1 # 16777215) <= err)%Q).
  { assert (Hqc : (q * inject_Z c <= 65535)%Q).
    { unfold q. assert (E : (inject_Z value / inject_Z c * inject_Z c ==
                             inject_Z value)%Q) by (field; lra).
      rewrite E. assumption. }
    apply Qmult_lt_0_le_reg_r with (inject_Z c); [assumption|].
    apply Qle_trans with (65535 * (1 # 16777215))%Q; [|assumption].
    setoid_replace (q * (1 # 16777215) * inject_Z c)%Q
      with (q * inject_Z c * (1 # 16777215))%Q by ring.
    lra. }
  destruct (rounds_53 _ _ R1) as [B1 _]. specialize (B1 Hq0).
  destruct (rounds_24 _ _ R2) as [B2 _].
  unfold F64.div, F64.prec, F64.emax in *.
  set (vd := Q_of (SFdiv 53 1024 (F64.of_Z value) dc)) in *.
  specialize (B2 ltac:(lra)).
  apply within_intro; [exact (rounds_finite _ _ _ R2)|].
  unfold float_of_double, F32.prec, F32.emax. lra.
Qed.

Lemma soh_within (value : Z) :
  0 <= value < 65536 ->
  within (float_of_double (F64.div (F64.of_Z value) d_100))
         (inject_Z value / 100) (1 # 25600).
Proof.
  intros Hv.
  apply (scaled_reading_within value 100 d_100 7); try lia.
  - exact d_100_normal.
  - vm_compute. reflexivity.
  - vm_compute. discriminate.
Qed.

Lemma range_est_within (value : Z) :
  0 <= value < 65536 ->
  within (float_of_double (F64.div (F64.of_Z value) d_10))
         (inject_Z value / 10) (1 # 2560).
Proof.
  intros Hv.
  apply (scaled_reading_within value 10 d_10 4); try lia.
  - exact d_10_normal.
  - vm_compute. reflexivity.
  - vm_compute. discriminate.
Qed.

(** *** Battery current *)

Lemma current_within (value : Z) :
  0 <= value < 65536 ->
  within (float_of_double (current_formula value))
         (inject_Z (value - 40000) * (1 # 40)) (1 # 16000).
Proof.
  intros Hv. unfold current_formula.
  set (k := value - 40000).
  destruct (Z.eq_dec k 0) as [->|Hne].
  { apply within_intro; [reflexivity|]. vm_compute. split; discriminate. }
  destruct (F64_of_Z_small k ltac:(lia)) as [H0 E0].
  pose proof (SFmul_normal 53 1024 ltac:(lia) _ _ _ _ _ _ _ _
                H0 d_quarter_normal) as H1.
  specialize (H1 ltac:(unfold emin; lia) ltac:(lia)).
  pose proof (SFmul_rounds 53 1024 ltac:(lia) _ _ _ _ _ _ _ _
                H0 d_quarter_normal) as R1.
  specialize (R1 ltac:(unfold emin; lia) ltac:(lia)).
  assert (Q1 : (Q_of (F64.of_Z k) * Q_of d_quarter ==
                inject_Z k * pow2 (-2))%Q).
  { rewrite E0. change (Q_of d_quarter) with ((4503599627370496 # 1) *
      (1 # 18014398509481984))%Q. change (pow2 (-2)) with (1 # 4)%Q.
    apply Qmult_comp; reflexivity. }
  assert (Hk53 : Z.abs k < 2 ^ 53)
    by (change (2 ^ 53) with 9007199254740992; lia).
  pose proof (rounds_exact 53 _ _ k (-2) R1 Hk53 Q1) as E1.
  rewrite Q1 in E1. change (pow2 (-2)) with (1 # 4)%Q in E1.
  pose proof (SFdiv_normal 53 1024 ltac:(lia) _ _ _ _ _ _ _ _
                H1 d_10_normal) as H2.
  specialize (H2 ltac:(unfold emin; lia) ltac:(lia)).
  pose proof (SFdiv_rounds 53 1024 ltac:(lia) _ _ _ _ _ _ _ _
                H1 d_10_normal) as R2.
  specialize (R2 ltac:(unfold emin; lia) ltac:(lia)).
  apply (rounds_eq _ _ _ (inject_Z k * (1 # 40))%Q) in R2.
  2:{ rewrite E1. change (Q_of d_10) with ((5629499534213120 # 1) *
        (1 # 562949953421312))%Q. field. }
  pose proof (convert_rounds 24 128 ltac:(lia) 53 _ _ _ _ H2) as R3.
  specialize (R3 ltac:(unfold emin; lia) ltac:(lia)).
  destruct (inject_Z_range k (-40000) 25535 ltac:(lia)) as [Hr1 Hr2].
  change (inject_Z (-40000)) with (-40000 # 1)%Q in Hr1.
  change (inject_Z 25535) with 25535%Q in Hr2.
  destruct (rounds_53 _ _ R2) as [B1p B1n].
  destruct (rounds_24 _ _ R3) as [B2p B2n].
  unfold F64.div, F64.mul, F64.prec, F64.emax in *.
  set (vd := Q_of (SFdiv 53 1024 (SFmul 53 1024 (F64.of_Z k) d_quarter) d_10))
    in *.
  apply within_intro; [exact (rounds_finite _ _ _ R3)|].
  unfold float_of_double, F32.prec, F32.emax.
  destruct (Qlt_le_dec (inject_Z k) 0) as [Hs|Hs].
  - specialize (B1n ltac:(lra)). specialize (B2n ltac:(lra)). lra.
  - specialize (B1p ltac:(lra)). specialize (B2p ltac:(lra)). lra.
Qed.

(** *** Scaled state of charge *)

Lemma soc_formula_within (lowerlimit upperlimit value : Z) :
  normal_in 24 false 10 10 (F32.of_Z (upperlimit - lowerlimit)) ->
  0 < upperlimit - lowerlimit < 65536 ->
  0 <= lowerlimit <= 60 -> 0 <= value < 65536 ->
  let q := (inject_Z (value - lowerlimit) * 100 /
            inject_Z (upperlimit - lowerlimit))%Q in
  is_finite (soc_formula lowerlimit upperlimit value) = true /\
  (Qabs (Q_of (soc_formula lowerlimit upperlimit value) - q) <=
   Qabs q * (1 # 16777216))%Q.
Proof.
  intros Hspan Hs Hl Hv q. unfold soc_formula.
  set (k := value - lowerlimit) in *. set (span := upperlimit - lowerlimit) in *.
  pose proof (inject_Z_pos span ltac:(lia)) as HS.
  destruct (Z.eq_dec k 0) as [E|Hne].
  { unfold q. rewrite E. destruct Hspan as (ms & es & -> & _).
    split; [reflexivity|].
    assert (E0 : (inject_Z 0 * 100 / inject_Z span == 0)%Q) by (field; lra).
    rewrite E0. vm_compute. discriminate. }
  destruct (F32_of_Z_small k ltac:(lia)) as [H0 E0].
  destruct (F32_of_Z_small span ltac:(lia)) as [_ Es].
  pose proof (SFmul_normal 24 128 ltac:(lia) _ _ _ _ _ _ _ _
                H0 f_100_normal) as H1.
  specialize (H1 ltac:(unfold emin; lia) ltac:(lia)).
  pose proof (SFmul_rounds 24 128 ltac:(lia) _ _ _ _ _ _ _ _
                H0 f_100_normal) as R1.
  specialize (R1 ltac:(unfold emin; lia) ltac:(lia)).
  assert (Q1 : (Q_of (F32.of_Z k) * Q_of f_100 ==
                inject_Z (k * 100) * pow2 0)%Q).
  { rewrite E0, inject_Z_mult.
    change (Q_of f_100) with ((13107200 # 1) * (1 # 131072))%Q.
    change (pow2 0) with 1%Q. change (inject_Z 100) with 100%Q. field. }
  assert (Hk24 : Z.abs (k * 100) < 2 ^ 24)
    by (change (2 ^ 24) with 16777216; lia).
  pose proof (rounds_exact 24 _ _ (k * 100) 0 R1 Hk24 Q1) as E1.
  rewrite Q1 in E1.
  pose proof (SFdiv_rounds 24 128 ltac:(lia) _ _ _ _ _ _ _ _
                H1 Hspan) as R2.
  specialize (R2 ltac:(unfold emin; lia) ltac:(lia)).
  apply (rounds_eq _ _ _ q) in R2.
  2:{ rewrite E1, Es, inject_Z_mult. unfold q.
      change (pow2 0) with 1%Q. change (inject_Z 100) with 100%Q.
      field. lra. }
  split; [exact (rounds_finite _ _ _ R2)|].
  destruct R2 as (_ & Hb & _). change (pow2 24) with (16777216 # 1)%Q in Hb.
  unfold F32.div, F32.mul, F32.prec, F32.emax. lra.
Qed.

(** *** Power *)







(** *** Coolant temperature and ideal range *)

Lemma coolant_temp_exact_all :
  forall_from 0 (Z.to_nat 256)
    (fun raw => denotesb (coolant_temp raw) (inject_Z raw * (1 # 2) - 40))
  = true.
Proof. vm_compute. reflexivity. Qed.

Lemma coolant_temp_exact (raw : Z) :
  uint8_range raw ->
  denotes (coolant_temp raw) (inject_Z raw * (1 # 2) - 40).
Proof.
  intros H. apply denotesb_denotes.
  apply (forall_from_spec (Z.to_nat 256) _ 0 coolant_temp_exact_all).
  unfold uint8_range in H. lia.
Qed.

Lemma f_262_normal : normal_in 24 false 9 9 (F32.of_Z 262).
Proof.
  exists 8585216%positive, (-15).
  split; [reflexivity|]. split; [reflexivity | lia].
Qed.

(** The shape of a nonzero scaled SOC. *)
Lemma soc_formula_normal (lowerlimit upperlimit value : Z) :
  normal_in 24 false 10 10 (F32.of_Z (upperlimit - lowerlimit)) ->
  0 <= lowerlimit <= 60 -> 0 <= value < 65536 -> value <> lowerlimit ->
  normal_in 24 (value <? lowerlimit) (-3) 17
    (soc_formula lowerlimit upperlimit value).
Proof.
  intros Hspan Hl Hv Hne. unfold soc_formula.
  destruct (F32_of_Z_small (value - lowerlimit) ltac:(lia)) as [H0 _].
  replace (value - lowerlimit <? 0) with (value <? lowerlimit) in H0
    by (destruct (Z.ltb_spec value lowerlimit),
                 (Z.ltb_spec (value - lowerlimit) 0); lia || reflexivity).
  pose proof (SFmul_normal 24 128 ltac:(lia) _ _ _ _ _ _ _ _
                H0 f_100_normal) as H1.
  specialize (H1 ltac:(unfold emin; lia) ltac:(lia)).
  pose proof (SFdiv_normal 24 128 ltac:(lia) _ _ _ _ _ _ _ _
                H1 Hspan) as H2.
  specialize (H2 ltac:(unfold emin; lia) ltac:(lia)).
  rewrite !xorb_false_r in H2.
  eapply normal_in_weaken; [exact H2 | lia | lia].
Qed.

(** The ideal range follows the scaled SOC within a relative error of
    two roundings. *)
Lemma range_formula_within (s : bool) (soc : F32.t) :
  normal_in 24 s (-3) 17 soc ->
  is_finite (range_formula soc) = true /\
  (Qabs (Q_of (range_formula soc) - 262 * (Q_of soc * (1 # 100))) <=
   Qabs (Q_of soc) * (1 # 3200000))%Q.
Proof.
  intros Hs. unfold range_formula.
  pose proof (SFdiv_normal 24 128 ltac:(lia) _ _ _ _ _ _ _ _
                Hs f_100_normal) as H1.
  specialize (H1 ltac:(unfold emin; lia) ltac:(lia)).
  pose proof (SFdiv_rounds 24 128 ltac:(lia) _ _ _ _ _ _ _ _
                Hs f_100_normal) as R1.
  specialize (R1 ltac:(unfold emin; lia) ltac:(lia)).
  apply (rounds_eq _ _ _ (Q_of soc * (1 # 100))%Q) in R1.
  2:{ change (Q_of f_100) with ((13107200 # 1) * (1 # 131072))%Q. field. }
  pose proof (SFmul_rounds 24 128 ltac:(lia) _ _ _ _ _ _ _ _
                f_262_normal H1) as R2.
  specialize (R2 ltac:(unfold emin; lia) ltac:(lia)).
  change (Q_of (F32.of_Z 262)) with ((8585216 # 1) * (1 # 32768))%Q in R2.
  destruct (rounds_24 _ _ R1) as [B1p B1n].
  destruct (rounds_24 _ _ R2) as [B2p B2n].
  unfold F32.mul, F32.div, F32.prec, F32.emax in *.
  set (vs := Q_of soc) in *.
  set (vd := Q_of (SFdiv 24 128 soc f_100)) in *.
  set (vr := Q_of (SFmul 24 128 (F32.of_Z 262) (SFdiv 24 128 soc f_100))) in *.
  split; [exact (rounds_finite _ _ _ R2)|].
  clearbody vs vd vr.
  apply Qabs_Qle_condition.
  destruct (Qlt_le_dec vs 0) as [Hneg|Hpos].
  - rewrite (Qabs_neg vs) by lra.
    specialize (B1n ltac:(lra)). specialize (B2n ltac:(lra)). lra.
  - rewrite (Qabs_pos vs) by lra.
    specialize (B1p ltac:(lra)). specialize (B2p ltac:(lra)). lra.
Qed.

(** ** Every metric stays a number *)































(** ** Sequences of calls *)

Lemma IncomingBmsPoll_inprogress
    (t : PidTable) (pid : Z) (data : list Z) (len remain : Z) (st : State) :
  pids_distinct t ->
  ms_v_charge_inprogress (IncomingBmsPoll t pid data len remain st) =
  if pid =? bmsStatusPid t then charging_status (byte_at data 0)
  else ms_v_charge_inprogress st.
Proof.
  intros Hd. destruct (Z.eqb_spec pid (bmsStatusPid t)) as [->|Hne].
  - rewrite IncomingBmsPoll_bmsStatus by assumption.
    apply SetBmsStatus_inprogress.
  - apply Z.eqb_neq in Hne. unfold IncomingBmsPoll. rewrite Hne.
    repeat match goal with
    | |- context [pid =? ?x] => destruct (pid =? x)
    end;
    unfold ProcessBatteryStats; repeat break_if; reflexivity.
Qed.

Lemma dispatch_all_flag (t : PidTable) (st0 : State) (ps : list Poll) :
  pids_distinct t ->
  forall (acc : option Z) (st : State),
    flag_agrees acc st0 st ->
    flag_agrees (last_status t ps acc) st0 (dispatch_all t ps st).
Proof.
  intros Hd. induction ps as [|p r IH]; intros acc st H; [exact H|].
  cbn [dispatch_all fold_left last_status]. apply IH.
  unfold dispatch. unfold flag_agrees.
  pose proof (IncomingBmsPoll_inprogress t (poll_pid p) (poll_data p)
                (poll_length p) (poll_remain p) st Hd) as E.
  destruct (poll_pid p =? bmsStatusPid t); [exact E|].
  unfold flag_agrees in H. destruct acc; congruence.
Qed.

Lemma IncomingBmsPoll_cache
    (t : PidTable) (pid : Z) (data : list Z) (len remain : Z) (st : State) :
  m_bmsCache (IncomingBmsPoll t pid data len remain st) =
  if is_min_frame t (mkPoll pid data len remain)
  then byte_at data 2 else m_bmsCache st.
Proof.
  unfold is_min_frame, IncomingBmsPoll, cellStatPids, existsb.
  cbn [poll_pid poll_remain].
  repeat match goal with
  | |- context [pid =? ?x] => destruct (pid =? x); cbn [orb andb]
  end;
  unfold ProcessBatteryStats, SetBmsStatus;
  repeat break_if; reflexivity.
Qed.

Lemma dispatch_all_cache (t : PidTable) (ps : list Poll) :
  forallb (fun p => negb (is_min_frame t p)) ps = true ->
  forall st, m_bmsCache (dispatch_all t ps st) = m_bmsCache st.
Proof.
  induction ps as [|p r IH]; intros H st; [reflexivity|].
  cbn [forallb] in H. apply andb_prop in H. destruct H as [Hp Hr].
  cbn [dispatch_all fold_left].
  change (fold_left (dispatch t) r (dispatch t st p))
    with (dispatch_all t r (dispatch t st p)).
  rewrite (IH Hr). unfold dispatch.
  rewrite IncomingBmsPoll_cache.
  destruct p as [pid data len remain]. cbn [poll_pid poll_data poll_length poll_remain].
  apply negb_true_iff in Hp. rewrite Hp. reflexivity.
Qed.

Lemma nth_firstn_lt {A : Type} (l : list A) (n i : nat) (d : A) :
  (i < n)%nat -> nth i (firstn n l) d = nth i l d.
Proof.
  revert l i. induction n as [|n IH]; intros [|x l] [|i] H;
    cbn; try lia; try reflexivity.
  apply IH. lia.
Qed.

Lemma byte_at_firstn (data : list Z) (i : nat) :
  (i < 3)%nat -> byte_at (firstn 3 data) i = byte_at data i.
Proof. intros H. unfold byte_at. now apply nth_firstn_lt. Qed.

(** ** Further properties of the decoder *)

Lemma within_eq (x : spec_float) (q q' err err' : Q) :
  (q == q')%Q -> (err == err')%Q -> within x q err -> within x q' err'.
Proof.
  intros Eq Ee (v & Hv & Hb). exists v. split; [assumption|].
  now rewrite <- Eq, <- Ee.
Qed.

Lemma denotes_eq (x : spec_float) (q q' : Q) :
  (q == q')%Q -> denotes x q -> denotes x q'.
Proof.
  intros Eq (v & Hv & Hb). exists v. split; [assumption|].
  now rewrite <- Eq.
Qed.





(** X1: whatever the prior state, after a status byte the charge
    in-progress flag is set exactly when the byte is 0xC (StartingCharge),
    0x6 (Charging) or 0x7 (CcsCharging). *)
Theorem X1_status_decides_in_progress :
  forall (status : Z) (st : State),
    ms_v_charge_inprogress (SetBmsStatus status st) =
    (status =? StartingCharge) || (status =? Charging) ||
    (status =? CcsCharging).
Proof.
  intros status st. unfold SetBmsStatus.
  destruct (status =? StartingCharge), (status =? Charging),
    (status =? CcsCharging); cbn [orb]; try reflexivity.
  destruct (ms_v_charge_inprogress st) eqn:E; [|exact E].
  break_if; reflexivity.
Qed.

(** X2: after any sequence of calls of the decoder the in-progress flag
    is the one decided by the last BMS-status byte of the sequence; without
    a status call it is unchanged.  No frame of another PID touches it. *)
Theorem X2_in_progress_follows_last_status :
  forall (t : PidTable) (ps : list Poll) (st : State),
    pids_distinct t ->
    ms_v_charge_inprogress (dispatch_all t ps st) =
    match last_status t ps None with
    | Some status => charging_status status
    | None => ms_v_charge_inprogress st
    end.
Proof.
  intros t ps st Hd.
  pose proof (dispatch_all_flag t st ps Hd None st eq_refl) as H.
  unfold flag_agrees in H. destruct (last_status t ps None); exact H.
Qed.

Lemma X2_in_progress_follows_last_status_witness :
  ms_v_charge_inprogress
    (dispatch_all sample_pids
       [mkPoll (bmsStatusPid sample_pids) [6] 1 0;
        mkPoll (batterySoCPid sample_pids) [3; 172] 2 0;
        mkPoll (bmsStatusPid sample_pids) [1] 1 0;
        mkPoll (batteryCurrentPid sample_pids) [156; 64] 2 0]
       init_state) = charging_status 1.
Proof.
  exact (X2_in_progress_follows_last_status sample_pids _ init_state
           sample_pids_distinct).
Defined.

(** X3: a status byte handled twice in a row leaves the state the first
    handling produced. *)
Theorem X3_status_twice_is_once :
  forall (status : Z) (st : State),
    SetBmsStatus status (SetBmsStatus status st) = SetBmsStatus status st.
Proof.
  intros status st.
  destruct st as [a1 a2 a3 a4 a5 a6 a7 a8 a9 a10 a11 a12 a13 a14 soc a16 a17
                  a18 a19 inprogress a21 a22 a23 a24 a25 a26 bmu].
  unfold SetBmsStatus. state_simpl.
  destruct ((status =? StartingCharge) || (status =? Charging));
    [reflexivity|].
  destruct (status =? CcsCharging); [reflexivity|].
  destruct inprogress; [|reflexivity].
  destruct (F64.leb d_97 (double_of_float soc)); reflexivity.
Qed.

(** X4: the status transition writes charge metrics only: the cache, the
    two vehicle-specific metrics, the cell vectors, the pack aggregates,
    every battery metric and the configuration are left as they were. *)
Theorem X4_status_keeps_measurements :
  forall (status : Z) (st : State),
    measurements (SetBmsStatus status st) = measurements st.
Proof.
  intros status st. unfold SetBmsStatus. repeat break_if; reflexivity.
Qed.

(** X5: status 0xC (StartingCharge) and 0x6 (Charging) are handled alike:
    they set the in-progress flag and the charge type "type2" and nothing
    else; unlike the CCS case the charge state label and the charge
    current, power, voltage and current limit keep their previous
    values. *)
Theorem X5_type2_charging :
  forall (status : Z) (st : State),
    status = StartingCharge \/ status = Charging ->
    let st' := SetBmsStatus status st in
    st' = set_ms_v_charge_type "type2" (set_ms_v_charge_inprogress true st) /\
    ms_v_charge_inprogress st' = true /\
    ms_v_charge_type st' = "type2"%string /\
    ms_v_charge_state st' = ms_v_charge_state st /\
    ms_v_charge_current st' = ms_v_charge_current st /\
    ms_v_charge_power st' = ms_v_charge_power st /\
    ms_v_charge_climit st' = ms_v_charge_climit st /\
    ms_v_charge_voltage st' = ms_v_charge_voltage st.
Proof.
  intros status st H st'.
  assert (E : st' = set_ms_v_charge_type "type2"
                      (set_ms_v_charge_inprogress true st)).
  { unfold st', SetBmsStatus. destruct H as [-> | ->]; reflexivity. }
  rewrite E. repeat split.
Qed.

Lemma X5_type2_charging_witness :
  let st' := SetBmsStatus 6 charge_done_state in
  ms_v_charge_inprogress st' = true /\
  ms_v_charge_type st' = "type2"%string /\
  ms_v_charge_state st' = "done"%string.
Proof.
  intros st'.
  destruct (X5_type2_charging 6 charge_done_state (or_intror eq_refl))
    as (_ & H1 & H2 & H3 & _).
  split; [exact H1|]. split; [exact H2 | exact H3].
Defined.

(** X6: while a charge is in progress an SOC frame sets the charge state
    label from the raw reading alone: "charging" below raw 936 and "topoff"
    from 936 on with the new BMU window (25..940), the threshold being 966
    with the original window (60..970). *)
Theorem X6_soc_frame_label_threshold :
  forall (t : PidTable) (data : list Z) (len remain : Z) (st : State),
    pids_distinct t ->
    ms_v_charge_inprogress st = true ->
    let raw := be16 (byte_at data 0) (byte_at data 1) in
    let threshold :=
      if GetParamValueBool (xmg_updatedbmu st) true then 936 else 966 in
    ms_v_charge_state
      (IncomingBmsPoll t (batterySoCPid t) data len remain st) =
    if raw <? threshold then "charging"%string else "topoff"%string.
Proof.
  intros t data len remain st Hd Hp raw threshold.
  rewrite (IncomingBmsPoll_soc t data len remain st Hd). cbv zeta. fold raw.
  change (ms_v_charge_inprogress
            (set_m_soc_raw (F32.div (F32.of_Z raw) f_10) st))
    with (ms_v_charge_inprogress st).
  change (calculateSoc raw (set_m_soc_raw (F32.div (F32.of_Z raw) f_10) st))
    with (calculateSoc raw st).
  rewrite Hp.
  destruct (calculateSoc_labels raw st (be16_range _ _)) as [_ E].
  rewrite E. change (topoff_threshold st) with threshold.
  destruct (raw <? threshold); reflexivity.
Qed.

Lemma X6_soc_frame_label_threshold_witness :
  ms_v_charge_state
    (IncomingBmsPoll sample_pids (batterySoCPid sample_pids) [3; 167] 2 0
       (charging_at (F32.of_Z 50))) = "charging"%string /\
  ms_v_charge_state
    (IncomingBmsPoll sample_pids (batterySoCPid sample_pids) [3; 168] 2 0
       (charging_at (F32.of_Z 50))) = "topoff"%string.
Proof.
  split.
  - exact (X6_soc_frame_label_threshold sample_pids [3; 167] 2 0
             (charging_at (F32.of_Z 50)) sample_pids_distinct eq_refl).
  - exact (X6_soc_frame_label_threshold sample_pids [3; 168] 2 0
             (charging_at (F32.of_Z 50)) sample_pids_distinct eq_refl).
Defined.

(** X7: a charge in progress that receives an SOC frame and then a status
    byte other than 0xC, 0x6 and 0x7 ends with the label "done" exactly
    when the raw SOC reading was at least 913 (new BMU window) or 943
    (original window), and with "stopped" otherwise; the charge type
    becomes "not charging" and the in-progress flag is cleared. *)
Theorem X7_charge_end_label_threshold :
  forall (t : PidTable) (d_soc d_status : list Z)
         (len1 len2 remain1 remain2 : Z) (st : State),
    pids_distinct t ->
    ms_v_charge_inprogress st = true ->
    charging_status (byte_at d_status 0) = false ->
    let raw := be16 (byte_at d_soc 0) (byte_at d_soc 1) in
    let threshold :=
      if GetParamValueBool (xmg_updatedbmu st) true then 913 else 943 in
    let st1 := IncomingBmsPoll t (batterySoCPid t) d_soc len1 remain1 st in
    let st2 := IncomingBmsPoll t (bmsStatusPid t) d_status len2 remain2 st1 in
    ms_v_charge_state st2 =
      (if threshold <=? raw then "done"%string else "stopped"%string) /\
    ms_v_charge_type st2 = "not charging"%string /\
    ms_v_charge_inprogress st2 = false.
Proof.
  intros t d_soc d_status len1 len2 remain1 remain2 st Hd Hp Hs
         raw threshold st1 st2.
  assert (Hsoc : ms_v_bat_soc st1 = calculateSoc raw st).
  { unfold st1. rewrite (IncomingBmsPoll_soc t d_soc len1 remain1 st Hd).
    reflexivity. }
  assert (Hp1 : ms_v_charge_inprogress st1 = true).
  { unfold st1. rewrite IncomingBmsPoll_inprogress by assumption.
    destruct (Z.eqb_spec (batterySoCPid t) (bmsStatusPid t)) as [E|_];
      [|exact Hp].
    exfalso. revert E. apply (pid_neq t 12 13 Hd); lia. }
  unfold st2. rewrite (IncomingBmsPoll_bmsStatus t d_status len2 remain2 st1 Hd).
  unfold charging_status in Hs.
  apply orb_false_elim in Hs. destruct Hs as [Hs H3].
  apply orb_false_elim in Hs. destruct Hs as [H1 H2].
  unfold SetBmsStatus. rewrite H1, H2, H3, Hp1. cbn [orb].
  change (ms_v_bat_soc (set_ms_v_charge_type "not charging" st1))
    with (ms_v_bat_soc st1).
  rewrite Hsoc.
  destruct (calculateSoc_labels raw st (be16_range _ _)) as [E _].
  rewrite E. change (done_threshold st) with threshold.
  destruct (threshold <=? raw); repeat split.
Qed.

Lemma X7_charge_end_label_threshold_witness :
  let st2 :=
    IncomingBmsPoll sample_pids (bmsStatusPid sample_pids) [1] 1 0
      (IncomingBmsPoll sample_pids (batterySoCPid sample_pids) [3; 145] 2 0
         (charging_at (F32.of_Z 50))) in
  ms_v_charge_state st2 = "done"%string /\
  ms_v_charge_type st2 = "not charging"%string /\
  ms_v_charge_inprogress st2 = false.
Proof.
  exact (X7_charge_end_label_threshold sample_pids [3; 145] [1] 2 1 0 0
           (charging_at (F32.of_Z 50)) sample_pids_distinct eq_refl eq_refl).
Defined.

(** X8: a PID that is none of the seventeen labels of the switch is
    ignored: the state is returned unchanged, whatever the payload. *)
Theorem X8_unknown_pid_ignored :
  forall (t : PidTable) (pid : Z) (data : list Z) (len remain : Z)
         (st : State),
    ~ In pid (allPids t) ->
    IncomingBmsPoll t pid data len remain st = st.
Proof.
  intros t pid data len remain st H. unfold IncomingBmsPoll.
  cbv [allPids cellStatPids scalarPids app In] in H.
  repeat match goal with
  | |- context [pid =? ?x] =>
      let E := fresh "E" in
      assert (E : (pid =? x) = false)
        by (apply Z.eqb_neq; intros ->; apply H; tauto);
      rewrite E; clear E
  end. reflexivity.
Qed.

Lemma X8_unknown_pid_ignored_witness :
  IncomingBmsPoll sample_pids 0xb0ff [1; 2; 3; 4] 4 0 bus_399V_state =
  bus_399V_state.
Proof.
  apply X8_unknown_pid_ignored.
  cbv [sample_pids allPids cellStatPids scalarPids app In
    cell1StatPid cell2StatPid cell3StatPid cell4StatPid cell5StatPid
    cell6StatPid cell7StatPid cell8StatPid cell9StatPid
    batteryBusVoltagePid batteryCurrentPid batteryVoltagePid batterySoCPid
    bmsStatusPid batteryCoolantTempPid batterySoHPid bmsRangePid].
  intuition discriminate.
Defined.

(** X9: the decoder reads at most the first three payload bytes, never
    its [length] argument, and [remain] only as zero or nonzero: two calls
    that agree on the PID, on the first three bytes and on whether [remain]
    is zero produce the same state (the fourth byte of a cell frame, the
    PCB temperature, is not decoded). *)
Theorem X9_poll_reads_three_bytes :
  forall (t : PidTable) (pid : Z) (d d' : list Z)
         (len len' remain remain' : Z) (st : State),
    firstn 3 d = firstn 3 d' ->
    (remain =? 0) = (remain' =? 0) ->
    IncomingBmsPoll t pid d len remain st =
    IncomingBmsPoll t pid d' len' remain' st.
Proof.
  intros t pid d d' len len' remain remain' st H Hr.
  assert (H0 : byte_at d 0 = byte_at d' 0)
    by (rewrite <- (byte_at_firstn d), <- (byte_at_firstn d'), H by lia;
        reflexivity).
  assert (H1 : byte_at d 1 = byte_at d' 1)
    by (rewrite <- (byte_at_firstn d), <- (byte_at_firstn d'), H by lia;
        reflexivity).
  assert (H2 : byte_at d 2 = byte_at d' 2)
    by (rewrite <- (byte_at_firstn d), <- (byte_at_firstn d'), H by lia;
        reflexivity).
  unfold IncomingBmsPoll, ProcessBatteryStats.
  rewrite H0, H1, H2, Hr. reflexivity.
Qed.

Lemma X9_poll_reads_three_bytes_witness :
  IncomingBmsPoll sample_pids (cell3StatPid sample_pids)
    [16; 150; 16; 99] 4 4 two_blocks_state =
  IncomingBmsPoll sample_pids (cell3StatPid sample_pids)
    [16; 150; 16; 0; 7] 8 1 two_blocks_state.
Proof.
  exact (X9_poll_reads_three_bytes sample_pids _ [16; 150; 16; 99]
           [16; 150; 16; 0; 7] 4 8 4 1 two_blocks_state eq_refl eq_refl).
Defined.

(** X10: the byte cached by a min-frame survives every call that is not
    itself a min-frame, and the cache is shared by the nine blocks: after a
    min-frame for block [i], any number of other calls (max-frames, scalar
    PIDs, status bytes, unknown PIDs) and then a max-frame for block [j],
    the stored vmax of block [j] is decoded from the third byte of that
    min-frame and the first byte of the max-frame. *)
Theorem X10_cache_survives_other_polls :
  forall (t : PidTable) (i j : nat) (d1 d2 : list Z) (len1 len2 remain1 : Z)
         (ps : list Poll) (st : State),
    pids_distinct t -> (i < 9)%nat -> (j < 9)%nat -> remain1 <> 0 ->
    forallb (fun p => negb (is_min_frame t p)) ps = true ->
    let st1 :=
      IncomingBmsPoll t (nth i (cellStatPids t) 0) d1 len1 remain1 st in
    let st2 := dispatch_all t ps st1 in
    let st3 := IncomingBmsPoll t (nth j (cellStatPids t) 0) d2 len2 0 st2 in
    nth_error (ms_v_bat_cell_vmax st3) j =
      Some (F32.add
              (F32.div (F32.of_Z (be16 (byte_at d1 2) (byte_at d2 0)))
                       (F32.of_Z 2000))
              (F32.of_Z 1)).
Proof.
  intros t i j d1 d2 len1 len2 remain1 ps st Hd Hi Hj Hr Hps st1 st2 st3.
  assert (Hc1 : m_bmsCache st1 = byte_at d1 2).
  { unfold st1. rewrite (IncomingBmsPoll_cell t i) by assumption.
    unfold ProcessBatteryStats. apply Z.eqb_neq in Hr. rewrite Hr.
    reflexivity. }
  assert (Hc2 : m_bmsCache st2 = byte_at d1 2).
  { unfold st2. rewrite (dispatch_all_cache t ps Hps). exact Hc1. }
  unfold st3. rewrite (IncomingBmsPoll_cell t j) by assumption.
  unfold ProcessBatteryStats. cbn [Z.eqb negb]. rewrite Hc2.
  state_simpl. apply SetElemValue_nth_error.
Qed.

Lemma X10_cache_survives_other_polls_witness :
  let st3 :=
    IncomingBmsPoll sample_pids (cell5StatPid sample_pids) [154; 120; 124] 3 0
      (dispatch_all sample_pids
         [mkPoll (batterySoCPid sample_pids) [3; 172] 2 0;
          mkPoll (cell1StatPid sample_pids) [100; 120; 124] 3 0;
          mkPoll (bmsStatusPid sample_pids) [6] 1 0]
         (IncomingBmsPoll sample_pids (cell3StatPid sample_pids)
            [16; 104; 16] 3 4 init_state)) in
  nth_error (ms_v_bat_cell_vmax st3) 4 =
    Some (F32.add (F32.div (F32.of_Z (be16 16 154)) (F32.of_Z 2000))
                  (F32.of_Z 1)).
Proof.
  intros st3.
  apply (X10_cache_survives_other_polls sample_pids 2 4 [16; 104; 16]
           [154; 120; 124] 3 3 4 _ init_state sample_pids_distinct).
  - lia.
  - lia.
  - discriminate.
  - vm_compute. reflexivity.
Defined.

(** X11: a cell-block frame touches its own block only.  Through the
    dispatch, the [i]-th cell PID writes index [i-1]; it changes no scalar
    metric, no charge metric and no configuration; a min-frame leaves the
    vmax, tmin and tmax vectors and their pack aggregates alone, a
    max-frame leaves the cache, the vmin vector and the pack vmin alone;
    and the values already stored for the other blocks are kept. *)
Theorem X11_cell_frame_effect :
  forall (t : PidTable) (i : nat) (data : list Z) (len remain : Z)
         (st : State),
    pids_distinct t -> (i < 9)%nat ->
    let st' := IncomingBmsPoll t (nth i (cellStatPids t) 0) data len remain st in
    scalar_part st' = scalar_part st /\
    (remain <> 0 ->
       ms_v_bat_cell_vmax st' = ms_v_bat_cell_vmax st /\
       ms_v_bat_cell_tmin st' = ms_v_bat_cell_tmin st /\
       ms_v_bat_cell_tmax st' = ms_v_bat_cell_tmax st /\
       ms_v_bat_pack_vmax st' = ms_v_bat_pack_vmax st /\
       ms_v_bat_pack_tmin st' = ms_v_bat_pack_tmin st /\
       ms_v_bat_pack_tmax st' = ms_v_bat_pack_tmax st /\
       forall k : nat, k <> i ->
         (k < List.length (ms_v_bat_cell_vmin st))%nat ->
         nth_error (ms_v_bat_cell_vmin st') k =
         nth_error (ms_v_bat_cell_vmin st) k) /\
    (remain = 0 ->
       m_bmsCache st' = m_bmsCache st /\
       ms_v_bat_cell_vmin st' = ms_v_bat_cell_vmin st /\
       ms_v_bat_pack_vmin st' = ms_v_bat_pack_vmin st /\
       forall k : nat, k <> i ->
         ((k < List.length (ms_v_bat_cell_vmax st))%nat ->
          nth_error (ms_v_bat_cell_vmax st') k =
          nth_error (ms_v_bat_cell_vmax st) k) /\
         ((k < List.length (ms_v_bat_cell_tmin st))%nat ->
          nth_error (ms_v_bat_cell_tmin st') k =
          nth_error (ms_v_bat_cell_tmin st) k) /\
         ((k < List.length (ms_v_bat_cell_tmax st))%nat ->
          nth_error (ms_v_bat_cell_tmax st') k =
          nth_error (ms_v_bat_cell_tmax st) k)).
Proof.
  intros t i data len remain st Hd Hi st'.
  unfold st'. rewrite (IncomingBmsPoll_cell t i) by assumption.
  unfold ProcessBatteryStats. split; [|split].
  - destruct (negb (remain =? 0)); reflexivity.
  - intros Hr. apply Z.eqb_neq in Hr. rewrite Hr. cbn [negb]. state_simpl.
    repeat split. intros k Hk Hlen. now apply SetElemValue_other.
  - intros ->. cbn [Z.eqb negb]. state_simpl.
    repeat split; intros Hlen; now apply SetElemValue_other.
Qed.

Lemma X11_cell_frame_effect_witness :
  let st' :=
    IncomingBmsPoll sample_pids (cell3StatPid sample_pids)
      [16; 150; 16; 0] 4 4 two_blocks_state in
  scalar_part st' = scalar_part two_blocks_state /\
  nth_error (ms_v_bat_cell_vmin st') 5 =
  nth_error (ms_v_bat_cell_vmin two_blocks_state) 5.
Proof.
  intros st'.
  destruct (X11_cell_frame_effect sample_pids 2 [16; 150; 16; 0] 4 4
              two_blocks_state sample_pids_distinct ltac:(lia))
    as (Hs & Hmin & _).
  split; [exact Hs|].
  destruct (Hmin ltac:(discriminate)) as (_ & _ & _ & _ & _ & _ & Hk).
  apply Hk; [lia | vm_compute; lia].
Defined.





Lemma IncomingBmsPoll_packVoltage (t : PidTable) data len remain st :
  pids_distinct t ->
  IncomingBmsPoll t (batteryVoltagePid t) data len remain st =
  set_m_bat_pack_voltage
    (float_of_double
       (F64.mul (F64.of_Z (be16 (byte_at data 0) (byte_at data 1))) d_quarter))
    st.
Proof.
  intros H. unfold IncomingBmsPoll.
  pid_eqb_false t H. rewrite Z.eqb_refl. reflexivity.
Qed.

Lemma IncomingBmsPoll_coolantTemp (t : PidTable) data len remain st :
  pids_distinct t ->
  IncomingBmsPoll t (batteryCoolantTempPid t) data len remain st =
  set_ms_v_bat_temp (coolant_temp (byte_at data 0)) st.
Proof.
  intros H. unfold IncomingBmsPoll.
  pid_eqb_false t H. rewrite Z.eqb_refl. reflexivity.
Qed.

Lemma IncomingBmsPoll_soh (t : PidTable) data len remain st :
  pids_distinct t ->
  IncomingBmsPoll t (batterySoHPid t) data len remain st =
  set_ms_v_bat_soh
    (float_of_double
       (F64.div (F64.of_Z (be16 (byte_at data 0) (byte_at data 1))) d_100))
    st.
Proof.
  intros H. unfold IncomingBmsPoll.
  pid_eqb_false t H. rewrite Z.eqb_refl. reflexivity.
Qed.

Lemma IncomingBmsPoll_rangeEst (t : PidTable) data len remain st :
  pids_distinct t ->
  IncomingBmsPoll t (bmsRangePid t) data len remain st =
  set_ms_v_bat_range_est
    (float_of_double
       (F64.div (F64.of_Z (be16 (byte_at data 0) (byte_at data 1))) d_10))
    st.
Proof.
  intros H. unfold IncomingBmsPoll.
  pid_eqb_false t H. rewrite Z.eqb_refl. reflexivity.
Qed.

Lemma Qdiv_as_mult (a : Q) (p : positive) :
  (a / inject_Z (Zpos p) == a * (1 # p))%Q.
Proof.
  unfold Qdiv. apply Qmult_comp; [reflexivity|].
  unfold Qinv, inject_Z. simpl. reflexivity.
Qed.

(** X14: the cell voltage a frame stores is the documented
    [raw / 2000 + 1] volts up to the rounding of the two [float]
    operations: the stored number differs from it by at most 4 microvolts,
    for every payload and every prior state. *)
Theorem X14_cell_voltage_accuracy :
  forall (index : nat) (data : list Z) (remain : Z) (st : State),
    let st' := ProcessBatteryStats index data remain st in
    (remain <> 0 ->
       exists v,
         nth_error (ms_v_bat_cell_vmin st') index = Some v /\
         within v
           (inject_Z (be16 (byte_at data 0) (byte_at data 1)) / 2000 + 1)
           (1 # 250000)) /\
    (remain = 0 ->
       exists v,
         nth_error (ms_v_bat_cell_vmax st') index = Some v /\
         within v
           (inject_Z (be16 (m_bmsCache st) (byte_at data 0)) / 2000 + 1)
           (1 # 250000)).
Proof.
  intros index data remain st st'. unfold st', ProcessBatteryStats. split.
  - intros Hr. apply Z.eqb_neq in Hr. rewrite Hr. cbn [negb]. state_simpl.
    eexists. split; [apply SetElemValue_nth_error|].
    eapply within_eq; [| reflexivity | apply cell_volts_within, be16_range].
    now rewrite (Qdiv_as_mult _ 2000).
  - intros ->. cbn [Z.eqb negb]. state_simpl.
    eexists. split; [apply SetElemValue_nth_error|].
    eapply within_eq; [| reflexivity | apply cell_volts_within, be16_range].
    now rewrite (Qdiv_as_mult _ 2000).
Qed.

Lemma X14_cell_voltage_accuracy_witness :
  exists v,
    nth_error
      (ms_v_bat_cell_vmin
         (ProcessBatteryStats 3 [16; 104; 16; 0] 4 init_state)) 3 = Some v /\
    within v (inject_Z (be16 16 104) / 2000 + 1) (1 # 250000).
Proof.
  destruct (X14_cell_voltage_accuracy 3 [16; 104; 16; 0] 4 init_state)
    as [H _].
  exact (H ltac:(discriminate)).
Defined.

(** X15: a pack-voltage frame stores exactly [raw / 4] volts in the
    internal pack-voltage metric -- the product with 0.25 and the
    conversion to [float] lose nothing -- and changes nothing else, the
    battery-voltage metric included. *)
Theorem X15_pack_voltage_exact :
  forall (t : PidTable) (data : list Z) (len remain : Z) (st : State),
    pids_distinct t ->
    let raw := be16 (byte_at data 0) (byte_at data 1) in
    let st' := IncomingBmsPoll t (batteryVoltagePid t) data len remain st in
    denotes (m_bat_pack_voltage st') (inject_Z raw / 4) /\
    st' = set_m_bat_pack_voltage (m_bat_pack_voltage st') st /\
    ms_v_bat_voltage st' = ms_v_bat_voltage st.
Proof.
  intros t data len remain st Hd raw st'.
  unfold st'. rewrite (IncomingBmsPoll_packVoltage t data len remain st Hd).
  fold raw. split; [|split; reflexivity].
  eapply denotes_eq;
    [|apply (voltage_formula_exact raw), be16_range].
  now rewrite (Qdiv_as_mult _ 4).
Qed.

Lemma X15_pack_voltage_exact_witness :
  denotes
    (m_bat_pack_voltage
       (IncomingBmsPoll sample_pids (batteryVoltagePid sample_pids)
          [6; 65] 2 0 init_state))
    (inject_Z (be16 6 65) / 4).
Proof.
  apply (X15_pack_voltage_exact sample_pids [6; 65] 2 0 init_state
           sample_pids_distinct).
Defined.

(** X16: the battery voltage after a pack-voltage frame and a bus-voltage
    frame is exact: [raw_bus / 4] volts when the bus reading is not 0xFFFE,
    and the [raw_pack / 4] volts of the pack-voltage frame when it is. *)
Theorem X16_bus_voltage_exact :
  forall (t : PidTable) (d_pack d_bus : list Z) (len1 len2 remain1 remain2 : Z)
         (st : State),
    pids_distinct t ->
    let raw_pack := be16 (byte_at d_pack 0) (byte_at d_pack 1) in
    let raw_bus := be16 (byte_at d_bus 0) (byte_at d_bus 1) in
    let st1 :=
      IncomingBmsPoll t (batteryVoltagePid t) d_pack len1 remain1 st in
    let st2 :=
      IncomingBmsPoll t (batteryBusVoltagePid t) d_bus len2 remain2 st1 in
    denotes (ms_v_bat_voltage st2)
      (if raw_bus =? 0xfffe then inject_Z raw_pack / 4
       else inject_Z raw_bus / 4).
Proof.
  intros t d_pack d_bus len1 len2 remain1 remain2 st Hd
         raw_pack raw_bus st1 st2.
  unfold st2. rewrite (IncomingBmsPoll_busVoltage t d_bus len2 remain2 st1 Hd).
  cbv zeta. fold raw_bus.
  destruct (raw_bus =? 0xfffe); cbn [negb].
  - unfold st1.
    rewrite (IncomingBmsPoll_packVoltage t d_pack len1 remain1 st Hd).
    fold raw_pack.
    eapply denotes_eq;
      [|apply (voltage_formula_exact raw_pack), be16_range].
    now rewrite (Qdiv_as_mult _ 4).
  - eapply denotes_eq;
      [|apply (voltage_formula_exact raw_bus), be16_range].
    now rewrite (Qdiv_as_mult _ 4).
Qed.

Lemma X16_bus_voltage_exact_witness :
  denotes
    (ms_v_bat_voltage
       (IncomingBmsPoll sample_pids (batteryBusVoltagePid sample_pids)
          [255; 254] 2 0
          (IncomingBmsPoll sample_pids (batteryVoltagePid sample_pids)
             [6; 65] 2 0 init_state)))
    (inject_Z (be16 6 65) / 4).
Proof.
  exact (X16_bus_voltage_exact sample_pids [6; 65] [255; 254] 2 2 0 0
           init_state sample_pids_distinct).
Defined.

(** X17: the battery current a frame stores is [(raw - 40000) / 40]
    amperes up to rounding: it differs from it by at most 1/16000 A, for
    every payload. *)
Theorem X17_current_accuracy :
  forall (t : PidTable) (data : list Z) (len remain : Z) (st : State),
    pids_distinct t ->
    let raw := be16 (byte_at data 0) (byte_at data 1) in
    let st' := IncomingBmsPoll t (batteryCurrentPid t) data len remain st in
    within (ms_v_bat_current st') (inject_Z (raw - 40000) / 40) (1 # 16000).
Proof.
  intros t data len remain st Hd raw st'.
  unfold st'. rewrite (IncomingBmsPoll_current t data len remain st Hd).
  cbv zeta. fold raw.
  eapply within_eq; [| reflexivity | apply (current_within raw), be16_range].
  now rewrite (Qdiv_as_mult _ 40).
Qed.

Lemma X17_current_accuracy_witness :
  within
    (ms_v_bat_current
       (IncomingBmsPoll sample_pids (batteryCurrentPid sample_pids)
          [152; 89] 2 0 init_state))
    (inject_Z (be16 152 89 - 40000) / 40) (1 # 16000).
Proof.
  apply (X17_current_accuracy sample_pids [152; 89] 2 0 init_state
           sample_pids_distinct).
Defined.


(** The scaled SOC and the ideal range of an SOC frame, against the exact
    percentage [q]. *)
Lemma soc_range_within (lowerlimit upperlimit value : Z) :
  normal_in 24 false 10 10 (F32.of_Z (upperlimit - lowerlimit)) ->
  0 < upperlimit - lowerlimit < 65536 ->
  0 <= lowerlimit <= 60 -> 0 <= value < 65536 ->
  let q := (inject_Z (value - lowerlimit) * 100 /
            inject_Z (upperlimit - lowerlimit))%Q in
  let soc := soc_formula lowerlimit upperlimit value in
  within soc q (Qabs q * (1 # 16777216)) /\
  within (range_formula soc) (262 * (q / 100)) (Qabs q * (1 # 2100000)).
Proof.
  intros Hspan Hs Hl Hv q soc.
  destruct (soc_formula_within lowerlimit upperlimit value Hspan Hs Hl Hv)
    as [Hf Hb].
  fold q in Hb. fold soc in Hf, Hb.
  assert (Hq100 : (262 * (q / 100) == 262 * (q * (1 # 100)))%Q)
    by now rewrite (Qdiv_as_mult q 100).
  split.
  - exists (Q_of soc). split; [now apply SF2Q_finite | exact Hb].
  - destruct (Z.eq_dec value lowerlimit) as [E|Hne].
    + assert (Eq0 : (q == 0)%Q).
      { unfold q. rewrite E, Z.sub_diag. change (inject_Z 0) with 0%Q.
        field. assert (0 < inject_Z (upperlimit - lowerlimit))%Q
          by (apply inject_Z_pos; lia). lra. }
      assert (Es : range_formula soc = S754_zero false).
      { unfold soc, soc_formula. rewrite E, Z.sub_diag.
        destruct Hspan as (m & e & -> & _). reflexivity. }
      rewrite Es. apply within_intro; [reflexivity|].
      rewrite Hq100, Eq0. vm_compute. split; discriminate.
    + pose proof (soc_formula_normal lowerlimit upperlimit value
                    Hspan Hl Hv Hne) as Hn.
      fold soc in Hn.
      destruct (range_formula_within _ soc Hn) as [Hfr Hbr].
      apply within_intro; [exact Hfr|].
      rewrite Hq100.
      apply Qabs_Qle_condition in Hb. apply Qabs_Qle_condition in Hbr.
      set (vs := Q_of soc) in *. set (vr := Q_of (range_formula soc)) in *.
      clearbody vs vr q.
      destruct (Qlt_le_dec q 0) as [Hneg|Hpos].
      * rewrite (Qabs_neg q) in * by lra.
        assert (Hvs : (vs <= 0)%Q) by lra.
        rewrite (Qabs_neg vs) in Hbr by lra. lra.
      * rewrite (Qabs_pos q) in * by lra.
        assert (Hvs : (0 <= vs)%Q) by lra.
        rewrite (Qabs_pos vs) in Hbr by lra. lra.
Qed.




(** X19: an SOC frame stores, up to rounding, the documented values: the
    raw SOC within 1/2560 of [raw / 10]; the scaled SOC within a relative
    error of [2^-24] of the exact percentage
    [q = (raw - lower) * 100 / (upper - lower)], so that the product with
    100.0 is exact and only the division rounds; and the ideal range within
    [|q| / 2100000] of [262 * (q / 100)] km. *)
Theorem X19_soc_frame_accuracy :
  forall (t : PidTable) (data : list Z) (len remain : Z) (st : State),
    pids_distinct t ->
    let raw := be16 (byte_at data 0) (byte_at data 1) in
    let st' := IncomingBmsPoll t (batterySoCPid t) data len remain st in
    let enabled := GetParamValueBool (xmg_updatedbmu st) true in
    let lower := if enabled then 25 else 60 in
    let upper := if enabled then 940 else 970 in
    let q := (inject_Z (raw - lower) * 100 / inject_Z (upper - lower))%Q in
    within (m_soc_raw st') (inject_Z raw / 10) (1 # 2560) /\
    within (ms_v_bat_soc st') q (Qabs q * (1 # 16777216)) /\
    within (ms_v_bat_range_ideal st') (262 * (q / 100))
           (Qabs q * (1 # 2100000)).
Proof.
  intros t data len remain st Hd raw st' enabled lower upper q.
  pose proof (be16_range (byte_at data 0) (byte_at data 1)) as Hr.
  fold raw in Hr. unfold uint16_range in Hr.
  assert (E : st' =
    set_ms_v_bat_range_ideal (range_formula (calculateSoc raw st))
      (set_ms_v_bat_soc (calculateSoc raw st)
         (if ms_v_charge_inprogress st then
            if F64.ltb (double_of_float (calculateSoc raw st)) d_99_5
            then set_ms_v_charge_state "charging"
                   (set_m_soc_raw (F32.div (F32.of_Z raw) f_10) st)
            else set_ms_v_charge_state "topoff"
                   (set_m_soc_raw (F32.div (F32.of_Z raw) f_10) st)
          else set_m_soc_raw (F32.div (F32.of_Z raw) f_10) st))).
  { unfold st'. rewrite (IncomingBmsPoll_soc t data len remain st Hd).
    reflexivity. }
  assert (E1 : m_soc_raw st' = F32.div (F32.of_Z raw) f_10).
  { rewrite E. repeat break_if; reflexivity. }
  assert (E2 : ms_v_bat_soc st' = calculateSoc raw st)
    by (rewrite E; reflexivity).
  assert (E3 : ms_v_bat_range_ideal st' = range_formula (calculateSoc raw st))
    by (rewrite E; reflexivity).
  rewrite E1, E2, E3. split.
  - eapply within_eq; [| reflexivity | apply (soc_raw_within raw Hr)].
    now rewrite (Qdiv_as_mult _ 10).
  - rewrite calculateSoc_formula.
    unfold soc_window, q, lower, upper, enabled.
    destruct (GetParamValueBool (xmg_updatedbmu st) true); cbn [fst snd].
    + apply (soc_range_within 25 940 raw span_new_normal); lia.
    + apply (soc_range_within 60 970 raw span_old_normal); lia.
Qed.

Lemma X19_soc_frame_accuracy_witness :
  let st' :=
    IncomingBmsPoll sample_pids (batterySoCPid sample_pids) [2; 38] 2 0
      old_bmu_state in
  let q := (inject_Z (be16 2 38 - 60) * 100 / inject_Z (970 - 60))%Q in
  within (m_soc_raw st') (inject_Z (be16 2 38) / 10) (1 # 2560) /\
  within (ms_v_bat_soc st') q (Qabs q * (1 # 16777216)) /\
  within (ms_v_bat_range_ideal st') (262 * (q / 100))
         (Qabs q * (1 # 2100000)).
Proof.
  exact (X19_soc_frame_accuracy sample_pids [2; 38] 2 0 old_bmu_state
           sample_pids_distinct).
Defined.

(** X20: a coolant-temperature frame stores exactly
    [data[0] / 2 - 40] degrees -- between -40 and 87.5 -- for every byte,
    and changes nothing else. *)
Theorem X20_coolant_temp_exact :
  forall (t : PidTable) (data : list Z) (len remain : Z) (st : State),
    pids_distinct t -> frame_ok 1 data ->
    let st' :=
      IncomingBmsPoll t (batteryCoolantTempPid t) data len remain st in
    denotes (ms_v_bat_temp st') (inject_Z (byte_at data 0) / 2 - 40) /\
    st' = set_ms_v_bat_temp (ms_v_bat_temp st') st.
Proof.
  intros t data len remain st Hd Hf st'.
  unfold st'. rewrite (IncomingBmsPoll_coolantTemp t data len remain st Hd).
  split; [|reflexivity].
  eapply denotes_eq;
    [|apply (coolant_temp_exact (byte_at data 0)), (frame_ok_byte 1 data 0 Hf)].
  now rewrite (Qdiv_as_mult _ 2).
Qed.

Lemma X20_coolant_temp_exact_witness :
  denotes
    (ms_v_bat_temp
       (IncomingBmsPoll sample_pids (batteryCoolantTempPid sample_pids)
          [131] 1 0 init_state))
    (inject_Z (byte_at [131] 0) / 2 - 40).
Proof.
  apply (X20_coolant_temp_exact sample_pids [131] 1 0 init_state
           sample_pids_distinct).
  split; [simpl; lia|].
  apply Forall_cons; [unfold uint8_range; lia | apply Forall_nil].
Defined.

(** X21: a state-of-health frame stores [raw / 100] percent within
    1/25600, and an estimated-range frame [raw / 10] km within 1/2560; each
    writes its own metric only. *)
Theorem X21_soh_and_range_accuracy :
  forall (t : PidTable) (data : list Z) (len remain : Z) (st : State),
    pids_distinct t ->
    let raw := be16 (byte_at data 0) (byte_at data 1) in
    let st1 := IncomingBmsPoll t (batterySoHPid t) data len remain st in
    let st2 := IncomingBmsPoll t (bmsRangePid t) data len remain st in
    within (ms_v_bat_soh st1) (inject_Z raw / 100) (1 # 25600) /\
    st1 = set_ms_v_bat_soh (ms_v_bat_soh st1) st /\
    within (ms_v_bat_range_est st2) (inject_Z raw / 10) (1 # 2560) /\
    st2 = set_ms_v_bat_range_est (ms_v_bat_range_est st2) st.
Proof.
  intros t data len remain st Hd raw st1 st2.
  pose proof (be16_range (byte_at data 0) (byte_at data 1)) as Hr.
  fold raw in Hr. unfold uint16_range in Hr.
  unfold st1, st2.
  rewrite (IncomingBmsPoll_soh t data len remain st Hd).
  rewrite (IncomingBmsPoll_rangeEst t data len remain st Hd).
  fold raw.
  split; [apply (soh_within raw Hr)|].
  split; [reflexivity|].
  split; [apply (range_est_within raw Hr) | reflexivity].
Qed.

Lemma X21_soh_and_range_accuracy_witness :
  within
    (ms_v_bat_soh
       (IncomingBmsPoll sample_pids (batterySoHPid sample_pids)
          [38; 172] 2 0 init_state))
    (inject_Z (be16 38 172) / 100) (1 # 25600).
Proof.
  apply (X21_soh_and_range_accuracy sample_pids [38; 172] 2 0 init_state
           sample_pids_distinct).
Defined.



Lemma ProcessBatteryStats_twice
    (index : nat) (data : list Z) (remain : Z) (st : State) :
  ProcessBatteryStats index data remain
    (ProcessBatteryStats index data remain st) =
  ProcessBatteryStats index data remain st.
Proof.
  unfold ProcessBatteryStats.
  destruct (negb (remain =? 0)); state_simpl;
    rewrite !SetElemValue_idempotent; reflexivity.
Qed.

Lemma soc_frame_twice (value : Z) (st : State) :
  let f := fun st : State =>
    let st := set_m_soc_raw (F32.div (F32.of_Z value) f_10) st in
    let scaledSoc := calculateSoc value st in
    let st :=
      if ms_v_charge_inprogress st then
        if F64.ltb (double_of_float scaledSoc) d_99_5
        then set_ms_v_charge_state "charging" st
        else set_ms_v_charge_state "topoff" st
      else st in
    let st := set_ms_v_bat_soc scaledSoc st in
    set_ms_v_bat_range_ideal
      (F32.mul (F32.of_Z 262) (F32.div scaledSoc f_100)) st in
  f (f st) = f st.
Proof.
  destruct st as [a1 a2 a3 a4 a5 a6 a7 a8 a9 a10 a11 a12 a13 a14 a15 a16 a17
                  a18 a19 inprogress a21 a22 a23 a24 a25 a26 bmu].
  cbv zeta. unfold calculateSoc. state_simpl.
  set (soc := let '(lowerlimit, upperlimit) :=
                if GetParamValueBool bmu true then (25, 940) else (60, 970) in
              F32.div (F32.mul (F32.of_Z (value - lowerlimit)) f_100)
                      (F32.of_Z (upperlimit - lowerlimit))).
  destruct inprogress; [|reflexivity].
  destruct (F64.ltb (double_of_float soc) d_99_5) eqn:E;
    state_simpl;
    match goal with
    | |- context [F64.ltb (double_of_float ?x) d_99_5] => change x with soc
    end;
    rewrite E; reflexivity.
Qed.

(** X23: a frame handled twice in a row changes nothing the second
    time, whatever its PID and payload: the state after the repetition is
    the state after the first handling.  This holds for min-frames and
    max-frames of the cell blocks, for every scalar frame (the power is
    recomputed from an unchanged voltage, the charge label from an
    unchanged in-progress flag), for status bytes and for unknown PIDs. *)
Theorem X23_repeated_frame_changes_nothing :
  forall (t : PidTable) (pid : Z) (data : list Z) (len remain : Z)
         (st : State),
    let st1 := IncomingBmsPoll t pid data len remain st in
    IncomingBmsPoll t pid data len remain st1 = st1.
Proof.
  intros t pid data len remain st st1. unfold st1, IncomingBmsPoll.
  set (value := be16 (byte_at data 0) (byte_at data 1)).
  repeat match goal with
  | |- context [pid =? ?x] => destruct (pid =? x)
  end;
  lazymatch goal with
  | |- context [ProcessBatteryStats] => apply ProcessBatteryStats_twice
  | |- context [SetBmsStatus] => apply SetBmsStatus_idempotent
  | |- context [set_ms_v_bat_voltage] =>
      destruct (negb (value =? 65534)); reflexivity
  | |- context [calculateSoc] => apply (soc_frame_twice value st)
  | |- _ => reflexivity
  end.
Qed.
